(** * RADEX_mapping: the ratio_map class of [code/libraries/ratio_density.py]

    A shallow embedding of the grid-matching and per-pixel inversion code
    of [ratio_map], and the properties of its specification.

    Numbers.  A numpy float64 is idealised as a rational or NaN
    ([pyfloat]): NaN is what the code masks pixels with, so it is kept;
    rounding, overflow and the infinities are not modelled (a division by
    zero gives NaN).  Comparisons with NaN are false and arithmetic with
    NaN is NaN, as in IEEE 754.

    Arrays.  A 2-D ndarray is a list of rows ([grid]); [data[y][x]] reads
    row [y], column [x].  Reading or writing outside the array raises
    IndexError, and an elementwise operation follows numpy's broadcasting
    rule for two dimensions.

    Exceptions.  Python code that can raise returns a [result]; the
    exception of a failing step propagates unless the source catches it.
    Code that prints returns the printed lines next to its result. *)

From Stdlib Require Import QArith Qabs Lqa String Ascii ZArith.
From stdpp Require Import base list sorting.

#[local] Set Warnings "-clear-no-such-hyp".

Local Open Scope Q_scope.

(** ** Floating-point values *)

Inductive pyfloat : Type :=
| nan
| fin (q : Q).

Definition Qlt_bool (a b : Q) : bool := negb (Qle_bool b a).

Module Float.

(** [np.isnan] *)
Definition isnan (v : pyfloat) : bool :=
  match v with nan => true | fin _ => false end.

Definition lift2 (op : Q -> Q -> Q) (a b : pyfloat) : pyfloat :=
  match a, b with
  | fin x, fin y => fin (op x y)
  | _, _ => nan
  end.

Definition add : pyfloat -> pyfloat -> pyfloat := lift2 Qplus.
Definition sub : pyfloat -> pyfloat -> pyfloat := lift2 Qminus.
Definition mul : pyfloat -> pyfloat -> pyfloat := lift2 Qmult.

Definition div (a b : pyfloat) : pyfloat :=
  match a, b with
  | fin x, fin y => if Qeq_bool y 0 then nan else fin (x / y)
  | _, _ => nan
  end.

(** the integer [n] as a float *)
Definition of_nat (n : nat) : pyfloat := fin (inject_Z (Z.of_nat n)).

(** [np.abs] *)
Definition abs (a : pyfloat) : pyfloat :=
  match a with fin x => fin (Qabs x) | nan => nan end.

(** [a < b], [a > b], [a == b]: false as soon as one side is NaN *)
Definition lt (a b : pyfloat) : bool :=
  match a, b with
  | fin x, fin y => Qlt_bool x y
  | _, _ => false
  end.

Definition gt (a b : pyfloat) : bool := lt b a.

Definition eq (a b : pyfloat) : bool :=
  match a, b with
  | fin x, fin y => Qeq_bool x y
  | _, _ => false
  end.

(** two floats are the same value: both NaN, or equal numbers *)
Definition same (a b : pyfloat) : Prop :=
  match a, b with
  | nan, nan => True
  | fin x, fin y => x == y
  | _, _ => False
  end.

End Float.

(** ** Exceptions and printed output *)

Inductive exn : Type :=
| ValueError
| IndexError
| KeyError
| AttributeError
| TypeError.

Inductive result (A : Type) : Type :=
| Ok (a : A)
| Raise (e : exn).

Arguments Ok {A} a.
Arguments Raise {A} e.

#[global] Instance result_ret : MRet result := fun A a => Ok a.
#[global] Instance result_bind : MBind result := fun A B f m =>
  match m with
  | Ok a => f a
  | Raise e => Raise e
  end.

(** the lines a call has printed, oldest first *)
Abbreviation stdout := (list string).

(** ** Two-dimensional arrays *)

Abbreviation grid := (list (list pyfloat)).

(** the pixel at row [y], column [x], when there is one *)
Definition pix (g : grid) (y x : nat) : option pyfloat :=
  match g !! y with
  | Some row => row !! x
  | None => None
  end.

(** [g[y][x]] *)
Definition getitem2 (g : grid) (y x : nat) : result pyfloat :=
  match pix g y x with
  | Some v => Ok v
  | None => Raise IndexError
  end.

(** [g[y][x] = v] *)
Definition setitem2 (g : grid) (y x : nat) (v : pyfloat) : result grid :=
  match g !! y with
  | Some row =>
      if decide (x < length row)%nat
      then Ok (<[y := <[x := v]> row]> g)
      else Raise IndexError
  | None => Raise IndexError
  end.

(** [len(g[0])] *)
Definition len_row0 (g : grid) : result nat :=
  match g !! 0%nat with
  | Some row => Ok (length row)
  | None => Raise IndexError
  end.

(** [g.shape] of a rectangular array *)
Definition nrows (g : grid) : nat := length g.
Definition ncols (g : grid) : nat := length (hd [] g).
Definition shape (g : grid) : nat * nat := (nrows g, ncols g).

(** every row has the length of the first one: what a list of rows needs
    to be an ndarray *)
Definition rect (g : grid) : Prop :=
  Forall (fun row : list pyfloat => length row = ncols g) g.

(** two arrays have the same shape, row by row *)
Definition same_shape (a b : grid) : Prop :=
  Forall2 (fun r1 r2 : list pyfloat => length r1 = length r2) a b.

(** the array of [r] rows and [c] columns whose pixel (i, j) is [f i j] *)
Definition tabulate (r c : nat) (f : nat -> nat -> pyfloat) : grid :=
  map (fun i => map (fun j => f i j) (seq 0 c)) (seq 0 r).

(** [np.zeros((r, c))] with every zero then set to NaN *)
Definition nan_grid (r c : nat) : grid := replicate r (replicate c nan).

(** numpy broadcasting of one dimension: equal sizes, or one of them 1 *)
Definition broadcast_dim (n m : nat) : option nat :=
  if (n =? m)%nat then Some n
  else if (n =? 1)%nat then Some m
  else if (m =? 1)%nat then Some n
  else None.

(** the pixel that broadcasting reads at (i, j): a dimension of size 1
    is stretched *)
Definition stretched (g : grid) (i j : nat) : pyfloat :=
  let i' := if (nrows g =? 1)%nat then 0%nat else i in
  let j' := if (ncols g =? 1)%nat then 0%nat else j in
  default nan (pix g i' j').

(** an elementwise binary operation on two arrays; ValueError when the
    shapes cannot be broadcast together *)
Definition broadcast2 (op : pyfloat -> pyfloat -> pyfloat) (a b : grid)
    : result grid :=
  match broadcast_dim (nrows a) (nrows b), broadcast_dim (ncols a) (ncols b) with
  | Some r, Some c =>
      Ok (tabulate r c (fun i j => op (stretched a i j) (stretched b i j)))
  | _, _ => Raise ValueError
  end.

(** [np.where(~np.isnan(m))], as the list of (row, column) pairs in
    numpy's row-major order *)
Fixpoint row_where (y x : nat) (row : list pyfloat) : list (nat * nat) :=
  match row with
  | [] => []
  | v :: rest =>
      if Float.isnan v then row_where y (S x) rest
      else (y, x) :: row_where y (S x) rest
  end.

Fixpoint where_from (y : nat) (m : grid) : list (nat * nat) :=
  match m with
  | [] => []
  | row :: rest => row_where y 0 row ++ where_from (S y) rest
  end.

Definition where_notnan (m : grid) : list (nat * nat) := where_from 0 m.

(** a [for] loop over pixel coordinates whose body may raise *)
Fixpoint for_each {S : Type} (body : nat * nat -> S -> result S)
    (idx : list (nat * nat)) (s : S) : result S :=
  match idx with
  | [] => Ok s
  | i :: rest =>
      match body i s with
      | Ok s' => for_each body rest s'
      | Raise e => Raise e
      end
  end.

(** [for x in range(0, c): for y in range(0, r)]: the (row, column)
    pairs in the order the nested loops visit them *)
Definition columns_then_rows (r c : nat) : list (nat * nat) :=
  flat_map (fun x => map (fun y => (y, x)) (seq 0 r)) (seq 0 c).

(** ** Arrays of any dtype, masks and index arrays *)

(** the entry at row [y], column [x] of a 2-D array, when there is one *)
Definition at2 {A : Type} (a : list (list A)) (y x : nat) : option A :=
  match a !! y with
  | Some row => row !! x
  | None => None
  end.

(** [a[mask] = v] for a boolean array [mask]: IndexError unless [mask]
    has the shape of [a] *)
Fixpoint mask_row {A : Type} (row : list A) (mask : list bool) (v : A)
    : result (list A) :=
  match row, mask with
  | [], [] => Ok []
  | e :: row', b :: mask' =>
      rest ← mask_row row' mask' v; Ok ((if b then v else e) :: rest)
  | _, _ => Raise IndexError
  end.

Fixpoint mask_assign {A : Type} (a : list (list A)) (mask : list (list bool))
    (v : A) : result (list (list A)) :=
  match a, mask with
  | [], [] => Ok []
  | row :: a', m :: mask' =>
      r ← mask_row row m v; rest ← mask_assign a' mask' v; Ok (r :: rest)
  | _, _ => Raise IndexError
  end.

(** [np.where(a == v)[0]] for a 1-D array: the indices, ascending *)
Fixpoint where_eq_from (i : nat) (a : list pyfloat) (v : pyfloat) : list nat :=
  match a with
  | [] => []
  | e :: rest =>
      if Float.eq e v then i :: where_eq_from (S i) rest v
      else where_eq_from (S i) rest v
  end.

Definition where_eq (a : list pyfloat) (v : pyfloat) : list nat :=
  where_eq_from 0 a v.

(** [a[indices]] for an array of indices: IndexError for an index
    outside [a] *)
Fixpoint take_indices (a : list pyfloat) (indices : list nat)
    : result (list pyfloat) :=
  match indices with
  | [] => Ok []
  | i :: rest =>
      e ← match a !! i with
          | Some e => Ok e
          | None => Raise IndexError
          end;
      es ← take_indices a rest; Ok (e :: es)
  end.

(** ** numpy reductions *)

(** [np.nanmin] and [np.nanmax] of a 1-D array: NaN entries are skipped,
    an array of NaN only gives NaN, an empty array raises *)
Definition nan_pick (better : Q -> Q -> bool) (acc v : pyfloat) : pyfloat :=
  match acc, v with
  | nan, _ => v
  | _, nan => acc
  | fin a, fin b => if better b a then fin b else fin a
  end.

Definition nan_reduce (better : Q -> Q -> bool) (l : list pyfloat)
    : result pyfloat :=
  match l with
  | [] => Raise ValueError
  | _ => Ok (fold_left (nan_pick better) l nan)
  end.

Definition nanmin : list pyfloat -> result pyfloat := nan_reduce Qlt_bool.
Definition nanmax : list pyfloat -> result pyfloat :=
  nan_reduce (fun b a => Qlt_bool a b).

(** [a.argmin()] of a 1-D array: the first index of the least entry; a
    NaN entry counts as least; an empty array raises *)
Fixpoint argmin_from (best_i : nat) (best : pyfloat) (i : nat)
    (l : list pyfloat) : nat :=
  match l with
  | [] => best_i
  | v :: rest =>
      match best with
      | nan => best_i
      | fin b =>
          match v with
          | nan => i
          | fin q =>
              if Qlt_bool q b then argmin_from i v (S i) rest
              else argmin_from best_i best (S i) rest
          end
      end
  end.

Definition argmin (l : list pyfloat) : result nat :=
  match l with
  | [] => Raise ValueError
  | v :: rest => Ok (argmin_from 0 v 1 rest)
  end.

(** [np.linspace(start, stop, num)]: [arange(0, num) * step + start] with
    [step = (stop - start) / (num - 1)], the last entry set to [stop] *)
Definition linspace (start stop : pyfloat) (num : nat) : list pyfloat :=
  match num with
  | O => []
  | S O => [start]
  | S (S k as div) =>
      let step := Float.div (Float.sub stop start) (Float.of_nat div) in
      map (fun i => Float.add (Float.mul (Float.of_nat i) step) start)
          (seq 0 div) ++ [stop]
  end.

(** ** Strings and paths *)

(** [s.split(sep)] for a one-character separator *)
Fixpoint split (sep : ascii) (s : string) : list string :=
  match s with
  | EmptyString => [EmptyString]
  | String c rest =>
      if Ascii.eqb c sep then EmptyString :: split sep rest
      else match split sep rest with
           | field :: fields => String c field :: fields
           | [] => [String c EmptyString]
           end
  end.

(** [fields[-1]] and [fields[0]] of the list a split returns (never empty) *)
Definition last_field (fields : list string) : string :=
  List.last fields EmptyString.
Definition first_field (fields : list string) : string :=
  hd EmptyString fields.

(** [s.replace(a, b)] for one-character [a] and [b] *)
Fixpoint replace (a b : ascii) (s : string) : string :=
  match s with
  | EmptyString => EmptyString
  | String c rest => String (if Ascii.eqb c a then b else c) (replace a b rest)
  end.

(** [os.path.join(dir, f)] on a POSIX system *)
Definition path_join (dir f : string) : string :=
  match f with
  | String "/"%char _ => f
  | _ =>
      match dir with
      | EmptyString => f
      | _ =>
          if String.eqb (substring (String.length dir - 1) 1 dir) "/"
          then (dir ++ f)%string
          else (dir ++ "/" ++ f)%string
      end
  end.

(** the order of [str] comparison: by character code, a prefix first *)
Definition str_le (s1 s2 : string) : Prop := String.leb s1 s2 = true.

#[global] Instance str_le_dec (s1 s2 : string) : Decision (str_le s1 s2).
Proof. unfold str_le. apply _. Defined.

(** [l.sort()] and [l.sort(reverse = True)] on a list of strings *)
Definition list_sort (l : list string) : list string := merge_sort str_le l.
Definition list_sort_reverse (l : list string) : list string :=
  merge_sort (flip str_le) l.

(** ** Python values of the dynamically typed arguments *)

Inductive pyobj : Type :=
| PyFloat (v : pyfloat)
| PyArray (a : grid)
| PyOther.

(** a FITS header: key-value metadata *)
Abbreviation header_t := (list (string * string)).

(** a directory listing: each entry with [os.path.isfile] of it *)
Abbreviation listing := (list (string * bool)).

(** a dict with float keys, in insertion order; keys are compared with
    [==], so a NaN key never matches *)
Abbreviation float_dict V := (list (pyfloat * V)).

Fixpoint dict_get {V : Type} (d : float_dict V) (k : pyfloat) : result V :=
  match d with
  | [] => Raise KeyError
  | (k', v) :: rest => if Float.eq k' k then Ok v else dict_get rest k
  end.

Fixpoint dict_set {V : Type} (d : float_dict V) (k : pyfloat) (v : V)
    : float_dict V :=
  match d with
  | [] => [(k, v)]
  | (k', v') :: rest =>
      if Float.eq k' k then (k', v) :: rest else (k', v') :: dict_set rest k v
  end.

(** [l.index(v)] on a list of floats *)
Fixpoint list_index (l : list pyfloat) (v : pyfloat) : result nat :=
  match l with
  | [] => Raise ValueError
  | a :: rest =>
      if Float.eq a v then Ok 0%nat
      else i ← list_index rest v; Ok (S i)
  end.

(** [v in l] on a list of floats *)
Definition list_contains (l : list pyfloat) (v : pyfloat) : bool :=
  existsb (fun a => Float.eq a v) l.

(** [l[i] += 1] *)
Definition increment_at (l : list Z) (i : nat) : result (list Z) :=
  match l !! i with
  | Some n => Ok (<[i := (n + 1)%Z]> l)
  | None => Raise IndexError
  end.

(** a row of the DataFrame of brightness ratios *)
Record df_row : Type := {
  T_ratio : pyfloat;
  nH2 : pyfloat;
  Tkin : pyfloat
}.

(** a DataFrame with the default integer index *)
Abbreviation DataFrame := (list df_row).

(** [df[column][label]] *)
Definition df_at (df : DataFrame) (column : df_row -> pyfloat) (label : Z)
    : result pyfloat :=
  if (label <? 0)%Z then Raise KeyError
  else match df !! Z.to_nat label with
       | Some row => Ok (column row)
       | None => Raise KeyError
       end.

(** ** The class [ratio_map] *)

Module ratio_map.

(** An instance.  [astro_image] and [header] are set by
    [Astro_Image.__init__]; [None] is an attribute that was never set,
    and reading it raises AttributeError.  [rat_unc] is the Python value
    of the attribute: [None] or an array. *)
Record instance : Type := {
  astro_image : option grid;
  header : option (option header_t);
  rat_unc : option grid
}.

Definition msg_no_ratio_map : string :=
  "Cannot create a ratio map, verify that both maps have the same size and can be used to calculate a ratio.".
Definition msg_no_uncertainty : string :=
  "It was not possible to initialize the uncertainty".
Definition msg_number_of_uncertainties : string :=
  "You provided an incorrect number of relative uncertainties. No uncertainty is added to the ratio_map.".
Definition msg_uncertainty_input : string :=
  "You did not provide the right input to add uncertainty input to the ratio map. If you provided the uncertainty in the form of ndarrays, they might not have the right size.".
Definition msg_missing_files : string :=
  "There might be missing files for the analysis, please verify the directory with your grid of RADEX results.".

(** Modelled from the spec: [Astro_Image.__init__] (module [image] is not
    among the sources) stores the 2-D grid as [astro_image] and the
    metadata as [header]. *)
Definition Astro_Image__init__ (data : grid) (hdr : option header_t)
    : instance :=
  {| astro_image := Some data; header := Some hdr; rat_unc := None |}.

(** [self.astro_image] *)
Definition get_astro_image (self : instance) : result grid :=
  match astro_image self with
  | Some g => Ok g
  | None => Raise AttributeError
  end.

Definition shape_eqb (s t : nat * nat) : bool :=
  (s.1 =? t.1)%nat && (s.2 =? t.2)%nat.

(** which of the three root-finds of a pixel a call is *)
Inductive side : Type := Centre | Upper | Lower.

(** a call of [brentq]: the pixel, the side and the ratio solved for *)
Abbreviation call := (nat * nat * side * pyfloat)%type.

Section externals.

(** What the class calls and the repository's sources do not hold:
    [np.sqrt] on the non-negative rationals, [scipy.optimize.brentq],
    the polynomial and the polynomial minus a constant of module
    [functions], called as [f(x, *popt)] and [f(x, *popt, yval)] for an
    order, and Python's [float] of a string. *)
Variable np_sqrt : Q -> Q.
Variable brentq :
  (pyfloat -> pyfloat) -> pyfloat -> pyfloat -> result pyfloat.
Variable get_poly_function : Z -> pyfloat -> list pyfloat -> pyfloat.
Variable get_poly_function_min_yval :
  Z -> pyfloat -> list pyfloat -> pyfloat -> pyfloat.
Variable float_of_string : string -> result pyfloat.

(** [np.sqrt] of a float: NaN below zero *)
Definition sqrt (v : pyfloat) : pyfloat :=
  match v with
  | fin q => if Qlt_bool q 0 then nan else fin (np_sqrt q)
  | nan => nan
  end.

(** *** Construction *)

Definition __verify_input_uncertainty (self : instance)
    (rel_uncs : list pyobj) : stdout * result bool :=
  match rel_uncs !! 0%nat, rel_uncs !! 1%nat with
  | Some r0, Some r1 =>
      match r0, r1 with
      | PyFloat _, PyFloat _ => ([], Ok true)
      | PyArray a0, PyArray _ =>
          match get_astro_image self with
          | Ok img =>
              if shape_eqb (shape a0) (shape img)
                 && shape_eqb (shape a0) (shape img)
              then ([], Ok true)
              else ([msg_uncertainty_input], Ok false)
          | Raise e => ([], Raise e)
          end
      | _, _ => ([], Ok false)
      end
  | _, _ => ([], Raise IndexError)
  end.

Definition __create_uncertainty_array (self : instance)
    (rel_uncs : list pyobj) : result grid :=
  match rel_uncs !! 0%nat, rel_uncs !! 1%nat with
  | Some (PyFloat r0), Some (PyFloat r1) =>
      let rel_unc := sqrt (Float.add (Float.mul r0 r0) (Float.mul r1 r1)) in
      img ← get_astro_image self;
      Ok (map (map (fun v => Float.mul v rel_unc)) img)
  | Some (PyArray r0), Some (PyArray r1) =>
      sq0 ← broadcast2 Float.mul r0 r0;
      sq1 ← broadcast2 Float.mul r1 r1;
      sum ← broadcast2 Float.add sq0 sq1;
      let rel_unc := map (map sqrt) sum in
      img ← get_astro_image self;
      broadcast2 Float.mul img rel_unc
  | Some _, Some _ => Raise TypeError
  | _, _ => Raise IndexError
  end.

Definition __init__ (data1 data2 : grid) (hdr : option header_t)
    (rel_uncs : option (list pyobj)) : stdout * result instance :=
  let '(out, self) :=
    match broadcast2 Float.div data1 data2 with
    | Ok ratio => ([], Astro_Image__init__ ratio hdr)
    | Raise _ =>
        ([msg_no_ratio_map],
         {| astro_image := None; header := None; rat_unc := None |})
    end in
  match rel_uncs with
  | None => (out, Ok self)
  | Some uncs =>
      if (length uncs =? 2)%nat then
        match __verify_input_uncertainty self uncs with
        | (out', Ok true) =>
            match __create_uncertainty_array self uncs with
            | Ok unc =>
                (out ++ out',
                 Ok {| astro_image := astro_image self;
                       header := header self;
                       rat_unc := Some unc |})
            | Raise e => (out ++ out', Raise e)
            end
        | (out', Ok false) => (out ++ out' ++ [msg_no_uncertainty], Ok self)
        | (out', Raise e) => (out ++ out', Raise e)
        end
      else (out ++ [msg_number_of_uncertainties], Ok self)
  end.

(** *** Grid catalog *)

(** the files [get_colDens_list_from_files] keeps from the listing *)
Definition eligible (entry : string * bool) : bool :=
  entry.2 && String.eqb (last_field (split "." entry.1)) "dat".

Definition __verify_equality_in_list (ver_list : list Z) : result bool :=
  verification_val ←
    match ver_list !! 0%nat with
    | Some v => Ok v
    | None => Raise IndexError
    end;
  Ok (fold_left
        (fun verify_bool val =>
           if negb (verification_val - val =? 0)%Z then false
           else verify_bool)
        ver_list true).

Record catalog : Type := {
  return_list : list pyfloat;
  file_names : float_dict (list string);
  count_list : list Z
}.

(** the body of the loop over the files *)
Definition catalog_file (grid_path : string) (st : catalog) (f : string)
    : result catalog :=
  colDens ← float_of_string
    (replace "p" "." (first_field (split "." (last_field (split "_" f)))));
  if negb (list_contains (return_list st) colDens) then
    Ok {| return_list := return_list st ++ [colDens];
          file_names :=
            dict_set (file_names st) colDens [path_join grid_path f];
          count_list := count_list st ++ [1%Z] |}
  else
    ind ← list_index (return_list st) colDens;
    counts ← increment_at (count_list st) ind;
    paths ← dict_get (file_names st) colDens;
    Ok {| return_list := return_list st;
          file_names :=
            dict_set (file_names st) colDens
              (paths ++ [path_join grid_path f]);
          count_list := counts |}.

Fixpoint catalog_files (grid_path : string) (files : list string)
    (st : catalog) : result catalog :=
  match files with
  | [] => Ok st
  | f :: rest =>
      match catalog_file grid_path st f with
      | Ok st' => catalog_files grid_path rest st'
      | Raise e => Raise e
      end
  end.

(** [dir] is what [os.listdir(grid_path)] returns, each name with
    [os.path.isfile] of its path *)
Definition get_colDens_list_from_files (dir : listing) (grid_path : string)
    : stdout * result (list pyfloat * float_dict (list string)) :=
  let files := map fst (List.filter eligible dir) in
  match catalog_files grid_path files
          {| return_list := []; file_names := []; count_list := [] |} with
  | Ok st =>
      match __verify_equality_in_list (count_list st) with
      | Ok false => ([msg_missing_files], Ok (return_list st, file_names st))
      | Ok true => ([], Ok (return_list st, file_names st))
      | Raise e => ([], Raise e)
      end
  | Raise e => ([], Raise e)
  end.

(** *** Nearest-value matcher *)

Definition __find_nearest_value (array : list pyfloat) (value : pyfloat)
    : result pyfloat :=
  idx ← argmin (map (fun a => Float.abs (Float.sub a value)) array);
  match array !! idx with
  | Some v => Ok v
  | None => Raise IndexError
  end.

(** the body of the nested loops of [__get_nearest_map] *)
Definition nearest_pixel (real_map : grid) (options : list pyfloat)
    (i : nat * nat) (new_map : grid) : result grid :=
  let '(y, x) := i in
  val ← getitem2 real_map y x;
  if negb (Float.isnan val) then
    nearest ← __find_nearest_value options val;
    setitem2 new_map y x nearest
  else Ok new_map.

Definition __get_nearest_map (real_map : grid) (options_list : list pyfloat)
    : result (grid * grid) :=
  let options := options_list in
  let new_map := real_map in
  c ← len_row0 real_map;
  new_map ← for_each (nearest_pixel real_map options)
              (columns_then_rows (length real_map) c) new_map;
  diff_map ← broadcast2 Float.sub real_map new_map;
  Ok (new_map, diff_map).

(** *** Ratio-curve fitter *)

Definition get_ratio_curve (x_vals popt : list pyfloat) : list pyfloat :=
  map (fun x => get_poly_function (Z.of_nat (length popt) - 1)%Z x popt)
      x_vals.

Definition get_curve_vals (df : DataFrame) (popt : list pyfloat)
    : result (list pyfloat * list pyfloat) :=
  first ← df_at df nH2 0%Z;
  last ← df_at df nH2 (Z.of_nat (length df) - 1)%Z;
  let x_curve := linspace first last (length df) in
  Ok (x_curve, get_ratio_curve x_curve popt).

Definition __get_min_max_from_fitted_ratio_curve (curve_vals : list pyfloat)
    : result (pyfloat * pyfloat) :=
  min_rat ← nanmin curve_vals;
  max_rat ← nanmax curve_vals;
  Ok (min_rat, max_rat).

Definition __get_ratio_map_copy_range_cut (min_rat max_rat : pyfloat)
    (ratio_copy : grid) : grid :=
  let below := map (map (fun v => if Float.lt v min_rat then nan else v))
                 ratio_copy in
  map (map (fun v => if Float.gt v max_rat then nan else v)) below.

(** *** Per-pixel density inverter *)

(** the three maps of [__calculate_density], with the calls of [brentq]
    made so far (a ghost log: the Python function returns the maps only) *)
Record density_maps : Type := {
  vals : grid;
  vals_err_low : grid;
  vals_err_up : grid;
  calls : list call
}.

(** [brentq(funcs.get_poly_function_min_yval(len(popt)-1), x_beg, x_end,
    args = ( *popt, yval))] *)
Definition solve (x_beg x_end : pyfloat) (popt : list pyfloat)
    (yval : pyfloat) : result pyfloat :=
  brentq
    (fun n =>
       get_poly_function_min_yval (Z.of_nat (length popt) - 1)%Z n popt yval)
    x_beg x_end.

(** the body of the loop over the pixels that are not NaN *)
Definition density_pixel (self_rat_unc : option grid) (data : grid)
    (x_beg x_end min_rat max_rat : pyfloat) (popt : list pyfloat)
    (i : nat * nat) (st : density_maps) : result density_maps :=
  let '(y, x) := i in
  d ← getitem2 data y x;
  n ← solve x_beg x_end popt d;
  vals' ← setitem2 (vals st) y x n;
  let st := {| vals := vals'; vals_err_low := vals_err_low st;
               vals_err_up := vals_err_up st;
               calls := calls st ++ [(y, x, Centre, d)] |} in
  match self_rat_unc with
  | None => Ok st
  | Some unc =>
      d ← getitem2 data y x;
      u ← getitem2 unc y x;
      let up_err := Float.add d u in
      st ← (if Float.lt up_err max_rat then
              n ← solve x_beg x_end popt up_err;
              up' ← setitem2 (vals_err_up st) y x n;
              Ok {| vals := vals st; vals_err_low := vals_err_low st;
                    vals_err_up := up';
                    calls := calls st ++ [(y, x, Upper, up_err)] |}
            else Ok st);
      d ← getitem2 data y x;
      u ← getitem2 unc y x;
      let low_err := Float.sub d u in
      if Float.gt low_err min_rat then
        n ← solve x_beg x_end popt low_err;
        low' ← setitem2 (vals_err_low st) y x n;
        Ok {| vals := vals st; vals_err_low := low';
              vals_err_up := vals_err_up st;
              calls := calls st ++ [(y, x, Lower, low_err)] |}
      else Ok st
  end.

(** [x_beg] and [x_end] are the bracket handed to [brentq] as it comes *)
Definition __calculate_density (self_rat_unc : option grid) (data : grid)
    (x_beg x_end min_rat max_rat : pyfloat) (popt : list pyfloat)
    : result density_maps :=
  c ← len_row0 data;
  let blank := nan_grid (length data) c in
  for_each
    (density_pixel self_rat_unc data x_beg x_end min_rat max_rat popt)
    (where_notnan data)
    {| vals := blank; vals_err_low := blank; vals_err_up := blank;
       calls := [] |}.

(** *** Mosaic assembler *)

Definition __add_results_to_global_map (global_map local_map : grid)
    : result grid :=
  for_each (fun '(y, x) g => v ← getitem2 local_map y x; setitem2 g y x v)
    (where_notnan local_map) global_map.

(** *** Temperatures of the grid and order of the two files *)

(** What the functions below call besides: [open(path).readlines()],
    [line.split()] on white space, and Python's [int] of a string. *)
Variable open_readlines : string -> result (list string).
Variable str_split : string -> list string.
Variable int_of_string : string -> result Z.

Definition msg_file_lengths : string :=
  "The RADEX result files do not have the same length, please verify the directory with your grid of RADEX results.".

(** the body of the loop over the lines of the first file *)
Definition Tkin_line (Tkin_list : list pyfloat) (line : string)
    : result (list pyfloat) :=
  let result := str_split line in
  token ← match result !! 0%nat with
          | Some t => Ok t
          | None => Raise IndexError
          end;
  Tkin ← float_of_string token;
  if negb (list_contains Tkin_list Tkin) then Ok (Tkin_list ++ [Tkin])
  else Ok Tkin_list.

Fixpoint Tkin_lines (lines : list string) (Tkin_list : list pyfloat)
    : result (list pyfloat) :=
  match lines with
  | [] => Ok Tkin_list
  | line :: rest =>
      match Tkin_line Tkin_list line with
      | Ok Tkin_list' => Tkin_lines rest Tkin_list'
      | Raise e => Raise e
      end
  end.

(** the loop over the files, from the [i]-th on *)
Fixpoint Tkin_files (i : nat) (directories_list : list string)
    (Tkin_list : list pyfloat) (length_files : list Z)
    : result (list pyfloat * list Z) :=
  match directories_list with
  | [] => Ok (Tkin_list, length_files)
  | directory :: rest =>
      lines ← open_readlines directory;
      let length_files := length_files ++ [Z.of_nat (length lines)] in
      Tkin_list ← (if (i =? 0)%nat then Tkin_lines lines Tkin_list
                   else Ok Tkin_list);
      Tkin_files (S i) rest Tkin_list length_files
  end.

Definition get_Tkin_list_from_directories
    (file_names_dict : float_dict (list string))
    : stdout * result (list pyfloat) :=
  let list_keys := map snd file_names_dict in
  let directories_list := concat list_keys in
  match Tkin_files 0 directories_list [] [] with
  | Ok (Tkin_list, length_files) =>
      match __verify_equality_in_list length_files with
      | Ok false => ([msg_file_lengths], Ok Tkin_list)
      | Ok true => ([], Ok Tkin_list)
      | Raise e => ([], Raise e)
      end
  | Raise e => ([], Raise e)
  end.

Definition __get_sorted_paths (line_1 line_2 : string) (paths : list string)
    : result (list string) :=
  val_1 ← int_of_string (first_field (split "-" line_1));
  val_2 ← int_of_string (first_field (split "-" line_2));
  let paths := list_sort paths in
  if (val_1 >? val_2)%Z then Ok (list_sort_reverse paths) else Ok paths.

(** *** The ratio map of one cell of the grid *)

(** Lines 113-115 and 131-134 of [get_density_ratio_from_colDens]: the
    copy of the ratio map for one column density and one temperature,
    NaN wherever the nearest column density or the nearest temperature
    of the pixel is another one. *)
Definition cell_ratio_copy (self : instance)
    (colDens_nearest Tkin_nearest : grid) (colDens Tkin : pyfloat)
    : result grid :=
  c ← len_row0 colDens_nearest;
  let mask := replicate (length colDens_nearest) (replicate c 0%Z) in
  mask ← mask_assign mask
           (map (map (fun v => Float.eq v colDens)) colDens_nearest) 1%Z;
  let mask_1 := mask in
  mask_1 ← mask_assign mask_1
             (map (map (fun v => negb (Float.eq v Tkin))) Tkin_nearest) 0%Z;
  ratio_copy ← get_astro_image self;
  mask_assign ratio_copy (map (map (fun m => (m =? 0)%Z)) mask_1) nan.

(** *** The bracket of the root-finder *)

(** Lines 174, 182, 186 and 187 of
    [get_density_in_pixels_from_curve_fitting], for fitted coefficients
    [popt]: the extrema of the curve and the points of the axis where
    the curve takes them, [n_beg] for the minimum and [n_end] for the
    maximum (arrays, as [np.where] finds them). *)
Definition curve_bracket (df : DataFrame) (popt : list pyfloat)
    : result (pyfloat * pyfloat * list pyfloat * list pyfloat) :=
  '(x_curve, curve_vals) ← get_curve_vals df popt;
  '(min_rat, max_rat) ← __get_min_max_from_fitted_ratio_curve curve_vals;
  n_beg ← take_indices x_curve (where_eq curve_vals min_rat);
  n_end ← take_indices x_curve (where_eq curve_vals max_rat);
  Ok (min_rat, max_rat, n_beg, n_end).

End externals.

End ratio_map.

(** ** Reference instances of the external functions

    Used to run the model on concrete inputs. *)

(** a square root that is exact on the squares of rationals and rounds
    up to the next multiple of 1/denominator otherwise *)
Definition sqrt_ref (q : Q) : Q :=
  Z.sqrt_up (Qnum q * Zpos (Qden q)) # Qden q.

(** Modelled from the spec: the polynomial of module [functions] (not
    among the sources), [polynomial(n)], with the coefficients in [popt]
    from the highest power down; a NaN anywhere gives NaN. *)
Definition poly_ref (order : Z) (x : pyfloat) (popt : list pyfloat) : pyfloat :=
  fold_left (fun acc c => Float.add (Float.mul acc x) c) popt (fin 0).

(** Modelled from the spec: [polynomial(n) - observedRatio], the function
    whose root the inverter looks for. *)
Definition poly_min_yval_ref (order : Z) (x : pyfloat) (popt : list pyfloat)
    (yval : pyfloat) : pyfloat :=
  Float.sub (poly_ref order x popt) yval.

(** one secant step of a bracketing root-finder: the point where the
    chord through (a, fa) and (b, fb) crosses zero *)
Definition secant (a fa b fb : Q) : Q := a - fa * (b - a) / (fb - fa).

(** A root-finder with the interface and the bracket check of
    [scipy.optimize.brentq]: an end point where [f] vanishes is returned,
    ValueError is raised when [f(a)] and [f(b)] have the same sign or [f]
    is NaN there, and otherwise secant steps keep a bracket until [f]
    vanishes or [fuel] steps are done. *)
Fixpoint bracket_steps (fuel : nat) (f : pyfloat -> pyfloat) (a fa b fb : Q)
    : pyfloat :=
  let c := secant a fa b fb in
  match fuel with
  | O => fin c
  | S fuel' =>
      match f (fin c) with
      | nan => nan
      | fin fc =>
          if Qeq_bool fc 0 then fin c
          else if Qlt_bool (fa * fc) 0 then bracket_steps fuel' f a fa c fc
          else bracket_steps fuel' f c fc b fb
      end
  end.

Definition brentq_ref (f : pyfloat -> pyfloat) (a b : pyfloat)
    : result pyfloat :=
  match a, b, f a, f b with
  | fin qa, fin qb, fin fa, fin fb =>
      if Qeq_bool fa 0 then Ok a
      else if Qeq_bool fb 0 then Ok b
      else if Qlt_bool (fa * fb) 0 then Ok (bracket_steps 50 f qa fa qb fb)
      else Raise ValueError
  | _, _, _, _ => Raise ValueError
  end.

(** a helper of the proofs: a loop that stores [v] at every visited
    pixel (y, x) for which [F (y, x)] is [Some v] *)
Definition store_pixel (F : nat * nat -> option pyfloat) (i : nat * nat)
    (g : grid) : result grid :=
  match F i with
  | Some v => setitem2 g i.1 i.2 v
  | None => Ok g
  end.

Definition store_loop (F : nat * nat -> option pyfloat)
    (idx : list (nat * nat)) (g : grid) : result grid :=
  for_each (store_pixel F) idx g.

(** the entry of [linspace] before the last one *)
Definition linspace_entry (start step : pyfloat) (i : nat) : pyfloat :=
  Float.add (Float.mul (Float.of_nat i) step) start.

(** the value the merge stores at a visited pixel *)
Definition local_value (local_map : grid) (i : nat * nat) : pyfloat :=
  default nan (pix local_map i.1 i.2).


Section density_helpers.

Variable brentq :
  (pyfloat -> pyfloat) -> pyfloat -> pyfloat -> result pyfloat.
Variable get_poly_function_min_yval :
  Z -> pyfloat -> list pyfloat -> pyfloat -> pyfloat.
Variable self_rat_unc : option grid.
Variable data : grid.
Variables x_beg x_end min_rat max_rat : pyfloat.
Variable popt : list pyfloat.

(** the ratios [density_pixel] solves for at a pixel, in order, when no
    root-find raises: the pixel itself, then the upper and the lower
    perturbation, each under its test *)
Definition pixel_calls (i : nat * nat) : list ratio_map.call :=
  match pix data i.1 i.2 with
  | None => []
  | Some d =>
      (i.1, i.2, ratio_map.Centre, d) ::
      match self_rat_unc with
      | None => []
      | Some unc =>
          match pix unc i.1 i.2 with
          | None => []
          | Some u =>
              (if Float.lt (Float.add d u) max_rat
               then [(i.1, i.2, ratio_map.Upper, Float.add d u)] else [])
              ++
              (if Float.gt (Float.sub d u) min_rat
               then [(i.1, i.2, ratio_map.Lower, Float.sub d u)] else [])
          end
      end
  end.

(** the root stored for a ratio, when the root-finder returns one *)
Definition root_of (yval : pyfloat) : option pyfloat :=
  match ratio_map.solve brentq get_poly_function_min_yval x_beg x_end popt
          yval with
  | Ok n => Some n
  | Raise _ => None
  end.

(** what [density_pixel] stores at a pixel in each of the three maps *)
Definition centre_store (i : nat * nat) : option pyfloat :=
  match pix data i.1 i.2 with
  | Some d => root_of d
  | None => None
  end.

Definition upper_store (i : nat * nat) : option pyfloat :=
  match self_rat_unc, pix data i.1 i.2 with
  | Some unc, Some d =>
      match pix unc i.1 i.2 with
      | Some u =>
          if Float.lt (Float.add d u) max_rat then root_of (Float.add d u)
          else None
      | None => None
      end
  | _, _ => None
  end.

Definition lower_store (i : nat * nat) : option pyfloat :=
  match self_rat_unc, pix data i.1 i.2 with
  | Some unc, Some d =>
      match pix unc i.1 i.2 with
      | Some u =>
          if Float.gt (Float.sub d u) min_rat then root_of (Float.sub d u)
          else None
      | None => None
      end
  | _, _ => None
  end.

End density_helpers.



(** the part of a file name that [get_colDens_list_from_files] hands
    to [float]: after the last underscore, before the first dot, with
    [p] for the decimal point *)
Definition colDens_token (f : string) : string :=
  replace "p" "." (first_field (split "." (last_field (split "_" f)))).

(** the temperature [get_Tkin_list_from_directories] reads on a line:
    [float] of the first field *)
Definition Tkin_of_line (float_of_string : string -> result pyfloat)
    (str_split : string -> list string) (line : string) : result pyfloat :=
  match str_split line !! 0%nat with
  | Some t => float_of_string t
  | None => Raise IndexError
  end.

(** no two entries of a list of floats are equal ([==]) *)
Definition distinct_floats (l : list pyfloat) : Prop :=
  forall i j a b, (i < j)%nat -> l !! i = Some a -> l !! j = Some b ->
                  Float.eq a b = false.

(** all entries of a list are the same *)
Definition all_same {A : Type} (l : list A) : Prop :=
  forall i j v w, l !! i = Some v -> l !! j = Some w -> v = w.

(** a [float] for concrete runs: it reads the two numerals the examples
    use and raises ValueError on anything else *)
Definition float_ref (s : string) : result pyfloat :=
  if String.eqb s "1.0" then Ok (fin 1)
  else if String.eqb s "2.5" then Ok (fin (5 # 2))
  else Raise ValueError.

(** an [int] for concrete runs: it reads a string of decimal digits and
    raises ValueError on anything else *)
Fixpoint digits_ref (s : string) (acc : Z) : result Z :=
  match s with
  | EmptyString => Ok acc
  | String c rest =>
      let n := nat_of_ascii c in
      if (48 <=? n)%nat && (n <=? 57)%nat
      then digits_ref rest (10 * acc + Z.of_nat (n - 48))%Z
      else Raise ValueError
  end.

Definition int_ref (s : string) : result Z :=
  match s with
  | EmptyString => Raise ValueError
  | _ => digits_ref s 0%Z
  end.

(** every pixel of [local_map] that is not NaN is a pixel of
    [global_map] *)
Definition covers (global_map local_map : grid) : Prop :=
  forall y x q, pix local_map y x = Some (fin q) ->
                is_Some (pix global_map y x).

(** no pixel is a number in both maps *)
Definition disjoint_maps (a b : grid) : Prop :=
  forall y x q1 q2, pix a y x = Some (fin q1) -> pix b y x = Some (fin q2) ->
                    False.

(** two 2-D arrays of any dtypes have the same shape, row by row *)
Definition same_shape2 {A B : Type} (a : list (list A)) (b : list (list B))
    : Prop :=
  Forall2 (fun (r1 : list A) (r2 : list B) => length r1 = length r2) a b.

(** * Properties *)

(** ** Numbers *)

Lemma Qlt_bool_iff a b : Qlt_bool a b = true <-> a < b.
Proof.
  unfold Qlt_bool. rewrite negb_true_iff. split; intros H.
  - apply Qnot_le_lt. intros Hle. apply Qle_bool_iff in Hle. congruence.
  - destruct (Qle_bool b a) eqn:E; [|reflexivity].
    apply Qle_bool_iff in E. exfalso. exact (Qlt_not_le _ _ H E).
Qed.

Lemma Qlt_bool_false a b : Qlt_bool a b = false <-> b <= a.
Proof.
  unfold Qlt_bool. rewrite negb_false_iff. apply Qle_bool_iff.
Qed.

(** ** Arrays *)

Lemma pix_Some (g : grid) (y x : nat) (v : pyfloat) :
  pix g y x = Some v <-> exists row, g !! y = Some row /\ row !! x = Some v.
Proof.
  unfold pix. split.
  - destruct (g !! y) as [row|]; [eauto|discriminate].
  - intros (row & -> & H). exact H.
Qed.

Lemma getitem2_Ok (g : grid) (y x : nat) (v : pyfloat) :
  getitem2 g y x = Ok v <-> pix g y x = Some v.
Proof.
  unfold getitem2. destruct (pix g y x); split; congruence.
Qed.

Lemma same_shape_refl (g : grid) : same_shape g g.
Proof. unfold same_shape. induction g; constructor; auto. Qed.

Lemma same_shape_sym (a b : grid) : same_shape a b -> same_shape b a.
Proof. unfold same_shape. induction 1; constructor; auto. Qed.

Lemma same_shape_trans (a b c : grid) :
  same_shape a b -> same_shape b c -> same_shape a c.
Proof.
  unfold same_shape. intros H. revert c.
  induction H; intros c Hc; inversion Hc; subst; constructor; eauto; congruence.
Qed.

Lemma same_shape_pix (a b : grid) (y x : nat) :
  same_shape a b -> is_Some (pix a y x) -> is_Some (pix b y x).
Proof.
  unfold same_shape. intros H [v Hv]. apply pix_Some in Hv as (ra & Hy & Hx).
  destruct (Forall2_lookup_l _ a b y ra H Hy) as (rb & Hb & Hlen).
  unfold pix. rewrite Hb. apply lookup_lt_is_Some. rewrite <- Hlen.
  eapply lookup_lt_Some; eauto.
Qed.

Lemma setitem2_inv (g g' : grid) (y x : nat) (v : pyfloat) :
  setitem2 g y x v = Ok g' ->
  exists row, g !! y = Some row /\ (x < length row)%nat /\
              g' = <[y := <[x := v]> row]> g.
Proof.
  unfold setitem2. destruct (g !! y) as [row|]; [|discriminate].
  case_decide; [|discriminate]. intros [= <-]. eauto.
Qed.

Lemma setitem2_Ok (g : grid) (y x : nat) (v : pyfloat) :
  is_Some (pix g y x) -> exists g', setitem2 g y x v = Ok g'.
Proof.
  intros [w Hw]. apply pix_Some in Hw as (row & Hy & Hx).
  unfold setitem2. rewrite Hy. apply lookup_lt_Some in Hx.
  rewrite decide_True by done. eauto.
Qed.

Lemma setitem2_shape (g g' : grid) (y x : nat) (v : pyfloat) :
  setitem2 g y x v = Ok g' -> same_shape g' g.
Proof.
  intros H. apply setitem2_inv in H as (row & Hy & Hx & ->).
  unfold same_shape. apply Forall2_same_length_lookup. split.
  - by rewrite length_insert.
  - intros i r1 r2 H1 H2. destruct (decide (y = i)) as [->|Hne].
    + rewrite list_lookup_insert_eq in H1 by (eapply lookup_lt_Some; eauto).
      injection H1 as <-. rewrite length_insert. congruence.
    + rewrite list_lookup_insert_ne in H1 by done. congruence.
Qed.

Lemma pix_setitem2 (g g' : grid) (y x : nat) (v : pyfloat) (y' x' : nat) :
  setitem2 g y x v = Ok g' ->
  pix g' y' x' = if decide ((y, x) = (y', x')) then Some v else pix g y' x'.
Proof.
  intros H. apply setitem2_inv in H as (row & Hy & Hx & ->).
  unfold pix. destruct (decide (y = y')) as [<-|Hne].
  - rewrite list_lookup_insert_eq by (eapply lookup_lt_Some; eauto).
    rewrite Hy. destruct (decide (x = x')) as [<-|Hnx].
    + rewrite decide_True by done. by rewrite list_lookup_insert_eq.
    + rewrite decide_False by congruence. by rewrite list_lookup_insert_ne.
  - rewrite decide_False by congruence. by rewrite list_lookup_insert_ne.
Qed.

Lemma setitem2_same (g : grid) (y x : nat) (v : pyfloat) :
  pix g y x = Some v -> setitem2 g y x v = Ok g.
Proof.
  intros H. apply pix_Some in H as (row & Hy & Hx).
  unfold setitem2. rewrite Hy.
  rewrite decide_True by (eapply lookup_lt_Some; eauto).
  f_equal. rewrite (list_insert_id row x v) by done.
  by apply list_insert_id.
Qed.

Lemma elem_of_row_where (y x0 : nat) (row : list pyfloat) (i : nat * nat) :
  i ∈ row_where y x0 row <->
  exists k q, i = (y, (x0 + k)%nat) /\ row !! k = Some (fin q).
Proof.
  revert x0. induction row as [|v rest IH]; intros x0; simpl.
  - split; [by intros ?%elem_of_nil|]. by intros (k & q & _ & ?).
  - assert (Hrest : i ∈ row_where y (S x0) rest <->
      exists k q, i = (y, (x0 + S k)%nat) /\ rest !! k = Some (fin q)).
    { rewrite IH. split; intros (k & q & -> & H); exists k, q;
        (split; [f_equal; lia|done]). }
    destruct v as [|q0]; simpl.
    + rewrite Hrest. split.
      * intros (k & q & -> & H). by exists (S k), q.
      * intros (k & q & -> & H). destruct k as [|k]; [discriminate|].
        by exists k, q.
    + rewrite elem_of_cons, Hrest. split.
      * intros [->|(k & q & -> & H)].
        -- exists 0%nat, q0. split; [f_equal; lia|done].
        -- by exists (S k), q.
      * intros (k & q & -> & H). destruct k as [|k].
        -- left. f_equal. lia.
        -- right. by exists k, q.
Qed.

Lemma elem_of_where_from (y0 : nat) (m : grid) (i : nat * nat) :
  i ∈ where_from y0 m <->
  exists k x q, i = ((y0 + k)%nat, x) /\ pix m k x = Some (fin q).
Proof.
  revert y0. induction m as [|row rest IH]; intros y0; simpl.
  - split; [by intros ?%elem_of_nil|]. by intros (k & x & q & _ & ?).
  - rewrite elem_of_app, elem_of_row_where, IH. split.
    + intros [(k & q & -> & H)|(k & x & q & -> & H)].
      * exists 0%nat, k, q. split; [f_equal; lia|done].
      * exists (S k), x, q. split; [f_equal; lia|done].
    + intros (k & x & q & -> & H). destruct k as [|k].
      * left. exists x, q. split; [f_equal; lia|done].
      * right. exists k, x, q. split; [f_equal; lia|done].
Qed.

Lemma elem_of_where_notnan (m : grid) (y x : nat) :
  (y, x) ∈ where_notnan m <-> exists q, pix m y x = Some (fin q).
Proof.
  unfold where_notnan. rewrite elem_of_where_from. split.
  - intros (k & x' & q & [= -> ->] & H). eauto.
  - intros (q & H). by exists y, x, q.
Qed.

(** ** Loops over pixels *)

Lemma for_each_ext {S : Type} (f g : nat * nat -> S -> result S)
    (idx : list (nat * nat)) (s : S) :
  (forall i s', i ∈ idx -> f i s' = g i s') ->
  for_each f idx s = for_each g idx s.
Proof.
  revert s. induction idx as [|i rest IH]; intros s H; simpl; [done|].
  rewrite (H i s) by left. destruct (g i s); [|done].
  apply IH. intros j s' Hj. apply H. by right.
Qed.

Lemma store_loop_spec (F : nat * nat -> option pyfloat)
    (idx : list (nat * nat)) (g : grid) :
  (forall y x, (y, x) ∈ idx -> is_Some (F (y, x)) -> is_Some (pix g y x)) ->
  exists g', store_loop F idx g = Ok g' /\ same_shape g' g /\
    forall y x, pix g' y x =
      match F (y, x) with
      | Some v => if decide ((y, x) ∈ idx) then Some v else pix g y x
      | None => pix g y x
      end.
Proof.
  unfold store_loop. revert g.
  induction idx as [|[y0 x0] rest IH]; intros g Hin; cbn [for_each];
    try (unfold store_pixel at 1; cbn [fst snd]).
  - exists g. split; [done|]. split; [apply same_shape_refl|].
    intros y x. destruct (F (y, x)); [|done].
    case_decide as Hn; [by apply elem_of_nil in Hn|done].
  - destruct (F (y0, x0)) as [v0|] eqn:EF.
    + destruct (setitem2_Ok g y0 x0 v0) as [g1 H1].
      { apply Hin; [left|by rewrite EF]. }
      rewrite H1. destruct (IH g1) as (g' & Hrun & Hsh & Hpix).
      { intros y x Hyx HF. eapply same_shape_pix.
        - apply same_shape_sym. eapply setitem2_shape; eauto.
        - apply Hin; [by right|done]. }
      exists g'. split; [done|]. split.
      { eapply same_shape_trans; [done|]. eapply setitem2_shape; eauto. }
      intros y x. rewrite Hpix, (pix_setitem2 _ _ _ _ _ y x H1).
      destruct (F (y, x)) as [v|] eqn:EF'.
      * destruct (decide ((y, x) ∈ rest)) as [Hr|Hr].
        -- rewrite decide_True; [done|by right].
        -- destruct (decide ((y0, x0) = (y, x))) as [E|Hne].
           ++ rewrite decide_True; [congruence|rewrite E; left].
           ++ rewrite decide_False; [done|].
              intros [?|?]%elem_of_cons; congruence.
      * rewrite decide_False; [done|congruence].
    + destruct (IH g) as (g' & Hrun & Hsh & Hpix).
      { intros y x Hyx HF. apply Hin; [by right|done]. }
      exists g'. split; [done|]. split; [done|].
      intros y x. rewrite Hpix. destruct (F (y, x)) as [v|] eqn:EF'; [|done].
      destruct (decide ((y, x) ∈ rest)) as [Hr|Hr].
      * rewrite decide_True; [done|by right].
      * rewrite decide_False; [done|].
        intros [?|?]%elem_of_cons; congruence.
Qed.

Lemma store_loop_same (F : nat * nat -> option pyfloat)
    (idx : list (nat * nat)) (g : grid) :
  (forall y x v, (y, x) ∈ idx -> F (y, x) = Some v -> pix g y x = Some v) ->
  store_loop F idx g = Ok g.
Proof.
  unfold store_loop. induction idx as [|[y0 x0] rest IH]; intros H;
    cbn [for_each]; try (unfold store_pixel at 1; cbn [fst snd]).
  - done.
  - destruct (F (y0, x0)) as [v0|] eqn:EF.
    + rewrite setitem2_same by (apply H; [left|done]).
      apply IH. intros y x v Hyx. apply H. by right.
    + apply IH. intros y x v Hyx. apply H. by right.
Qed.

(** ** Mosaic assembler *)

Lemma add_results_as_store_loop (global_map local_map : grid) :
  ratio_map.__add_results_to_global_map global_map local_map =
  store_loop (fun i => Some (local_value local_map i))
    (where_notnan local_map) global_map.
Proof.
  unfold ratio_map.__add_results_to_global_map, store_loop, store_pixel.
  apply for_each_ext. intros [y x] g Hi.
  apply elem_of_where_notnan in Hi as [q Hq].
  unfold local_value, getitem2. simpl. by rewrite Hq.
Qed.

(** C7: the merge copies every non-NaN pixel of the local map into the
    global map at the same coordinates, a NaN pixel of the local map
    leaves the global value as it was, and merging the same local map a
    second time changes nothing. *)
Theorem add_results_to_global_map_merge (global_map local_map : grid) :
  same_shape global_map local_map ->
  exists merged,
    ratio_map.__add_results_to_global_map global_map local_map = Ok merged /\
    same_shape merged global_map /\
    (forall y x, pix merged y x =
       match pix local_map y x with
       | Some (fin q) => Some (fin q)
       | _ => pix global_map y x
       end) /\
    ratio_map.__add_results_to_global_map merged local_map = Ok merged.
Proof.
  intros Hshape.
  destruct (store_loop_spec (fun i => Some (local_value local_map i))
              (where_notnan local_map) global_map)
    as (merged & Hrun & Hsh & Hpix).
  { intros y x [q Hq]%elem_of_where_notnan _.
    apply (same_shape_pix local_map); [by apply same_shape_sym|by eexists]. }
  assert (Hchar : forall y x, pix merged y x =
       match pix local_map y x with
       | Some (fin q) => Some (fin q)
       | _ => pix global_map y x
       end).
  { intros y x. rewrite Hpix. case_decide as Hin.
    - apply elem_of_where_notnan in Hin as [q Hq].
      unfold local_value. simpl. by rewrite Hq.
    - destruct (pix local_map y x) as [[|q]|] eqn:E; try done.
      exfalso. apply Hin, elem_of_where_notnan. by exists q. }
  exists merged. rewrite !add_results_as_store_loop.
  repeat split; try done.
  apply store_loop_same. intros y x v [q Hq]%elem_of_where_notnan [= <-].
  rewrite Hchar. unfold local_value. simpl. by rewrite Hq.
Qed.

Lemma add_results_to_global_map_merge_witness :
  let g := [[fin 1; nan]; [fin 2; fin 3]] in
  let l := [[nan; fin 7]; [nan; fin 9]] in
  same_shape g l /\
  ratio_map.__add_results_to_global_map g l = Ok [[fin 1; fin 7]; [fin 2; fin 9]].
Proof.
  assert (Hs : same_shape [[fin 1; nan]; [fin 2; fin 3]]
                          [[nan; fin 7]; [nan; fin 9]]).
  { repeat constructor. }
  split; [exact Hs|].
  destruct (add_results_to_global_map_merge _ _ Hs) as (m & Hrun & _).
  rewrite Hrun. vm_compute in Hrun. exact (eq_sym Hrun).
Defined.

(** ** Grid catalog *)

Lemma filter_eligible_nil (dir : listing) :
  (forall entry, entry ∈ dir -> ratio_map.eligible entry = false) ->
  List.filter ratio_map.eligible dir = [].
Proof.
  induction dir as [|e rest IH]; intros H; simpl; [done|].
  rewrite (H e) by left. apply IH. intros e' He'. apply H. by right.
Qed.

Lemma split_nonempty (sep : ascii) (s : string) : split sep s <> [].
Proof.
  destruct s as [|c rest]; simpl; [done|].
  destruct (Ascii.eqb c sep); [done|]. by destruct (split sep rest).
Qed.

Lemma split_app_sep (sep : ascii) (s t : string) :
  split sep (s ++ String sep t)%string = split sep s ++ split sep t.
Proof.
  induction s as [|c rest IH]; simpl.
  - by rewrite Ascii.eqb_refl.
  - destruct (Ascii.eqb c sep); [by rewrite IH|].
    rewrite IH. pose proof (split_nonempty sep rest) as Hne.
    by destruct (split sep rest).
Qed.

(** a regular file whose name ends in [.dat] is eligible: a directory
    without eligible files has no such file *)
Lemma eligible_dat_suffix (stem : string) :
  ratio_map.eligible ((stem ++ ".dat")%string, true) = true.
Proof.
  unfold ratio_map.eligible, last_field. cbn [fst snd andb].
  rewrite (split_app_sep "." stem "dat").
  change (split "." "dat") with ["dat"%string].
  by rewrite last_last.
Qed.

(** C9: in a directory without eligible files the catalog is not built:
    the count list stays empty, the equality check reads its first
    element and raises IndexError, which nothing catches.  The check
    raises on the empty list and only there. *)
Theorem get_colDens_list_from_files_no_files
    (float_of_string : string -> result pyfloat) (dir : listing)
    (grid_path : string) :
  (forall entry, entry ∈ dir -> ratio_map.eligible entry = false) ->
  ratio_map.get_colDens_list_from_files float_of_string dir grid_path
    = ([], Raise IndexError) /\
  ratio_map.__verify_equality_in_list [] = Raise IndexError /\
  forall v rest, exists b,
    ratio_map.__verify_equality_in_list (v :: rest) = Ok b.
Proof.
  intros H. split; [|split].
  - unfold ratio_map.get_colDens_list_from_files.
    by rewrite filter_eligible_nil.
  - done.
  - intros v rest. eexists. reflexivity.
Qed.

Lemma get_colDens_list_from_files_no_files_witness :
  let dir := [("README.txt"%string, true); ("hcn_1-0_1p0.dat"%string, false)] in
  (forall entry, entry ∈ dir -> ratio_map.eligible entry = false) /\
  ratio_map.get_colDens_list_from_files (fun _ => Ok (fin 1)) dir "grid"
    = ([], Raise IndexError).
Proof.
  assert (H : forall entry,
    entry ∈ [("README.txt"%string, true); ("hcn_1-0_1p0.dat"%string, false)] ->
    ratio_map.eligible entry = false).
  { intros entry Hin. repeat (apply elem_of_cons in Hin as [->|Hin]); try done.
    by apply elem_of_nil in Hin. }
  split; [exact H|].
  exact (proj1 (get_colDens_list_from_files_no_files _ _ "grid" H)).
Defined.

(** ** Ratio-curve fitter *)

Section reduce.

Variable better : Q -> Q -> bool.
Hypothesis better_asym : forall a b, better b a = true -> better a b = false.
Hypothesis better_trans : forall a b c,
  better b a = false -> better c b = false -> better c a = false.

(** [a] is at least as good as [b] *)
Let no_worse (a b : Q) : Prop := better b a = false.

Lemma nan_pick_fold_fin (l : list pyfloat) (a : Q) :
  exists m, fold_left (nan_pick better) l (fin a) = fin m /\
    no_worse m a /\
    (fin m = fin a \/ fin m ∈ l) /\
    forall v, fin v ∈ l -> no_worse m v.
Proof.
  revert a. induction l as [|v rest IH]; intros a; simpl.
  - exists a. repeat split.
    + unfold no_worse. destruct (better a a) eqn:E; [|done].
      by rewrite (better_asym _ _ E) in E.
    + by left.
    + by intros v ?%elem_of_nil.
  - destruct v as [|b]; simpl.
    + destruct (IH a) as (m & Hm & Hma & Hin & Hall).
      exists m. repeat split; try done.
      * destruct Hin as [?|?]; [by left|right; by right].
      * intros v [?|?]%elem_of_cons; [done|by apply Hall].
    + destruct (better b a) eqn:E.
      * destruct (IH b) as (m & Hm & Hmb & Hin & Hall).
        exists m. repeat split; try done.
        -- unfold no_worse in *. eapply better_trans; [exact Hmb|].
           by apply better_asym.
        -- right. destruct Hin as [->|?]; [left|by right].
        -- intros v [[= ->]|?]%elem_of_cons; [done|by apply Hall].
      * destruct (IH a) as (m & Hm & Hma & Hin & Hall).
        exists m. repeat split; try done.
        -- destruct Hin as [?|?]; [by left|right; by right].
        -- intros v [[= ->]|?]%elem_of_cons; [|by apply Hall].
           unfold no_worse in *. eapply better_trans; [exact Hma|exact E].
Qed.

Lemma nan_pick_fold_nan (l : list pyfloat) :
  l <> [] ->
  exists r, fold_left (nan_pick better) l nan = r /\ r ∈ l /\
    forall v, fin v ∈ l -> exists m, r = fin m /\ no_worse m v.
Proof.
  induction l as [|v rest IH]; intros Hne; [done|]. simpl.
  destruct v as [|a].
  - destruct rest as [|w rest'].
    + exists nan. simpl. split; [done|]. split; [left|].
      intros v [?|?%elem_of_nil]%elem_of_cons; done.
    + destruct IH as (r & Hr & Hin & Hall); [done|].
      exists r. split; [done|]. split; [by right|].
      intros v [?|?]%elem_of_cons; [done|by apply Hall].
  - destruct (nan_pick_fold_fin rest a) as (m & Hm & Hma & Hin & Hall).
    exists (fin m). split; [done|]. split.
    + destruct Hin as [->|?]; [left|by right].
    + intros v [[= ->]|?]%elem_of_cons; exists m; split; try done.
      by apply Hall.
Qed.

Lemma nan_reduce_spec (l : list pyfloat) :
  l <> [] ->
  exists r, nan_reduce better l = Ok r /\ r ∈ l /\
    forall v, fin v ∈ l -> exists m, r = fin m /\ better v m = false.
Proof.
  intros Hne. destruct (nan_pick_fold_nan l Hne) as (r & Hr & Hin & Hall).
  exists r. split; [|done].
  unfold nan_reduce. destruct l; [done|]. by rewrite Hr.
Qed.

End reduce.

Lemma nanmin_spec (l : list pyfloat) :
  l <> [] ->
  exists r, nanmin l = Ok r /\ r ∈ l /\
    forall v, fin v ∈ l -> exists m, r = fin m /\ m <= v.
Proof.
  intros Hne. destruct (nan_reduce_spec Qlt_bool) with (l := l)
    as (r & Hr & Hin & Hall); try done.
  - intros a b H%Qlt_bool_iff. apply Qlt_bool_false. by apply Qlt_le_weak.
  - intros a b c H1%Qlt_bool_false H2%Qlt_bool_false. apply Qlt_bool_false.
    by apply (Qle_trans _ b).
  - exists r. repeat split; try done.
    intros v Hv. destruct (Hall v Hv) as (m & -> & Hm%Qlt_bool_false). eauto.
Qed.

Lemma nanmax_spec (l : list pyfloat) :
  l <> [] ->
  exists r, nanmax l = Ok r /\ r ∈ l /\
    forall v, fin v ∈ l -> exists m, r = fin m /\ v <= m.
Proof.
  intros Hne.
  destruct (nan_reduce_spec (fun b a => Qlt_bool a b)) with (l := l)
    as (r & Hr & Hin & Hall); try done.
  - intros a b H%Qlt_bool_iff. apply Qlt_bool_false. by apply Qlt_le_weak.
  - intros a b c H1%Qlt_bool_false H2%Qlt_bool_false. apply Qlt_bool_false.
    by apply (Qle_trans _ b).
  - exists r. repeat split; try done.
    intros v Hv. destruct (Hall v Hv) as (m & -> & Hm%Qlt_bool_false). eauto.
Qed.

Lemma inject_Z_of_nat_S (i : nat) :
  inject_Z (Z.of_nat (S i)) == inject_Z (Z.of_nat i) + 1.
Proof. rewrite Nat2Z.inj_succ. unfold Z.succ. by rewrite inject_Z_plus. Qed.

Lemma inject_Z_of_nat_S_nonzero (k : nat) :
  ~ inject_Z (Z.of_nat (S k)) == 0.
Proof.
  unfold Qeq, inject_Z. simpl. lia.
Qed.

Lemma linspace_length (a b : pyfloat) (n : nat) :
  length (linspace a b n) = n.
Proof.
  destruct n as [|[|k]]; simpl; try done.
  rewrite length_app, length_map, length_seq. simpl. lia.
Qed.

Lemma linspace_last (a : pyfloat) (n : nat) :
  (0 < n)%nat ->
  forall b, (n = 1%nat -> a = b) ->
  linspace a b n !! (n - 1)%nat = Some b.
Proof.
  intros Hn b Hab. destruct n as [|[|k]]; [lia| |].
  - simpl. by rewrite Hab.
  - unfold linspace. rewrite lookup_app_r; rewrite length_map, length_seq.
    + by replace (S (S k) - 1 - S k)%nat with 0%nat by lia.
    + lia.
Qed.

Lemma linspace_lookup (a b : pyfloat) (k i : nat) :
  (i < S k)%nat ->
  linspace a b (S (S k)) !! i =
  Some (linspace_entry a
          (Float.div (Float.sub b a) (Float.of_nat (S k))) i).
Proof.
  intros Hi. unfold linspace.
  rewrite lookup_app_l by (rewrite length_map, length_seq; lia).
  change (map ?f ?l) with (f <$> l).
  rewrite list_lookup_fmap, lookup_seq_lt by lia. done.
Qed.

Lemma linspace_step (a b : pyfloat) (n i : nat) (x y : pyfloat) :
  linspace a b n !! i = Some x ->
  linspace a b n !! S i = Some y ->
  Float.same (Float.sub y x)
    (Float.div (Float.sub b a) (Float.of_nat (n - 1))).
Proof.
  intros Hx Hy.
  assert (Hlen : (S i < n)%nat).
  { apply lookup_lt_Some in Hy. by rewrite linspace_length in Hy. }
  destruct n as [|[|k]]; [lia|lia|].
  replace (S (S k) - 1)%nat with (S k) by lia.
  rewrite linspace_lookup in Hx by lia. injection Hx as <-.
  pose proof (inject_Z_of_nat_S_nonzero k) as Hk.
  pose proof (inject_Z_of_nat_S i) as Hi.
  destruct (decide (S i = S k)) as [E|Hne].
  - replace (S i) with (S (S k) - 1)%nat in Hy by lia.
    rewrite (linspace_last a (S (S k))) in Hy; [|lia|lia].
    injection Hy as <-. injection E as ->.
    unfold linspace_entry, Float.of_nat.
    destruct a as [|a], b as [|b]; simpl; try done.
    destruct (Qeq_bool (inject_Z (Z.of_nat (S k))) 0) eqn:E0.
    { by apply Qeq_bool_iff in E0. }
    simpl. rewrite inject_Z_of_nat_S in *. field. done.
  - rewrite linspace_lookup in Hy by lia. injection Hy as <-.
    unfold linspace_entry, Float.of_nat.
    destruct a as [|a], b as [|b]; simpl; try done.
    destruct (Qeq_bool (inject_Z (Z.of_nat (S k))) 0) eqn:E0.
    { by apply Qeq_bool_iff in E0. }
    simpl. rewrite Hi. field. done.
Qed.

Lemma linspace_first (f l : Q) (n : nat) :
  (0 < n)%nat ->
  exists x0, linspace (fin f) (fin l) n !! 0%nat = Some (fin x0) /\ x0 == f.
Proof.
  intros Hn. destruct n as [|[|k]]; [lia| |].
  - exists f. by split.
  - rewrite linspace_lookup by lia.
    unfold linspace_entry, Float.of_nat. simpl.
    destruct (Qeq_bool (inject_Z (Z.of_nat (S k))) 0) eqn:E0.
    { apply Qeq_bool_iff in E0. by apply inject_Z_of_nat_S_nonzero in E0. }
    simpl. eexists. split; [done|]. unfold inject_Z. simpl. ring.
Qed.

Lemma df_at_Ok (df : DataFrame) (column : df_row -> pyfloat) (i : nat)
    (row : df_row) :
  df !! i = Some row -> df_at df column (Z.of_nat i) = Ok (column row).
Proof.
  intros H. unfold df_at.
  destruct (Z.of_nat i <? 0)%Z eqn:E; [apply Z.ltb_lt in E; lia|].
  by rewrite Nat2Z.id, H.
Qed.

Lemma min_max_spec (curve_vals : list pyfloat) :
  curve_vals <> [] ->
  exists min_rat max_rat,
    ratio_map.__get_min_max_from_fitted_ratio_curve curve_vals
      = Ok (min_rat, max_rat) /\
    min_rat ∈ curve_vals /\ max_rat ∈ curve_vals /\
    forall v, fin v ∈ curve_vals ->
      exists lo hi, min_rat = fin lo /\ max_rat = fin hi /\ lo <= v <= hi.
Proof.
  intros Hne.
  destruct (nanmin_spec _ Hne) as (lo & Hlo & Hlo_in & Hlo_all).
  destruct (nanmax_spec _ Hne) as (hi & Hhi & Hhi_in & Hhi_all).
  exists lo, hi. unfold ratio_map.__get_min_max_from_fitted_ratio_curve.
  rewrite Hlo, Hhi. repeat split; try done.
  intros v Hv. destruct (Hlo_all v Hv) as (l & -> & Hl).
  destruct (Hhi_all v Hv) as (h & -> & Hh). by exists l, h.
Qed.

(** C8: for a table with at least one sample, the curve is evaluated on
    an axis of as many points as there are samples, evenly spaced and
    ending at the last sampled density (and starting at the first one
    when both are numbers), and the minimum and the maximum returned are
    values the evaluated curve takes on that axis. *)
Theorem curve_range_attained
    (get_poly_function : Z -> pyfloat -> list pyfloat -> pyfloat)
    (df : DataFrame) (popt : list pyfloat) :
  df <> [] ->
  exists row_first row_last x_curve curve_vals min_rat max_rat,
    df !! 0%nat = Some row_first /\
    df !! (length df - 1)%nat = Some row_last /\
    ratio_map.get_curve_vals get_poly_function df popt
      = Ok (x_curve, curve_vals) /\
    length x_curve = length df /\
    x_curve !! (length df - 1)%nat = Some (nH2 row_last) /\
    (forall f l, nH2 row_first = fin f -> nH2 row_last = fin l ->
       exists x0, x_curve !! 0%nat = Some (fin x0) /\ x0 == f) /\
    (forall i a b, x_curve !! i = Some a -> x_curve !! S i = Some b ->
       Float.same (Float.sub b a)
         (Float.div (Float.sub (nH2 row_last) (nH2 row_first))
                    (Float.of_nat (length df - 1)))) /\
    (forall i, curve_vals !! i =
       (fun x => get_poly_function (Z.of_nat (length popt) - 1)%Z x popt)
         <$> x_curve !! i) /\
    ratio_map.__get_min_max_from_fitted_ratio_curve curve_vals
      = Ok (min_rat, max_rat) /\
    (exists i, curve_vals !! i = Some min_rat) /\
    (exists j, curve_vals !! j = Some max_rat) /\
    (forall k v, curve_vals !! k = Some (fin v) ->
       exists lo hi, min_rat = fin lo /\ max_rat = fin hi /\ lo <= v <= hi).
Proof.
  intros Hne.
  destruct df as [|r0 rest] eqn:Edf; [done|]. rewrite <- Edf in *.
  assert (Hlen : (0 < length df)%nat) by (rewrite Edf; simpl; lia).
  destruct (lookup_lt_is_Some_2 df (length df - 1)) as [rl Hrl]; [lia|].
  assert (H0 : df !! 0%nat = Some r0) by by rewrite Edf.
  set (x_curve := linspace (nH2 r0) (nH2 rl) (length df)).
  set (curve_vals := ratio_map.get_ratio_curve get_poly_function x_curve popt).
  assert (Hxlen : length x_curve = length df) by apply linspace_length.
  assert (Hcne : curve_vals <> []).
  { intros E. apply (f_equal length) in E. unfold curve_vals in E.
    unfold ratio_map.get_ratio_curve in E. rewrite length_map, Hxlen in E.
    simpl in E. lia. }
  destruct (min_max_spec curve_vals Hcne)
    as (min_rat & max_rat & Hmm & Hmin & Hmax & Hbounds).
  exists r0, rl, x_curve, curve_vals, min_rat, max_rat.
  split; [done|]. split; [done|]. split.
  { unfold ratio_map.get_curve_vals.
    rewrite (df_at_Ok df nH2 0 r0 H0 : df_at df nH2 0%Z = _).
    replace (Z.of_nat (length df) - 1)%Z with (Z.of_nat (length df - 1))
      by lia.
    by rewrite (df_at_Ok df nH2 _ rl Hrl). }
  split; [done|]. split.
  { apply linspace_last; [done|]. intros E1. rewrite E1 in Hrl. simpl in Hrl.
    congruence. }
  split.
  { intros f l Hf Hl. unfold x_curve. rewrite Hf, Hl.
    by apply linspace_first. }
  split.
  { intros i a b Ha Hb. by apply (linspace_step _ _ _ i). }
  split.
  { intros i. unfold curve_vals, ratio_map.get_ratio_curve.
    change (map ?f ?l) with (f <$> l). by rewrite list_lookup_fmap. }
  split; [done|]. split.
  { by apply list_elem_of_lookup. }
  split.
  { by apply list_elem_of_lookup. }
  intros k v Hk. apply Hbounds. apply list_elem_of_lookup. eauto.
Qed.

Lemma curve_range_attained_witness :
  let df := [ {| T_ratio := fin 1; nH2 := fin 0; Tkin := fin 10 |};
              {| T_ratio := fin 2; nH2 := fin 3; Tkin := fin 10 |};
              {| T_ratio := fin 5; nH2 := fin 8; Tkin := fin 10 |} ] in
  df <> [] /\
  exists x_curve curve_vals,
    ratio_map.get_curve_vals poly_ref df [fin (1 # 2); fin 1]
      = Ok (x_curve, curve_vals) /\
    length x_curve = 3%nat /\
    exists min_rat max_rat,
      ratio_map.__get_min_max_from_fitted_ratio_curve curve_vals
        = Ok (min_rat, max_rat) /\
      min_rat ∈ curve_vals /\ max_rat ∈ curve_vals.
Proof.
  intros df. assert (Hne : df <> []) by done.
  split; [exact Hne|].
  destruct (curve_range_attained poly_ref df [fin (1 # 2); fin 1] Hne)
    as (r0 & rl & x_curve & curve_vals & min_rat & max_rat & _ & _ & Hrun
        & Hlen & _ & _ & _ & _ & Hmm & Hmin & Hmax & _).
  exists x_curve, curve_vals. split; [exact Hrun|].
  split; [exact Hlen|]. exists min_rat, max_rat.
  split; [exact Hmm|].
  split; apply list_elem_of_lookup; assumption.
Defined.

(** ** Rectangular arrays and broadcasting *)

Lemma rect_row_length (g : grid) (y : nat) (row : list pyfloat) :
  rect g -> g !! y = Some row -> length row = ncols g.
Proof. intros Hr Hy. exact (Forall_lookup_1 _ _ _ _ Hr Hy). Qed.

Lemma pix_is_Some_rect (g : grid) (y x : nat) :
  rect g -> is_Some (pix g y x) <-> (y < nrows g)%nat /\ (x < ncols g)%nat.
Proof.
  intros Hr. unfold pix, nrows. split.
  - destruct (g !! y) as [row|] eqn:Hy; [|by intros [? ?]].
    intros Hx%lookup_lt_is_Some. rewrite <- (rect_row_length g y row) by done.
    split; [|done]. by eapply lookup_lt_Some.
  - intros [Hy Hx]. destruct (lookup_lt_is_Some_2 g y Hy) as [row Hrow].
    rewrite Hrow. apply lookup_lt_is_Some.
    by rewrite (rect_row_length g y row).
Qed.

Lemma same_shape_dims (a b : grid) :
  same_shape a b -> nrows a = nrows b /\ ncols a = ncols b.
Proof.
  unfold same_shape, nrows, ncols. intros H. split.
  - by eapply Forall2_length.
  - destruct H; simpl; done.
Qed.

Lemma same_shape_rect (a b : grid) : same_shape a b -> rect b -> rect a.
Proof.
  intros Hs Hr. unfold rect. apply Forall_lookup_2. intros y row Hy.
  destruct (same_shape_dims a b Hs) as [_ ->].
  destruct (Forall2_lookup_l _ a b y row Hs Hy) as (rb & Hb & ->).
  by apply (rect_row_length b y).
Qed.

Lemma pix_tabulate (r c : nat) (f : nat -> nat -> pyfloat) (y x : nat) :
  pix (tabulate r c f) y x =
  if decide ((y < r)%nat /\ (x < c)%nat) then Some (f y x) else None.
Proof.
  unfold pix, tabulate. change (map ?g ?l) with (g <$> l).
  rewrite list_lookup_fmap. destruct (decide (y < r)%nat) as [Hy|Hy].
  - rewrite lookup_seq_lt by done. simpl.
    change (map ?g ?l) with (g <$> l). rewrite list_lookup_fmap.
    destruct (decide (x < c)%nat) as [Hx|Hx].
    + rewrite lookup_seq_lt by done. simpl. by rewrite decide_True.
    + rewrite lookup_seq_ge by lia. simpl. rewrite decide_False; [done|lia].
  - rewrite lookup_seq_ge by lia. simpl. rewrite decide_False; [done|lia].
Qed.

Lemma same_shape_tabulate (r c : nat) (f : nat -> nat -> pyfloat) (g : grid) :
  rect g -> nrows g = r -> ncols g = c -> same_shape (tabulate r c f) g.
Proof.
  intros Hr Hrows Hcols. unfold same_shape.
  apply Forall2_same_length_lookup. split.
  - unfold tabulate. by rewrite length_map, length_seq.
  - intros i r1 r2 H1 H2. rewrite (rect_row_length g i r2) by done.
    unfold tabulate in H1. change (map ?h ?l) with (h <$> l) in H1.
    apply list_lookup_fmap_Some in H1 as (k & -> & Hk).
    by rewrite length_map, length_seq.
Qed.

Lemma pix_nan_grid (r c y x : nat) :
  pix (nan_grid r c) y x =
  if decide ((y < r)%nat /\ (x < c)%nat) then Some nan else None.
Proof.
  unfold pix, nan_grid. destruct (decide (y < r)%nat) as [Hy|Hy].
  - rewrite lookup_replicate_2 by done.
    destruct (decide (x < c)%nat) as [Hx|Hx].
    + rewrite lookup_replicate_2 by done. by rewrite decide_True.
    + rewrite decide_False by lia. apply lookup_replicate_None. lia.
  - rewrite decide_False by lia.
    by rewrite (proj1 (lookup_replicate_None r _ y)) by lia.
Qed.

Lemma stretched_pix (g : grid) (y x : nat) (v : pyfloat) :
  rect g -> pix g y x = Some v -> stretched g y x = v.
Proof.
  intros Hr Hv. unfold stretched.
  destruct (proj1 (pix_is_Some_rect g y x Hr)) as [Hy Hx]; [by eexists|].
  destruct (nrows g =? 1)%nat eqn:E1, (ncols g =? 1)%nat eqn:E2;
    try apply Nat.eqb_eq in E1; try apply Nat.eqb_eq in E2.
  - replace y with 0%nat in Hv by lia. replace x with 0%nat in Hv by lia.
    by rewrite Hv.
  - replace y with 0%nat in Hv by lia. by rewrite Hv.
  - replace x with 0%nat in Hv by lia. by rewrite Hv.
  - by rewrite Hv.
Qed.

Lemma broadcast_dim_same (n : nat) : broadcast_dim n n = Some n.
Proof. unfold broadcast_dim. by rewrite Nat.eqb_refl. Qed.

Lemma broadcast2_same_shape (op : pyfloat -> pyfloat -> pyfloat) (a b : grid) :
  rect a -> same_shape a b ->
  exists g, broadcast2 op a b = Ok g /\ same_shape g a /\
    forall y x va vb, pix a y x = Some va -> pix b y x = Some vb ->
                      pix g y x = Some (op va vb).
Proof.
  intros Ha Hs. assert (Hb : rect b).
  { eapply same_shape_rect; [by apply same_shape_sym|done]. }
  destruct (same_shape_dims a b Hs) as [Hrows Hcols].
  unfold broadcast2. rewrite <- Hrows, <- Hcols, !broadcast_dim_same.
  eexists. split; [done|]. split; [by apply same_shape_tabulate|].
  intros y x va vb Hva Hvb. rewrite pix_tabulate.
  rewrite decide_True by (apply pix_is_Some_rect; [done|by eexists]).
  by rewrite (stretched_pix a y x va), (stretched_pix b y x vb).
Qed.

Lemma len_row0_Ok (g : grid) : g <> [] -> len_row0 g = Ok (ncols g).
Proof. by destruct g. Qed.

Lemma len_row0_inv (g : grid) (c : nat) : len_row0 g = Ok c -> c = ncols g.
Proof. destruct g; [done|]. by intros [= <-]. Qed.

Lemma elem_of_columns_then_rows (r c y x : nat) :
  (y, x) ∈ columns_then_rows r c <-> (y < r)%nat /\ (x < c)%nat.
Proof.
  unfold columns_then_rows. rewrite list_elem_of_In, in_flat_map. split.
  - intros (x' & Hx' & Hy%list_elem_of_In).
    change (map ?h ?l) with (h <$> l) in Hy.
    apply list_elem_of_fmap in Hy as (y' & [= -> ->] & Hy').
    apply in_seq in Hx'. apply elem_of_seq in Hy'. lia.
  - intros [Hy Hx]. exists x. split; [apply in_seq; lia|].
    apply list_elem_of_In. change (map ?h ?l) with (h <$> l).
    apply list_elem_of_fmap. exists y. split; [done|]. apply elem_of_seq. lia.
Qed.

(** ** Nearest-value matcher *)










(** ** Per-pixel density inverter *)

Lemma store_loop_Ok_spec (F : nat * nat -> option pyfloat)
    (idx : list (nat * nat)) (g g' : grid) :
  store_loop F idx g = Ok g' ->
  same_shape g' g /\
  forall y x, pix g' y x =
    match F (y, x) with
    | Some v => if decide ((y, x) ∈ idx) then Some v else pix g y x
    | None => pix g y x
    end.
Proof.
  unfold store_loop. revert g.
  induction idx as [|[y0 x0] rest IH]; intros g; cbn [for_each].
  - intros [= <-]. split; [apply same_shape_refl|]. intros y x.
    destruct (F (y, x)); [|done].
    case_decide as Hn; [by apply elem_of_nil in Hn|done].
  - destruct (store_pixel F (y0, x0) g) as [g1|] eqn:E1; [|done].
    intros Hrun. destruct (IH g1 Hrun) as [Hsh Hpix].
    unfold store_pixel in E1. cbn [fst snd] in E1.
    destruct (F (y0, x0)) as [v0|] eqn:EF.
    + split.
      { eapply same_shape_trans; [done|]. eapply setitem2_shape; eauto. }
      intros y x. rewrite Hpix, (pix_setitem2 _ _ _ _ _ y x E1).
      destruct (F (y, x)) as [v|] eqn:EF'.
      * destruct (decide ((y, x) ∈ rest)) as [Hr|Hr].
        -- rewrite decide_True; [done|by right].
        -- destruct (decide ((y0, x0) = (y, x))) as [E|Hne].
           ++ rewrite decide_True; [congruence|rewrite E; left].
           ++ rewrite decide_False; [done|].
              intros [?|?]%elem_of_cons; congruence.
      * rewrite decide_False; [done|congruence].
    + injection E1 as <-. split; [done|].
      intros y x. rewrite Hpix. destruct (F (y, x)) as [v|] eqn:EF'; [|done].
      destruct (decide ((y, x) ∈ rest)) as [Hr|Hr].
      * rewrite decide_True; [done|by right].
      * rewrite decide_False; [done|].
        intros [?|?]%elem_of_cons; congruence.
Qed.

Lemma for_each_raise {S : Type} (body : nat * nat -> S -> result S)
    (idx : list (nat * nat)) (i : nat * nat) :
  i ∈ idx ->
  (forall s, exists e, body i s = Raise e) ->
  forall s, exists e, for_each body idx s = Raise e.
Proof.
  intros Hi Hraise. induction idx as [|j rest IH]; intros s.
  - by apply elem_of_nil in Hi.
  - cbn [for_each]. apply elem_of_cons in Hi as [<-|Hi].
    + destruct (Hraise s) as [e ->]. eauto.
    + destruct (body j s); [by apply IH|eauto].
Qed.

Section density.

Variable brentq :
  (pyfloat -> pyfloat) -> pyfloat -> pyfloat -> result pyfloat.
Variable get_poly_function_min_yval :
  Z -> pyfloat -> list pyfloat -> pyfloat -> pyfloat.
Variable self_rat_unc : option grid.
Variable data : grid.
Variables x_beg x_end min_rat max_rat : pyfloat.
Variable popt : list pyfloat.

Let solve := ratio_map.solve brentq get_poly_function_min_yval x_beg x_end popt.
Let body := ratio_map.density_pixel brentq get_poly_function_min_yval
              self_rat_unc data x_beg x_end min_rat max_rat popt.
Let calls_at := pixel_calls self_rat_unc data min_rat max_rat.
Let centre := centre_store brentq get_poly_function_min_yval data x_beg x_end popt.
Let upper := upper_store brentq get_poly_function_min_yval self_rat_unc data
               x_beg x_end max_rat popt.
Let lower := lower_store brentq get_poly_function_min_yval self_rat_unc data
               x_beg x_end min_rat popt.

Lemma density_pixel_Ok (i : nat * nat) (st st' : ratio_map.density_maps) :
  body i st = Ok st' ->
  ratio_map.calls st' = ratio_map.calls st ++ calls_at i /\
  store_pixel centre i (ratio_map.vals st) = Ok (ratio_map.vals st') /\
  store_pixel upper i (ratio_map.vals_err_up st)
    = Ok (ratio_map.vals_err_up st') /\
  store_pixel lower i (ratio_map.vals_err_low st)
    = Ok (ratio_map.vals_err_low st').
Proof.
  destruct i as [y x].
  unfold body, calls_at, centre, upper, lower, ratio_map.density_pixel,
    pixel_calls, centre_store, upper_store, lower_store, store_pixel, root_of,
    getitem2.
  cbn [fst snd]. fold solve.
  destruct (pix data y x) as [d|]; cbn [mbind result_bind]; [|done].
  destruct (solve d) as [n|]; cbn [mbind result_bind]; [|done].
  destruct (setitem2 (ratio_map.vals st) y x n) as [vals'|];
    cbn [mbind result_bind]; [|done].
  destruct self_rat_unc as [unc|].
  2:{ intros [= <-]. by cbn. }
  destruct (pix unc y x) as [u|]; cbn [mbind result_bind]; [|done].
  destruct (Float.lt (Float.add d u) max_rat);
    destruct (Float.gt (Float.sub d u) min_rat);
    cbn [mbind result_bind ratio_map.vals ratio_map.vals_err_up
         ratio_map.vals_err_low ratio_map.calls].
  - destruct (solve (Float.add d u)) as [nu|]; cbn [mbind result_bind];
      [|done].
    destruct (setitem2 (ratio_map.vals_err_up st) y x nu) as [up'|];
      cbn [mbind result_bind ratio_map.vals ratio_map.vals_err_up
           ratio_map.vals_err_low ratio_map.calls]; [|done].
    destruct (solve (Float.sub d u)) as [nl|]; cbn [mbind result_bind];
      [|done].
    destruct (setitem2 (ratio_map.vals_err_low st) y x nl) as [low'|];
      cbn [mbind result_bind]; [|done].
    intros [= <-]. cbn. by rewrite <- !app_assoc.
  - destruct (solve (Float.add d u)) as [nu|]; cbn [mbind result_bind];
      [|done].
    destruct (setitem2 (ratio_map.vals_err_up st) y x nu) as [up'|];
      cbn [mbind result_bind]; [|done].
    intros [= <-]. cbn. by rewrite <- !app_assoc.
  - destruct (solve (Float.sub d u)) as [nl|]; cbn [mbind result_bind];
      [|done].
    destruct (setitem2 (ratio_map.vals_err_low st) y x nl) as [low'|];
      cbn [mbind result_bind]; [|done].
    intros [= <-]. cbn. by rewrite <- !app_assoc.
  - intros [= <-]. by cbn.
Qed.

Lemma density_loop_Ok (idx : list (nat * nat))
    (st st' : ratio_map.density_maps) :
  for_each body idx st = Ok st' ->
  ratio_map.calls st' = ratio_map.calls st ++ flat_map calls_at idx /\
  store_loop centre idx (ratio_map.vals st) = Ok (ratio_map.vals st') /\
  store_loop upper idx (ratio_map.vals_err_up st)
    = Ok (ratio_map.vals_err_up st') /\
  store_loop lower idx (ratio_map.vals_err_low st)
    = Ok (ratio_map.vals_err_low st').
Proof.
  unfold store_loop. revert st.
  induction idx as [|i rest IH]; intros st; cbn [for_each flat_map].
  - intros [= <-]. by rewrite app_nil_r.
  - destruct (body i st) as [st1|] eqn:E1; [|done]. intros Hrun.
    destruct (density_pixel_Ok i st st1 E1) as (Hc & Hv & Hu & Hl).
    destruct (IH st1 Hrun) as (Hc' & Hv' & Hu' & Hl').
    rewrite Hv, Hu, Hl, Hc', Hc. by rewrite <- app_assoc.
Qed.

End density.

Section density_maps.

Variable brentq :
  (pyfloat -> pyfloat) -> pyfloat -> pyfloat -> result pyfloat.
Variable get_poly_function_min_yval :
  Z -> pyfloat -> list pyfloat -> pyfloat -> pyfloat.
Variable self_rat_unc : option grid.
Variable data : grid.
Variables x_beg x_end min_rat max_rat : pyfloat.
Variable popt : list pyfloat.

Let solve := ratio_map.solve brentq get_poly_function_min_yval x_beg x_end popt.
Let calls_at := pixel_calls self_rat_unc data min_rat max_rat.
Let centre := centre_store brentq get_poly_function_min_yval data x_beg x_end popt.
Let upper := upper_store brentq get_poly_function_min_yval self_rat_unc data
               x_beg x_end max_rat popt.
Let lower := lower_store brentq get_poly_function_min_yval self_rat_unc data
               x_beg x_end min_rat popt.
Let run := ratio_map.__calculate_density brentq get_poly_function_min_yval
             self_rat_unc data x_beg x_end min_rat max_rat popt.

(** the pixel of an output map, given what the loop stores in it *)
Let stored (F : nat * nat -> option pyfloat) (y x : nat) (v : pyfloat)
    : pyfloat :=
  match v, F (y, x) with
  | fin _, Some n => n
  | _, _ => nan
  end.

Lemma calculate_density_Ok_spec (maps : ratio_map.density_maps) :
  rect data -> run = Ok maps ->
  ratio_map.calls maps = flat_map calls_at (where_notnan data) /\
  forall y x v, pix data y x = Some v ->
    pix (ratio_map.vals maps) y x = Some (stored centre y x v) /\
    pix (ratio_map.vals_err_up maps) y x = Some (stored upper y x v) /\
    pix (ratio_map.vals_err_low maps) y x = Some (stored lower y x v).
Proof.
  intros Hrect Hrun. unfold run, ratio_map.__calculate_density in Hrun.
  destruct (len_row0 data) as [c|] eqn:Ec; [|discriminate Hrun].
  apply len_row0_inv in Ec as ->.
  cbn [mbind result_bind] in Hrun.
  apply density_loop_Ok in Hrun as (Hc & Hv & Hu & Hl).
  cbn [ratio_map.calls ratio_map.vals ratio_map.vals_err_up
       ratio_map.vals_err_low] in *.
  split; [exact Hc|]. intros y x v Hpix.
  assert (Hblank : pix (nan_grid (length data) (ncols data)) y x = Some nan).
  { rewrite pix_nan_grid, decide_True; [done|].
    apply (pix_is_Some_rect data y x Hrect). by eexists. }
  assert (Hmem : (y, x) ∈ where_notnan data <-> exists q, v = fin q).
  { rewrite elem_of_where_notnan. rewrite Hpix. split.
    - intros [q [= ->]]. eauto.
    - intros [q ->]. eauto. }
  assert (Hone : forall F g',
    store_loop F (where_notnan data) (nan_grid (length data) (ncols data))
      = Ok g' -> pix g' y x = Some (stored F y x v)).
  { intros F g' [_ HF]%store_loop_Ok_spec. rewrite HF, Hblank.
    unfold stored. destruct (F (y, x)) as [n|]; [|by destruct v].
    destruct v as [|q].
    - rewrite decide_False; [done|]. rewrite Hmem. by intros [q ?].
    - rewrite decide_True; [done|]. apply Hmem. eauto. }
  repeat split; by apply Hone.
Qed.

Lemma calls_at_elem (y x y' x' : nat) (s : ratio_map.side) (r : pyfloat) :
  (y', x', s, r) ∈ calls_at (y, x) -> (y', x') = (y, x).
Proof.
  unfold calls_at, pixel_calls. cbn [fst snd].
  destruct (pix data y x) as [d|]; [|by intros ?%elem_of_nil].
  intros [[= -> -> _ _]|H]%elem_of_cons; [done|].
  destruct self_rat_unc as [unc|]; [|by apply elem_of_nil in H].
  destruct (pix unc y x) as [u|]; [|by apply elem_of_nil in H].
  apply elem_of_app in H as [H|H];
    [destruct (Float.lt (Float.add d u) max_rat)
    |destruct (Float.gt (Float.sub d u) min_rat)];
    try (by apply elem_of_nil in H);
    apply list_elem_of_singleton in H; by injection H as -> -> _ _.
Qed.

Lemma calls_elem (maps : ratio_map.density_maps) (y x : nat)
    (s : ratio_map.side) (r : pyfloat) :
  rect data -> run = Ok maps ->
  (y, x, s, r) ∈ ratio_map.calls maps <->
  (exists q, pix data y x = Some (fin q)) /\ (y, x, s, r) ∈ calls_at (y, x).
Proof.
  intros Hrect Hrun.
  destruct (calculate_density_Ok_spec maps Hrect Hrun) as [-> _].
  rewrite list_elem_of_In, in_flat_map. split.
  - intros ([y' x'] & Hi%list_elem_of_In & Hc%list_elem_of_In).
    pose proof (calls_at_elem _ _ _ _ _ _ Hc) as [= -> ->].
    split; [|done]. by apply elem_of_where_notnan.
  - intros [Hq Hc]. exists (y, x).
    split; apply list_elem_of_In; [|done]. by apply elem_of_where_notnan.
Qed.

Lemma density_pixel_raises (y x : nat) (s : ratio_map.side) (r : pyfloat)
    (e : exn) (st : ratio_map.density_maps) :
  (y, x, s, r) ∈ calls_at (y, x) ->
  solve r = Raise e ->
  exists e', ratio_map.density_pixel brentq get_poly_function_min_yval
               self_rat_unc data x_beg x_end min_rat max_rat popt (y, x) st
             = Raise e'.
Proof.
  unfold calls_at, pixel_calls, ratio_map.density_pixel, getitem2.
  cbn [fst snd]. fold solve. intros Hin Hraise.
  destruct (pix data y x) as [d|]; cbn [mbind result_bind];
    [|by apply elem_of_nil in Hin].
  apply elem_of_cons in Hin as [[= _ <-]|Hin].
  { rewrite Hraise. eauto. }
  destruct (solve d) as [n|]; cbn [mbind result_bind]; [|eauto].
  destruct (setitem2 (ratio_map.vals st) y x n) as [vals'|];
    cbn [mbind result_bind]; [|eauto].
  destruct self_rat_unc as [unc|]; [|by apply elem_of_nil in Hin].
  destruct (pix unc y x) as [u|]; cbn [mbind result_bind];
    [|by apply elem_of_nil in Hin].
  apply elem_of_app in Hin as [Hin|Hin].
  - destruct (Float.lt (Float.add d u) max_rat);
      [|by apply elem_of_nil in Hin].
    apply list_elem_of_singleton in Hin. injection Hin as _ <-.
    rewrite Hraise. cbn [mbind result_bind]. eauto.
  - destruct (Float.gt (Float.sub d u) min_rat);
      [|by apply elem_of_nil in Hin].
    apply list_elem_of_singleton in Hin. injection Hin as _ <-.
    destruct (Float.lt (Float.add d u) max_rat); cbn [mbind result_bind].
    + destruct (solve (Float.add d u)) as [nu|]; cbn [mbind result_bind];
        [|eauto].
      destruct (setitem2 _ y x nu) as [up'|]; cbn [mbind result_bind];
        [|eauto].
      rewrite Hraise. cbn [mbind result_bind]. eauto.
    + rewrite Hraise. cbn [mbind result_bind]. eauto.
Qed.

Lemma calculate_density_raises (y x : nat) (q : Q) (s : ratio_map.side)
    (r : pyfloat) (e : exn) :
  pix data y x = Some (fin q) ->
  (y, x, s, r) ∈ calls_at (y, x) ->
  solve r = Raise e ->
  exists e', run = Raise e'.
Proof.
  intros Hpix Hin Hraise. unfold run, ratio_map.__calculate_density.
  destruct (len_row0 data) as [c|] eqn:Ec; cbn [mbind result_bind]; [|eauto].
  apply (for_each_raise _ _ (y, x)).
  - apply elem_of_where_notnan. eauto.
  - intros st. by apply (density_pixel_raises y x s r e).
Qed.

End density_maps.

Lemma pix_map (f : pyfloat -> pyfloat) (g : grid) (y x : nat) :
  pix (map (map f) g) y x = f <$> pix g y x.
Proof.
  unfold pix. change (map (map f) g) with (map f <$> g).
  rewrite list_lookup_fmap. destruct (g !! y) as [row|]; [|done].
  simpl. change (map f row) with (f <$> row). by rewrite list_lookup_fmap.
Qed.

Lemma pix_range_cut (min_rat max_rat : pyfloat) (ratio_copy : grid)
    (y x : nat) (v : pyfloat) :
  pix ratio_copy y x = Some v ->
  pix (ratio_map.__get_ratio_map_copy_range_cut min_rat max_rat ratio_copy) y x
  = Some (if Float.lt v min_rat || Float.gt v max_rat then nan else v).
Proof.
  intros Hv. unfold ratio_map.__get_ratio_map_copy_range_cut.
  rewrite !pix_map, Hv. simpl.
  destruct (Float.lt v min_rat); simpl.
  - by destruct (Float.gt nan max_rat).
  - by destruct (Float.gt v max_rat).
Qed.



(** C2 (as the code has it): a failure of the root-finder is not caught.
    When [brentq] raises on a ratio the loop solves for at a pixel that
    is not NaN (the pixel itself or an attempted perturbation), the whole
    of [__calculate_density] raises and no map is returned.  What keeps
    pixels beyond [min_rat, max_rat] from the root-finder is the range
    cut, which sets them to NaN; a NaN pixel is skipped: no root-find,
    NaN in the three maps. *)
Theorem calculate_density_failure_aborts
    (brentq : (pyfloat -> pyfloat) -> pyfloat -> pyfloat -> result pyfloat)
    (get_poly_function_min_yval :
       Z -> pyfloat -> list pyfloat -> pyfloat -> pyfloat)
    (self_rat_unc : option grid) (data : grid)
    (x_beg x_end min_rat max_rat : pyfloat) (popt : list pyfloat) :
  rect data ->
  (forall y x q s r e,
     pix data y x = Some (fin q) ->
     (y, x, s, r) ∈ pixel_calls self_rat_unc data min_rat max_rat (y, x) ->
     ratio_map.solve brentq get_poly_function_min_yval x_beg x_end popt r
       = Raise e ->
     exists e',
       ratio_map.__calculate_density brentq get_poly_function_min_yval
         self_rat_unc data x_beg x_end min_rat max_rat popt = Raise e') /\
  (forall ratio_copy y x v,
     pix ratio_copy y x = Some v ->
     pix (ratio_map.__get_ratio_map_copy_range_cut min_rat max_rat ratio_copy)
         y x
     = Some (if Float.lt v min_rat || Float.gt v max_rat then nan else v)) /\
  (forall maps y x,
     ratio_map.__calculate_density brentq get_poly_function_min_yval
       self_rat_unc data x_beg x_end min_rat max_rat popt = Ok maps ->
     pix data y x = Some nan ->
     pix (ratio_map.vals maps) y x = Some nan /\
     pix (ratio_map.vals_err_low maps) y x = Some nan /\
     pix (ratio_map.vals_err_up maps) y x = Some nan /\
     forall s r, (y, x, s, r) ∉ ratio_map.calls maps).
Proof.
  intros Hrect. split; [|split].
  - intros y x q s r e. apply calculate_density_raises.
  - intros ratio_copy y x v. apply pix_range_cut.
  - intros maps y x Hrun Hnan.
    destruct (calculate_density_Ok_spec _ _ _ _ _ _ _ _ _ maps Hrect Hrun)
      as [_ Hpix].
    destruct (Hpix y x nan Hnan) as (Hv & Hu & Hl).
    repeat split; try done.
    intros s r Hin.
    apply (calls_elem _ _ _ _ _ _ _ _ _ maps y x s r Hrect Hrun) in Hin
      as [[q Hq] _].
    congruence.
Qed.

Lemma calculate_density_failure_aborts_witness :
  let data := [[fin (-17 # 2); fin (-3)]] in
  let unc := [[fin (-17 # 20); fin (-3 # 10)]] in
  rect data /\
  exists e',
    ratio_map.__calculate_density brentq_ref poly_min_yval_ref (Some unc) data
      (fin 8) (fin 0) (fin (-9)) (fin (-1)) [fin (-1); fin (-1)] = Raise e'.
Proof.
  intros data unc. assert (Hrect : rect data) by (repeat constructor).
  split; [exact Hrect|].
  destruct (calculate_density_failure_aborts brentq_ref poly_min_yval_ref
              (Some unc) data (fin 8) (fin 0) (fin (-9)) (fin (-1))
              [fin (-1); fin (-1)] Hrect) as (Habort & _ & _).
  apply (Habort 0%nat 0%nat (-17 # 2) ratio_map.Upper
           (Float.add (fin (-17 # 2)) (fin (-17 # 20))) ValueError).
  - reflexivity.
  - apply elem_of_cons. right. apply elem_of_cons. left. reflexivity.
  - vm_compute. reflexivity.
Defined.

(** the claim C2 fails: a pixel inside the range of the curve, with the
    negative uncertainty that a negative ratio gets, passes the range
    cut; its upper perturbation lies below [min_rat], the root-finder
    raises ValueError, and the inversion of the whole map is lost *)
Lemma calculate_density_failure_not_caught :
  let data1 := [[fin (-17 # 2); fin (-3)]] in
  let data2 := [[fin 1; fin 1]] in
  let rel_uncs := [PyFloat (fin (3 # 50)); PyFloat (fin (2 # 25))] in
  exists self ratio,
    ratio_map.__init__ sqrt_ref data1 data2 None (Some rel_uncs)
      = ([], Ok self) /\
    ratio_map.astro_image self = Some ratio /\
    ratio_map.__get_ratio_map_copy_range_cut (fin (-9)) (fin (-1)) ratio
      = ratio /\
    (exists n, ratio_map.solve brentq_ref poly_min_yval_ref (fin 8) (fin 0)
                 [fin (-1); fin (-1)] (fin (-3)) = Ok (fin n) /\ n == 2) /\
    ratio_map.__calculate_density brentq_ref poly_min_yval_ref
      (ratio_map.rat_unc self)
      (ratio_map.__get_ratio_map_copy_range_cut (fin (-9)) (fin (-1)) ratio)
      (fin 8) (fin 0) (fin (-9)) (fin (-1)) [fin (-1); fin (-1)]
    = Raise ValueError.
Proof.
  eexists. eexists. split; [vm_compute; reflexivity|].
  split; [reflexivity|]. split; [vm_compute; reflexivity|].
  split; [|vm_compute; reflexivity].
  eexists. split; [vm_compute; reflexivity|reflexivity].
Qed.




(** ** Construction and the uncertainty grid *)

Lemma same_shape_map (f : pyfloat -> pyfloat) (g : grid) :
  same_shape (map (map f) g) g.
Proof.
  unfold same_shape. induction g as [|row rest IH]; simpl; constructor.
  - by rewrite length_map.
  - exact IH.
Qed.








(** C4: what the code does where the claim fails.  The shape test of
    [__verify_input_uncertainty] reads [rel_uncs[0]] twice and never
    [rel_uncs[1]].  A second array of another shape is accepted without
    a message: when it broadcasts, the stored uncertainty grid has not
    the shape of the ratio grid; when it does not, ValueError leaves the
    constructor. *)
Theorem init_second_uncertainty_shape_unchecked (np_sqrt : Q -> Q) :
  (exists self ratio unc,
     ratio_map.__init__ np_sqrt [[fin 2]] [[fin 1]] None
       (Some [PyArray [[fin (1 # 10)]];
              PyArray [[fin (1 # 10); fin (1 # 10)];
                       [fin (1 # 10); fin (1 # 10)]]])
     = ([], Ok self) /\
     ratio_map.astro_image self = Some ratio /\
     ratio_map.rat_unc self = Some unc /\
     shape ratio = (1%nat, 1%nat) /\ shape unc = (2%nat, 2%nat)) /\
  ratio_map.__init__ np_sqrt
    [[fin 2; fin 2]; [fin 2; fin 2]] [[fin 1; fin 1]; [fin 1; fin 1]] None
    (Some [PyArray [[fin (1 # 10); fin (1 # 10)];
                    [fin (1 # 10); fin (1 # 10)]];
           PyArray [[fin (1 # 10); fin (1 # 10); fin (1 # 10)];
                    [fin (1 # 10); fin (1 # 10); fin (1 # 10)];
                    [fin (1 # 10); fin (1 # 10); fin (1 # 10)]]])
  = ([], Raise ValueError).
Proof.
  split.
  - do 3 eexists. split; [vm_compute; reflexivity|].
    split; [reflexivity|]. split; [reflexivity|]. split; reflexivity.
  - vm_compute. reflexivity.
Qed.

Lemma init_division_fails (np_sqrt : Q -> Q) (data1 data2 : grid)
    (hdr : option header_t) (e : exn) (uncs : list pyobj) :
  broadcast2 Float.div data1 data2 = Raise e ->
  let degraded :=
    {| ratio_map.astro_image := None; ratio_map.header := None;
       ratio_map.rat_unc := None |} in
  ratio_map.__init__ np_sqrt data1 data2 hdr None
    = ([ratio_map.msg_no_ratio_map], Ok degraded) /\
  (length uncs <> 2%nat ->
   ratio_map.__init__ np_sqrt data1 data2 hdr (Some uncs)
     = ([ratio_map.msg_no_ratio_map;
         ratio_map.msg_number_of_uncertainties], Ok degraded)) /\
  (forall r0 r1,
     ratio_map.__init__ np_sqrt data1 data2 hdr
       (Some [PyFloat r0; PyFloat r1])
     = ([ratio_map.msg_no_ratio_map], Raise AttributeError)) /\
  (forall a0 a1,
     ratio_map.__init__ np_sqrt data1 data2 hdr
       (Some [PyArray a0; PyArray a1])
     = ([ratio_map.msg_no_ratio_map], Raise AttributeError)).
Proof.
  intros Hdiv degraded. unfold ratio_map.__init__. rewrite Hdiv.
  split; [done|]. split; [|split].
  - intros Hlen. apply Nat.eqb_neq in Hlen. by rewrite Hlen.
  - intros r0 r1. reflexivity.
  - intros a0 a1. reflexivity.
Qed.

(** C5: what the code does where the claim fails.  When the division of
    the two maps raises, the constructor prints its message and goes on
    without a ratio grid; with no uncertainties (or not two of them) it
    returns the degraded instance, but with a pair of floats or a pair
    of arrays it reads [self.astro_image], which was never set, and
    AttributeError leaves the constructor. *)
Theorem init_degraded_then_attribute_error (np_sqrt : Q -> Q) :
  let data1 := [[fin 1; fin 2]] in
  let data2 := [[fin 1; fin 2; fin 3]] in
  ratio_map.__init__ np_sqrt data1 data2 None None
    = ([ratio_map.msg_no_ratio_map],
       Ok {| ratio_map.astro_image := None; ratio_map.header := None;
             ratio_map.rat_unc := None |}) /\
  ratio_map.__init__ np_sqrt data1 data2 None
    (Some [PyFloat (fin (1 # 10)); PyFloat (fin (1 # 10))])
    = ([ratio_map.msg_no_ratio_map], Raise AttributeError) /\
  ratio_map.__init__ np_sqrt data1 data2 None
    (Some [PyArray [[fin (1 # 10); fin (1 # 10)]];
           PyArray [[fin (1 # 10); fin (1 # 10)]]])
    = ([ratio_map.msg_no_ratio_map], Raise AttributeError).
Proof.
  intros data1 data2.
  assert (Hdiv : broadcast2 Float.div data1 data2 = Raise ValueError)
    by reflexivity.
  destruct (init_division_fails np_sqrt data1 data2 None ValueError []
              Hdiv) as (Hnone & _ & Hfloats & Harrays).
  split; [exact Hnone|]. split; [apply Hfloats|apply Harrays].
Qed.

(** * Further properties of the code *)

(** ** The equality check of the catalog *)

Lemma verify_fold (v0 : Z) (l : list Z) (b : bool) :
  fold_left
    (fun verify_bool val =>
       if negb (v0 - val =? 0)%Z then false else verify_bool) l b
  = b && forallb (fun val => (v0 =? val)%Z) l.
Proof.
  revert b. induction l as [|w rest IH]; intros b; simpl.
  - by rewrite andb_true_r.
  - rewrite IH. destruct (v0 =? w)%Z eqn:E.
    + apply Z.eqb_eq in E as ->. rewrite Z.sub_diag. simpl. done.
    + assert (E' : (v0 - w =? 0)%Z = false).
      { apply Z.eqb_neq. apply Z.eqb_neq in E. lia. }
      rewrite E'. simpl. by rewrite andb_false_r.
Qed.

Lemma verify_equality_value (v0 : Z) (rest : list Z) :
  ratio_map.__verify_equality_in_list (v0 :: rest)
  = Ok (forallb (fun val => (v0 =? val)%Z) rest).
Proof.
  unfold ratio_map.__verify_equality_in_list. cbn [lookup list_lookup].
  cbn [mbind result_bind]. rewrite verify_fold. simpl.
  by rewrite Z.eqb_refl.
Qed.

Lemma all_same_cons {A : Type} (v0 : A) (rest : list A) :
  all_same (v0 :: rest) <-> forall w, w ∈ rest -> w = v0.
Proof.
  unfold all_same. split.
  - intros H w [k Hk]%list_elem_of_lookup.
    exact (H (S k) 0%nat w v0 Hk eq_refl).
  - intros H i j v w Hv Hw.
    assert (Hall : forall k u, (v0 :: rest) !! k = Some u -> u = v0).
    { intros [|k] u Hu; [by injection Hu|].
      apply H. apply list_elem_of_lookup. by exists k. }
    rewrite (Hall i v Hv), (Hall j w Hw). done.
Qed.

Lemma forallb_eq_all_same (v0 : Z) (rest : list Z) :
  forallb (fun val => (v0 =? val)%Z) rest = true <-> all_same (v0 :: rest).
Proof.
  rewrite all_same_cons, forallb_forall. split.
  - intros H w Hw%list_elem_of_In. apply H in Hw. apply Z.eqb_eq in Hw. done.
  - intros H w Hw%list_elem_of_In. apply Z.eqb_eq. symmetry. by apply H.
Qed.

(** X1: on a list that is not empty the equality check returns, and its
    answer is True exactly when all the entries are the same. *)
Theorem verify_equality_in_list_all_same (ver_list : list Z) :
  ver_list <> [] ->
  exists b, ratio_map.__verify_equality_in_list ver_list = Ok b /\
            (b = true <-> all_same ver_list).
Proof.
  destruct ver_list as [|v0 rest]; [done|]. intros _.
  exists (forallb (fun val => (v0 =? val)%Z) rest).
  split; [apply verify_equality_value|apply forallb_eq_all_same].
Qed.

Lemma verify_equality_in_list_all_same_witness :
  [2%Z; 2%Z; 3%Z] <> [] /\
  ratio_map.__verify_equality_in_list [2%Z; 2%Z; 3%Z] = Ok false /\
  ~ all_same [2%Z; 2%Z; 3%Z].
Proof.
  assert (Hne : [2%Z; 2%Z; 3%Z] <> []) by done.
  split; [exact Hne|].
  destruct (verify_equality_in_list_all_same _ Hne) as (b & Hb & Hiff).
  assert (E : b = false) by (vm_compute in Hb; congruence).
  subst b. split; [exact Hb|]. intros H. apply Hiff in H. discriminate H.
Defined.

(** ** The catalog of column densities *)

Lemma Float_eq_sym (a b : pyfloat) : Float.eq a b = Float.eq b a.
Proof.
  destruct a as [|x], b as [|y]; simpl; try done.
  destruct (Qeq_bool x y) eqn:E1, (Qeq_bool y x) eqn:E2; try done.
  - apply Qeq_bool_iff in E1. symmetry in E1. apply Qeq_bool_iff in E1.
    congruence.
  - apply Qeq_bool_iff in E2. symmetry in E2. apply Qeq_bool_iff in E2.
    congruence.
Qed.

Lemma Float_eq_trans (a b c : pyfloat) :
  Float.eq a b = true -> Float.eq b c = true -> Float.eq a c = true.
Proof.
  destruct a as [|x], b as [|y], c as [|z]; simpl; try done.
  intros H1%Qeq_bool_iff H2%Qeq_bool_iff. apply Qeq_bool_iff.
  by rewrite H1.
Qed.

Lemma list_contains_false (l : list pyfloat) (v : pyfloat) :
  list_contains l v = false <-> forall a, a ∈ l -> Float.eq a v = false.
Proof.
  unfold list_contains. induction l as [|a rest IH]; simpl.
  - split; [by intros _ a ?%elem_of_nil|done].
  - rewrite orb_false_iff, IH. split.
    + intros [Ha Hrest] b [->|Hb]%elem_of_cons; auto.
    + intros H. split; [apply H; left|]. intros b Hb. apply H. by right.
Qed.

Lemma dict_set_fresh {V : Type} (d : float_dict V) (k : pyfloat) (v : V) :
  list_contains (map fst d) k = false -> dict_set d k v = d ++ [(k, v)].
Proof.
  unfold list_contains. induction d as [|[k' v'] rest IH]; simpl; [done|].
  intros [H1 H2]%orb_false_iff. rewrite H1. by rewrite IH.
Qed.

Lemma dict_found {V : Type} (d : float_dict V) (k : pyfloat) :
  list_contains (map fst d) k = true ->
  exists ind k0 v0,
    list_index (map fst d) k = Ok ind /\ d !! ind = Some (k0, v0) /\
    Float.eq k0 k = true /\ dict_get d k = Ok v0 /\
    forall v, dict_set d k v = <[ind := (k0, v)]> d.
Proof.
  unfold list_contains. induction d as [|[k' v'] rest IH]; simpl; [done|].
  destruct (Float.eq k' k) eqn:E.
  - intros _. exists 0%nat, k', v'. by repeat split.
  - simpl. intros H. destruct (IH H) as (ind & k0 & v0 & Hi & Hd & Hk & Hg & Hs).
    exists (S ind), k0, v0. rewrite Hi. repeat split; try done.
    intros v. simpl. by rewrite Hs.
Qed.

Lemma concat_insert_snoc {V : Type} (d : list (pyfloat * list V)) (ind : nat)
    (k0 : pyfloat) (v0 : list V) (p : V) :
  d !! ind = Some (k0, v0) ->
  concat (map snd (<[ind := (k0, v0 ++ [p])]> d)) ≡ₚ
  concat (map snd d) ++ [p].
Proof.
  revert ind. induction d as [|[k v] rest IH]; intros [|ind]; simpl; try done.
  - intros [= -> ->]. rewrite <- !app_assoc.
    apply Permutation_app_head. apply Permutation_app_comm.
  - intros H. rewrite (IH ind H). by rewrite app_assoc.
Qed.

Ltac to_fmap := repeat change (map ?h ?l) with (h <$> l) in *.

Lemma Float_eq_same (a b : pyfloat) : Float.eq a b = true -> Float.same a b.
Proof.
  destruct a as [|x], b as [|y]; simpl; try done. apply Qeq_bool_iff.
Qed.

Lemma Float_same_refl (a : pyfloat) : Float.same a a.
Proof. destruct a; simpl; [done|reflexivity]. Qed.

Section catalog.

Variable float_of_string : string -> result pyfloat.
Variable grid_path : string.

(** what the loop over the files keeps true: the keys of the dictionary
    are the column densities found, in order and each once; each count
    is the size of its bucket; the buckets hold the paths of the files
    read so far, each under the column density of its name *)
Let catalog_inv (st : ratio_map.catalog) (files : list string) : Prop :=
  map fst (ratio_map.file_names st) = ratio_map.return_list st /\
  map (fun p : pyfloat * list string => Z.of_nat (length p.2))
      (ratio_map.file_names st) = ratio_map.count_list st /\
  distinct_floats (ratio_map.return_list st) /\
  concat (map snd (ratio_map.file_names st)) ≡ₚ
    map (path_join grid_path) files /\
  forall k paths p,
    (k, paths) ∈ ratio_map.file_names st -> p ∈ paths ->
    exists f c, f ∈ files /\ p = path_join grid_path f /\
                float_of_string (colDens_token f) = Ok c /\
                Float.same k c.

Lemma catalog_file_step (st : ratio_map.catalog) (files : list string)
    (f : string) (c : pyfloat) :
  catalog_inv st files ->
  float_of_string (colDens_token f) = Ok c ->
  exists st', ratio_map.catalog_file float_of_string grid_path st f = Ok st' /\
              catalog_inv st' (files ++ [f]).
Proof.
  intros (Hkeys & Hcounts & Hdist & Hperm & Hbuckets) Hc.
  unfold ratio_map.catalog_file. fold (colDens_token f). rewrite Hc.
  cbn [mbind result_bind].
  destruct (list_contains (ratio_map.return_list st) c) eqn:Ein;
    cbn [negb].
  - rewrite <- Hkeys in Ein |- *.
    destruct (dict_found _ _ Ein) as (ind & k0 & v0 & -> & Hd & Hk & -> & Hset).
    cbn [mbind result_bind]. unfold increment_at.
    assert (Hn : ratio_map.count_list st !! ind
                 = Some (Z.of_nat (length v0))).
    { rewrite <- Hcounts. change (map ?h ?l) with (h <$> l).
      by rewrite list_lookup_fmap, Hd. }
    rewrite Hn. cbn [mbind result_bind]. eexists. split; [done|].
    unfold catalog_inv.
    cbn [ratio_map.file_names ratio_map.return_list ratio_map.count_list].
    rewrite Hset. split; [|split; [|split; [|split]]].
    + to_fmap. rewrite list_fmap_insert. simpl.
      apply list_insert_id. by rewrite list_lookup_fmap, Hd.
    + rewrite <- Hcounts. to_fmap.
      rewrite list_fmap_insert. simpl. f_equal.
      rewrite length_app. simpl. lia.
    + by rewrite Hkeys.
    + rewrite (concat_insert_snoc _ _ _ _ _ Hd), Hperm.
      to_fmap. by rewrite fmap_app.
    + intros k paths p [j Hj]%list_elem_of_lookup Hp.
      destruct (decide (ind = j)) as [<-|Hne].
      * rewrite list_lookup_insert_eq in Hj by (by eapply lookup_lt_Some).
        injection Hj as <- <-. apply elem_of_app in Hp as [Hp|Hp].
        -- destruct (Hbuckets k0 v0 p) as (f' & c' & Hf' & ? & ? & ?);
             [apply list_elem_of_lookup; eauto|done|].
           exists f', c'. repeat split; try done. apply elem_of_app. by left.
        -- apply list_elem_of_singleton in Hp as ->. exists f, c.
           repeat split; try done; [apply elem_of_app; right; left|].
           by apply Float_eq_same.
      * rewrite list_lookup_insert_ne in Hj by done.
        destruct (Hbuckets k paths p) as (f' & c' & Hf' & ? & ? & ?);
          [apply list_elem_of_lookup; eauto|done|].
        exists f', c'. repeat split; try done. apply elem_of_app. by left.
  - eexists. split; [done|].
    unfold catalog_inv.
    cbn [ratio_map.file_names ratio_map.return_list ratio_map.count_list].
    rewrite <- Hkeys in Ein. rewrite (dict_set_fresh _ _ _ Ein).
    split; [|split; [|split; [|split]]].
    + rewrite map_app. simpl. by rewrite Hkeys.
    + rewrite map_app. simpl. by rewrite Hcounts.
    + intros i j a b Hij Ha Hb.
      apply lookup_snoc_Some in Hb as [[Hj Hb]|[-> <-]].
      * apply (Hdist i j a b Hij); [|done].
        rewrite lookup_app_l in Ha; [done|lia].
      * rewrite lookup_app_l in Ha by done.
        rewrite Hkeys in Ein. apply (proj1 (list_contains_false _ _) Ein).
        apply list_elem_of_lookup. eauto.
    + rewrite map_app, concat_app. cbn [map concat snd].
      rewrite app_nil_r, Hperm. to_fmap. by rewrite fmap_app.
    + intros k paths p [Hin|Hin]%elem_of_app Hp.
      * destruct (Hbuckets k paths p Hin Hp) as (f' & c' & Hf' & ? & ? & ?).
        exists f', c'. repeat split; try done. apply elem_of_app. by left.
      * apply list_elem_of_singleton in Hin. injection Hin as -> ->.
        apply list_elem_of_singleton in Hp as ->. exists f, c.
        repeat split; try done; [apply elem_of_app; right; left|].
        apply Float_same_refl.
Qed.

Lemma catalog_files_run (files done : list string) (st : ratio_map.catalog) :
  catalog_inv st done ->
  (forall f, f ∈ files -> exists c, float_of_string (colDens_token f) = Ok c) ->
  exists st', ratio_map.catalog_files float_of_string grid_path files st
                = Ok st' /\
              catalog_inv st' (done ++ files).
Proof.
  revert done st. induction files as [|f rest IH]; intros done st Hinv Hparse.
  - exists st. rewrite app_nil_r. by split.
  - destruct (Hparse f) as [c Hc]; [left|].
    destruct (catalog_file_step st done f c Hinv Hc) as (st1 & Hstep & Hinv1).
    cbn [ratio_map.catalog_files]. rewrite Hstep.
    destruct (IH (done ++ [f]) st1 Hinv1) as (st' & Hrun & Hinv').
    { intros f' Hf'. apply Hparse. by right. }
    exists st'. split; [done|]. by rewrite (cons_middle f done rest), app_assoc.
Qed.

Lemma catalog_files_parse_error (pre post : list string) (f : string)
    (e : exn) (done : list string) (st : ratio_map.catalog) :
  catalog_inv st done ->
  (forall f', f' ∈ pre ->
     exists c, float_of_string (colDens_token f') = Ok c) ->
  float_of_string (colDens_token f) = Raise e ->
  ratio_map.catalog_files float_of_string grid_path (pre ++ f :: post) st
    = Raise e.
Proof.
  revert done st. induction pre as [|f0 rest IH]; intros done st Hinv Hparse He.
  - cbn [app ratio_map.catalog_files]. unfold ratio_map.catalog_file.
    fold (colDens_token f). by rewrite He.
  - destruct (Hparse f0) as [c Hc]; [left|].
    destruct (catalog_file_step st done f0 c Hinv Hc) as (st1 & Hstep & Hinv1).
    cbn [app ratio_map.catalog_files]. rewrite Hstep.
    apply (IH (done ++ [f0])); try done.
    intros f' Hf'. apply Hparse. by right.
Qed.

Lemma catalog_inv_empty :
  catalog_inv
    {| ratio_map.return_list := []; ratio_map.file_names := [];
       ratio_map.count_list := [] |} [].
Proof.
  unfold catalog_inv. cbn. split; [done|]. split; [done|].
  split; [|split; [done|]].
  - intros i j a b _ Ha. done.
  - intros k paths p Hin. by apply elem_of_nil in Hin.
Qed.

End catalog.

Lemma all_same_fmap_inj {A B : Type} (f : A -> B) (l : list A) :
  (forall a b, f a = f b -> a = b) -> all_same (map f l) <-> all_same l.
Proof.
  intros Hinj. unfold all_same. to_fmap. split.
  - intros H i j v w Hv Hw. apply Hinj.
    apply (H i j); by rewrite list_lookup_fmap, ?Hv, ?Hw.
  - intros H i j v w Hv Hw.
    apply list_lookup_fmap_Some in Hv as (a & -> & Ha).
    apply list_lookup_fmap_Some in Hw as (b & -> & Hb).
    f_equal. by apply (H i j).
Qed.

(** X2: when there is an eligible file and [float] reads the column
    density of every eligible file name, the catalog is built.  The
    keys of the dictionary are the column densities returned, in the
    same order and no two equal; the buckets together hold the paths of
    the eligible files, each once and joined to [grid_path], each under
    the column density its name gives; and the warning about missing
    files is printed exactly when two buckets differ in size. *)
Theorem get_colDens_list_from_files_catalog
    (float_of_string : string -> result pyfloat) (dir : listing)
    (grid_path : string) :
  let files := map fst (List.filter ratio_map.eligible dir) in
  files <> [] ->
  (forall f, f ∈ files ->
     exists c, float_of_string (colDens_token f) = Ok c) ->
  exists out return_list file_names,
    ratio_map.get_colDens_list_from_files float_of_string dir grid_path
      = (out, Ok (return_list, file_names)) /\
    map fst file_names = return_list /\
    distinct_floats return_list /\
    concat (map snd file_names) ≡ₚ map (path_join grid_path) files /\
    (forall k paths p, (k, paths) ∈ file_names -> p ∈ paths ->
       exists f c, f ∈ files /\ p = path_join grid_path f /\
                   float_of_string (colDens_token f) = Ok c /\
                   Float.same k c) /\
    (out = [] <->
     all_same (map (fun b : pyfloat * list string => length b.2) file_names)) /\
    (out <> [] -> out = [ratio_map.msg_missing_files]).
Proof.
  intros files Hne Hparse.
  destruct (catalog_files_run float_of_string grid_path files [] _
              (catalog_inv_empty float_of_string grid_path) Hparse)
    as (st & Hrun & Hkeys & Hcounts & Hdist & Hperm & Hbuckets).
  cbn [app] in Hperm, Hbuckets.
  assert (Hcne : ratio_map.count_list st <> []).
  { intros E. rewrite <- Hcounts in E. apply (f_equal length) in E.
    rewrite length_map in E.
    apply Permutation_length in Hperm. rewrite length_map in Hperm.
    destruct (ratio_map.file_names st); [|done]. simpl in Hperm.
    destruct files; done. }
  destruct (ratio_map.count_list st) as [|v0 counts] eqn:Ecounts; [done|].
  set (b := forallb (fun val => (v0 =? val)%Z) counts).
  assert (Hb : ratio_map.__verify_equality_in_list (v0 :: counts) = Ok b)
    by apply verify_equality_value.
  assert (Hiff : b = true <-> all_same (v0 :: counts))
    by apply forallb_eq_all_same.
  assert (Hsame : b = true <->
    all_same (map (fun b : pyfloat * list string => length b.2)
                (ratio_map.file_names st))).
  { rewrite Hiff, <- Hcounts.
    rewrite <- (all_same_fmap_inj Z.of_nat) by apply Nat2Z.inj.
    by rewrite map_map. }
  exists (if b then [] else [ratio_map.msg_missing_files]),
    (ratio_map.return_list st), (ratio_map.file_names st).
  split.
  { unfold ratio_map.get_colDens_list_from_files. fold files.
    rewrite Hrun, Ecounts, Hb. by destruct b. }
  repeat split; try done.
  - intros E. apply Hsame. by destruct b.
  - intros H. apply Hsame in H. by rewrite H.
  - by destruct b.
Qed.

Lemma get_colDens_list_from_files_catalog_witness :
  let dir := [("hcn_1-0_1p0.dat"%string, true); ("hcn_3-2_1p0.dat"%string, true);
              ("hcn_1-0_2p5.dat"%string, true); ("notes.txt"%string, true)] in
  let files := map fst (List.filter ratio_map.eligible dir) in
  files <> [] /\
  (forall f, f ∈ files -> exists c, float_ref (colDens_token f) = Ok c) /\
  ratio_map.get_colDens_list_from_files float_ref dir "grid"
  = ([ratio_map.msg_missing_files],
     Ok ([fin 1; fin (5 # 2)],
         [(fin 1, ["grid/hcn_1-0_1p0.dat"%string; "grid/hcn_3-2_1p0.dat"%string]);
          (fin (5 # 2), ["grid/hcn_1-0_2p5.dat"%string])])).
Proof.
  intros dir files.
  assert (Hne : files <> []) by done.
  assert (Hparse : forall f, f ∈ files ->
            exists c, float_ref (colDens_token f) = Ok c).
  { intros f Hf. vm_compute in Hf.
    repeat (apply elem_of_cons in Hf as [->|Hf]; [eexists; reflexivity|]).
    by apply elem_of_nil in Hf. }
  split; [exact Hne|]. split; [exact Hparse|].
  destruct (get_colDens_list_from_files_catalog float_ref dir "grid"
              Hne Hparse) as (out & rl & fn & Hrun & _).
  rewrite Hrun. vm_compute in Hrun. exact (eq_sym Hrun).
Defined.

(** X3: the first eligible file whose name [float] cannot read ends the
    catalog: the exception of [float] leaves the function, nothing is
    printed and the files read before it give no result. *)
Theorem get_colDens_list_from_files_parse_error
    (float_of_string : string -> result pyfloat) (dir : listing)
    (grid_path : string) (pre post : list string) (f : string) (e : exn) :
  map fst (List.filter ratio_map.eligible dir) = pre ++ f :: post ->
  (forall f', f' ∈ pre ->
     exists c, float_of_string (colDens_token f') = Ok c) ->
  float_of_string (colDens_token f) = Raise e ->
  ratio_map.get_colDens_list_from_files float_of_string dir grid_path
    = ([], Raise e).
Proof.
  intros Hfiles Hpre He. unfold ratio_map.get_colDens_list_from_files.
  rewrite Hfiles.
  by rewrite (catalog_files_parse_error float_of_string grid_path pre post f e
                [] _ (catalog_inv_empty float_of_string grid_path) Hpre He).
Qed.

Lemma get_colDens_list_from_files_parse_error_witness :
  let dir := [("hcn_1-0_1p0.dat"%string, true); ("results.dat"%string, true);
              ("hcn_1-0_2p5.dat"%string, true)] in
  map fst (List.filter ratio_map.eligible dir)
    = ["hcn_1-0_1p0.dat"%string] ++ "results.dat"%string
        :: ["hcn_1-0_2p5.dat"%string] /\
  ratio_map.get_colDens_list_from_files float_ref dir "grid"
    = ([], Raise ValueError).
Proof.
  intros dir. split; [reflexivity|].
  apply (get_colDens_list_from_files_parse_error float_ref dir "grid"
           ["hcn_1-0_1p0.dat"%string] ["hcn_1-0_2p5.dat"%string]
           "results.dat" ValueError).
  - reflexivity.
  - intros f' Hf'. apply list_elem_of_singleton in Hf' as ->.
    eexists. reflexivity.
  - reflexivity.
Defined.

(** ** The temperatures of the grid *)

Section temperatures.

Variable float_of_string : string -> result pyfloat.
Variable open_readlines : string -> result (list string).
Variable str_split : string -> list string.

Let parse := Tkin_of_line float_of_string str_split.
Let Tkin_line := ratio_map.Tkin_line float_of_string str_split.
Let Tkin_lines := ratio_map.Tkin_lines float_of_string str_split.
Let Tkin_files :=
  ratio_map.Tkin_files float_of_string open_readlines str_split.

(** the number of lines of a file that opens *)
Let line_count (directory : string) : Z :=
  match open_readlines directory with
  | Ok lines => Z.of_nat (length lines)
  | Raise _ => 0%Z
  end.

Lemma Tkin_line_parse (Tkin_list : list pyfloat) (line : string) :
  Tkin_line Tkin_list line =
  match parse line with
  | Ok t => if list_contains Tkin_list t then Ok Tkin_list
            else Ok (Tkin_list ++ [t])
  | Raise e => Raise e
  end.
Proof.
  unfold Tkin_line, ratio_map.Tkin_line, parse, Tkin_of_line.
  destruct (str_split line !! 0%nat) as [token|]; cbn [mbind result_bind];
    [|done].
  destruct (float_of_string token) as [t|e]; cbn [mbind result_bind]; [|done].
  by destruct (list_contains Tkin_list t).
Qed.

Lemma Tkin_lines_run (lines : list string) (acc : list pyfloat) :
  (forall line, line ∈ lines -> exists t, parse line = Ok t) ->
  distinct_floats acc ->
  exists l, Tkin_lines lines acc = Ok l /\ distinct_floats l /\
    (forall t, t ∈ acc -> t ∈ l) /\
    (forall t, t ∈ l -> t ∈ acc \/ exists line, line ∈ lines /\ parse line = Ok t) /\
    (forall line t, line ∈ lines -> parse line = Ok t ->
       exists t', t' ∈ l /\ Float.same t' t).
Proof.
  revert acc. induction lines as [|line rest IH]; intros acc Hparse Hdist.
  - exists acc. repeat split; try done.
    + intros t Ht. by left.
    + intros line t Hl. by apply elem_of_nil in Hl.
  - destruct (Hparse line) as [t Ht]; [left|].
    unfold Tkin_lines. cbn [ratio_map.Tkin_lines].
    fold Tkin_line Tkin_lines. rewrite Tkin_line_parse, Ht.
    assert (Hrest : forall l', l' ∈ rest -> exists t', parse l' = Ok t').
    { intros l' Hl'. apply Hparse. by right. }
    destruct (list_contains acc t) eqn:Ein.
    + destruct (IH acc Hrest Hdist) as (l & Hrun & Hd & Hacc & Hfrom & Hall).
      exists l. split; [done|]. split; [done|]. split; [done|]. split.
      * intros u Hu. destruct (Hfrom u Hu) as [?|(l' & ? & ?)]; [by left|].
        right. exists l'. split; [by right|done].
      * intros l' u [->|Hl']%elem_of_cons Hu; [|by apply (Hall l')].
        rewrite Ht in Hu. injection Hu as <-.
        unfold list_contains in Ein. apply existsb_exists in Ein
          as (a & Ha%list_elem_of_In & Heq).
        exists a. split; [by apply Hacc|by apply Float_eq_same].
    + destruct (IH (acc ++ [t]) Hrest) as (l & Hrun & Hd & Hacc & Hfrom & Hall).
      { intros i j a b Hij Ha Hb.
        apply lookup_snoc_Some in Hb as [[Hj Hb]|[-> <-]].
        - apply (Hdist i j a b Hij); [|done].
          rewrite lookup_app_l in Ha; [done|lia].
        - rewrite lookup_app_l in Ha by done.
          apply (proj1 (list_contains_false _ _) Ein).
          apply list_elem_of_lookup. eauto. }
      exists l. split; [done|]. split; [done|]. split; [|split].
      * intros u Hu. apply Hacc. apply elem_of_app. by left.
      * intros u Hu. destruct (Hfrom u Hu) as [Hin|(l' & ? & ?)].
        -- apply elem_of_app in Hin as [?|Hin]; [by left|].
           apply list_elem_of_singleton in Hin as ->.
           right. exists line. split; [left|done].
        -- right. exists l'. split; [by right|done].
      * intros l' u [->|Hl']%elem_of_cons Hu; [|by apply (Hall l')].
        rewrite Ht in Hu. injection Hu as <-. exists t. split.
        -- apply Hacc. apply elem_of_app. right. left.
        -- apply Float_same_refl.
Qed.

Lemma Tkin_lines_error (pre post : list string) (line : string) (e : exn)
    (acc : list pyfloat) :
  (forall l, l ∈ pre -> exists t, parse l = Ok t) ->
  parse line = Raise e ->
  Tkin_lines (pre ++ line :: post) acc = Raise e.
Proof.
  revert acc. induction pre as [|l0 rest IH]; intros acc Hpre He;
    unfold Tkin_lines; cbn [app ratio_map.Tkin_lines];
    fold Tkin_line Tkin_lines; rewrite Tkin_line_parse.
  - by rewrite He.
  - destruct (Hpre l0) as [t ->]; [left|].
    destruct (list_contains acc t); apply IH; try done;
      intros l Hl; apply Hpre; by right.
Qed.

Lemma Tkin_files_later (directories : list string) (i : nat)
    (Tkin_list : list pyfloat) (length_files : list Z) :
  (forall d, d ∈ directories -> exists lines, open_readlines d = Ok lines) ->
  Tkin_files (S i) directories Tkin_list length_files
  = Ok (Tkin_list, length_files ++ map line_count directories).
Proof.
  revert i length_files.
  induction directories as [|d rest IH]; intros i length_files Hopen.
  - cbn. by rewrite app_nil_r.
  - unfold Tkin_files. cbn [ratio_map.Tkin_files]. fold Tkin_files.
    destruct (Hopen d) as [lines Hlines]; [left|].
    rewrite Hlines. cbn [mbind result_bind Nat.eqb].
    rewrite IH by (intros d' Hd'; apply Hopen; by right).
    cbn [map]. unfold line_count at 2. rewrite Hlines.
    by rewrite <- app_assoc.
Qed.

Lemma get_Tkin_list_run (file_names_dict : float_dict (list string))
    (d0 : string) (rest : list string) (lines0 : list string) :
  concat (map snd file_names_dict) = d0 :: rest ->
  open_readlines d0 = Ok lines0 ->
  (forall line, line ∈ lines0 -> exists t, parse line = Ok t) ->
  (forall d, d ∈ rest -> exists lines, open_readlines d = Ok lines) ->
  exists Tkin_list,
    Tkin_lines lines0 [] = Ok Tkin_list /\
    ratio_map.get_Tkin_list_from_directories float_of_string open_readlines
      str_split file_names_dict
    = (if forallb (fun val => (Z.of_nat (length lines0) =? val)%Z)
            (map line_count rest)
       then [] else [ratio_map.msg_file_lengths], Ok Tkin_list).
Proof.
  intros Hdirs Hopen0 Hparse Hopen.
  destruct (Tkin_lines_run lines0 [] Hparse) as (l & Hrun & _).
  { intros i j a b _ Ha. done. }
  exists l. split; [done|].
  unfold ratio_map.get_Tkin_list_from_directories. rewrite Hdirs.
  cbn [ratio_map.Tkin_files]. rewrite Hopen0.
  cbn [mbind result_bind Nat.eqb]. fold Tkin_lines. rewrite Hrun.
  cbn [mbind result_bind]. fold Tkin_files.
  rewrite Tkin_files_later by done. cbn [app].
  rewrite verify_equality_value.
  by destruct (forallb _ _).
Qed.

End temperatures.

(** X4: the temperatures come from the first file alone.  When the
    files of the catalog open and every line of the first one has a
    first field that [float] reads, the list returned holds the
    temperatures of those lines, no two equal and none missing; the
    other files are only counted, and the warning about file lengths is
    printed exactly when one of them has another number of lines than
    the first. *)
Theorem get_Tkin_list_from_first_file
    (float_of_string : string -> result pyfloat)
    (open_readlines : string -> result (list string))
    (str_split : string -> list string)
    (file_names_dict : float_dict (list string))
    (d0 : string) (rest lines0 : list string) :
  concat (map snd file_names_dict) = d0 :: rest ->
  open_readlines d0 = Ok lines0 ->
  (forall line, line ∈ lines0 ->
     exists t, Tkin_of_line float_of_string str_split line = Ok t) ->
  (forall d, d ∈ rest -> exists lines, open_readlines d = Ok lines) ->
  exists out Tkin_list,
    ratio_map.get_Tkin_list_from_directories float_of_string open_readlines
      str_split file_names_dict = (out, Ok Tkin_list) /\
    distinct_floats Tkin_list /\
    (forall t, t ∈ Tkin_list ->
       exists line, line ∈ lines0 /\
         Tkin_of_line float_of_string str_split line = Ok t) /\
    (forall line t, line ∈ lines0 ->
       Tkin_of_line float_of_string str_split line = Ok t ->
       exists t', t' ∈ Tkin_list /\ Float.same t' t) /\
    (out = [] <->
     forall d lines, d ∈ rest -> open_readlines d = Ok lines ->
                     length lines = length lines0) /\
    (out <> [] -> out = [ratio_map.msg_file_lengths]).
Proof.
  intros Hdirs Hopen0 Hparse Hopen.
  destruct (get_Tkin_list_run float_of_string open_readlines str_split
              file_names_dict d0 rest lines0 Hdirs Hopen0 Hparse Hopen)
    as (l & Hlines & Hrun).
  destruct (Tkin_lines_run float_of_string str_split lines0 [] Hparse)
    as (l' & Hrun' & Hdist & _ & Hfrom & Hall).
  { intros i j a b _ Ha. done. }
  rewrite Hlines in Hrun'. injection Hrun' as <-.
  eexists. exists l. split; [exact Hrun|]. split; [done|]. split.
  { intros t Ht. destruct (Hfrom t Ht) as [Hnil|?]; [|done].
    by apply elem_of_nil in Hnil. }
  split; [done|].
  match goal with |- context [forallb ?f ?l] => set (b := forallb f l) end.
  assert (Hb : b = true <->
    forall d lines, d ∈ rest -> open_readlines d = Ok lines ->
                    length lines = length lines0).
  { unfold b. rewrite forallb_forall. split.
    - intros H d lines Hd Hl.
      assert (Hin : In (Z.of_nat (length lines))
                (map (fun directory : string =>
                        match open_readlines directory with
                        | Ok lines => Z.of_nat (length lines)
                        | Raise _ => 0%Z
                        end) rest)).
      { apply in_map_iff. exists d. rewrite Hl. split; [done|].
        by apply list_elem_of_In. }
      apply H in Hin. apply Z.eqb_eq in Hin. lia.
    - intros H v (d & <- & Hd%list_elem_of_In)%in_map_iff.
      destruct (Hopen d Hd) as [lines Hl]. rewrite Hl.
      apply Z.eqb_eq. by rewrite (H d lines Hd Hl). }
  split; [|by destruct b].
  split.
  - intros E. apply Hb. by destruct b.
  - intros H. apply Hb in H. by rewrite H.
Qed.

Lemma get_Tkin_list_from_first_file_witness :
  let dict := [(fin 1, ["a.dat"%string; "b.dat"%string])] in
  let open_ref (path : string) : result (list string) :=
    if String.eqb path "a.dat" then Ok ["1.0 x"%string; "2.5 y"%string; "1.0 z"%string]
    else Ok ["no number here"%string] in
  let split_ref (line : string) : list string := [substring 0 3 line] in
  exists out,
    ratio_map.get_Tkin_list_from_directories float_ref open_ref split_ref dict
      = (out, Ok [fin 1; fin (5 # 2)]) /\ out <> [].
Proof.
  intros dict open_ref split_ref.
  destruct (get_Tkin_list_from_first_file float_ref open_ref split_ref dict
              "a.dat" ["b.dat"%string]
              ["1.0 x"%string; "2.5 y"%string; "1.0 z"%string])
    as (out & l & Hrun & _ & _ & _ & Hout & _).
  - reflexivity.
  - reflexivity.
  - intros line Hline.
    repeat (apply elem_of_cons in Hline as [->|Hline]; [eexists; reflexivity|]).
    by apply elem_of_nil in Hline.
  - intros d Hd. apply list_elem_of_singleton in Hd as ->. eexists. reflexivity.
  - exists out. assert (Hl : l = [fin 1; fin (5 # 2)]).
    { vm_compute in Hrun. congruence. }
    subst l. split; [exact Hrun|]. intros E.
    pose proof (proj1 Hout E "b.dat"%string ["no number here"%string]) as E'.
    discriminate E'; [left|reflexivity].
Defined.

(** X5: with no file in the catalog (an empty dictionary, or only empty
    buckets) the list of file lengths stays empty and the equality check
    raises IndexError: no list of temperatures is returned. *)
Theorem get_Tkin_list_no_files
    (float_of_string : string -> result pyfloat)
    (open_readlines : string -> result (list string))
    (str_split : string -> list string)
    (file_names_dict : float_dict (list string)) :
  (forall k paths, (k, paths) ∈ file_names_dict -> paths = []) ->
  ratio_map.get_Tkin_list_from_directories float_of_string open_readlines
    str_split file_names_dict = ([], Raise IndexError).
Proof.
  intros Hempty. unfold ratio_map.get_Tkin_list_from_directories.
  assert (E : concat (map snd file_names_dict) = []).
  { induction file_names_dict as [|[k paths] rest IH]; [done|]. simpl.
    rewrite (Hempty k paths) by left. apply IH.
    intros k' paths' Hin. apply (Hempty k'). by right. }
  by rewrite E.
Qed.

Lemma get_Tkin_list_no_files_witness :
  (forall k paths, (k, paths) ∈ [(fin 1, @nil string)] -> paths = []) /\
  ratio_map.get_Tkin_list_from_directories float_ref (fun _ => Ok [])
    (fun _ => []) [(fin 1, [])] = ([], Raise IndexError).
Proof.
  assert (H : forall k paths, (k, paths) ∈ [(fin 1, @nil string)] -> paths = []).
  { intros k paths Hin. apply list_elem_of_singleton in Hin. congruence. }
  split; [exact H|].
  exact (get_Tkin_list_no_files float_ref (fun _ => Ok []) (fun _ => []) _ H).
Defined.

(** X6: a line of the first file without a field, or whose first field
    [float] cannot read, ends the function with IndexError or with the
    exception of [float]; the lines before it give no result. *)
Theorem get_Tkin_list_bad_line
    (float_of_string : string -> result pyfloat)
    (open_readlines : string -> result (list string))
    (str_split : string -> list string)
    (file_names_dict : float_dict (list string))
    (d0 : string) (rest pre post : list string) (line : string) (e : exn) :
  concat (map snd file_names_dict) = d0 :: rest ->
  open_readlines d0 = Ok (pre ++ line :: post) ->
  (forall l, l ∈ pre ->
     exists t, Tkin_of_line float_of_string str_split l = Ok t) ->
  Tkin_of_line float_of_string str_split line = Raise e ->
  ratio_map.get_Tkin_list_from_directories float_of_string open_readlines
    str_split file_names_dict = ([], Raise e) /\
  (str_split line = [] -> e = IndexError).
Proof.
  intros Hdirs Hopen Hpre He. split.
  - unfold ratio_map.get_Tkin_list_from_directories. rewrite Hdirs.
    cbn [ratio_map.Tkin_files]. rewrite Hopen.
    cbn [mbind result_bind Nat.eqb].
    by rewrite (Tkin_lines_error float_of_string str_split pre post line e
                  [] Hpre He).
  - intros Hsplit. unfold Tkin_of_line in He. rewrite Hsplit in He.
    cbn in He. congruence.
Qed.

Lemma get_Tkin_list_bad_line_witness :
  let dict := [(fin 1, ["a.dat"%string])] in
  let open_ref (path : string) : result (list string) :=
    Ok (["1.0"%string] ++ ""%string :: ["2.5"%string]) in
  let split_ref (line : string) : list string :=
    if String.eqb line "" then [] else [line] in
  ratio_map.get_Tkin_list_from_directories float_ref open_ref split_ref dict
    = ([], Raise IndexError).
Proof.
  intros dict open_ref split_ref.
  apply (get_Tkin_list_bad_line float_ref open_ref split_ref dict
           "a.dat" [] ["1.0"%string] ["2.5"%string] ""%string IndexError).
  - reflexivity.
  - reflexivity.
  - intros l Hl. apply list_elem_of_singleton in Hl as ->.
    eexists. reflexivity.
  - reflexivity.
Defined.

(** ** The order of the two files of a line pair *)

Lemma string_compare_trans (s1 s2 s3 : string) :
  String.compare s1 s2 <> Gt -> String.compare s2 s3 <> Gt ->
  String.compare s1 s3 <> Gt.
Proof.
  revert s2 s3. induction s1 as [|a s1 IH]; intros [|b s2] [|c s3];
    simpl; try done.
  unfold Ascii.compare.
  destruct (N.compare_spec (N_of_ascii a) (N_of_ascii b)) as [Eab|Lab|Gab];
    [| |done];
    destruct (N.compare_spec (N_of_ascii b) (N_of_ascii c)) as [Ebc|Lbc|Gbc];
    try done.
  - rewrite Eab, Ebc, N.compare_refl. apply IH.
  - intros _ _. rewrite Eab. by rewrite (proj2 (N.compare_lt_iff _ _) Lbc).
  - intros _ _. rewrite <- Ebc. by rewrite (proj2 (N.compare_lt_iff _ _) Lab).
  - intros _ _.
    assert (Lac : (N_of_ascii a < N_of_ascii c)%N) by lia.
    by rewrite (proj2 (N.compare_lt_iff _ _) Lac).
Qed.

Lemma str_le_compare (s1 s2 : string) :
  str_le s1 s2 <-> String.compare s1 s2 <> Gt.
Proof. unfold str_le, String.leb. by destruct (String.compare s1 s2). Qed.

Lemma str_le_trans : Transitive str_le.
Proof.
  intros s1 s2 s3. rewrite !str_le_compare. apply string_compare_trans.
Qed.

Lemma str_le_total : Total str_le.
Proof. intros s1 s2. apply String.leb_total. Qed.

Lemma str_le_antisym : AntiSymm (=) str_le.
Proof. intros s1 s2. apply String.leb_antisym. Qed.

Lemma str_ge_trans : Transitive (flip str_le).
Proof. intros s1 s2 s3 H1 H2. exact (str_le_trans _ _ _ H2 H1). Qed.

Lemma str_ge_total : Total (flip str_le).
Proof. intros s1 s2. destruct (str_le_total s1 s2); [by right|by left]. Qed.

Lemma str_ge_antisym : AntiSymm (=) (flip str_le).
Proof. intros s1 s2 H1 H2. exact (str_le_antisym _ _ H2 H1). Qed.

Lemma list_sort_spec (l : list string) :
  list_sort l ≡ₚ l /\ StronglySorted str_le (list_sort l).
Proof.
  split; [apply merge_sort_Permutation|].
  apply (@StronglySorted_merge_sort _ str_le _ str_le_trans str_le_total).
Qed.

Lemma list_sort_reverse_spec (l : list string) :
  list_sort_reverse l ≡ₚ l /\ StronglySorted (flip str_le) (list_sort_reverse l).
Proof.
  split; [apply merge_sort_Permutation|].
  apply (@StronglySorted_merge_sort _ (flip str_le) _ str_ge_trans
           str_ge_total).
Qed.

(** X7: when [int] reads the upper levels of the two lines, the paths
    come back as the same paths in the order of string comparison:
    ascending when the first line is not above the second, descending
    when it is.  Any arrangement of the paths in that order is the one
    returned, so the order in which the paths were listed does not
    matter. *)
Theorem get_sorted_paths_order (int_of_string : string -> result Z)
    (line_1 line_2 : string) (paths : list string) (val_1 val_2 : Z) :
  int_of_string (first_field (split "-" line_1)) = Ok val_1 ->
  int_of_string (first_field (split "-" line_2)) = Ok val_2 ->
  exists sorted,
    ratio_map.__get_sorted_paths int_of_string line_1 line_2 paths
      = Ok sorted /\
    sorted ≡ₚ paths /\
    ((val_1 <= val_2)%Z -> StronglySorted str_le sorted) /\
    ((val_1 > val_2)%Z -> StronglySorted (flip str_le) sorted) /\
    (forall other, other ≡ₚ paths ->
       ((val_1 <= val_2)%Z -> StronglySorted str_le other) ->
       ((val_1 > val_2)%Z -> StronglySorted (flip str_le) other) ->
       other = sorted) /\
    (forall paths', paths' ≡ₚ paths ->
       ratio_map.__get_sorted_paths int_of_string line_1 line_2 paths'
         = Ok sorted).
Proof.
  intros H1 H2.
  assert (Hrun : forall l,
    ratio_map.__get_sorted_paths int_of_string line_1 line_2 l
    = Ok (if (val_1 >? val_2)%Z then list_sort_reverse (list_sort l)
          else list_sort l)).
  { intros l. unfold ratio_map.__get_sorted_paths. rewrite H1, H2.
    cbn [mbind result_bind]. by destruct (val_1 >? val_2)%Z. }
  assert (Hspec : forall l,
    let r := if (val_1 >? val_2)%Z then list_sort_reverse (list_sort l)
             else list_sort l in
    r ≡ₚ l /\
    ((val_1 <= val_2)%Z -> StronglySorted str_le r) /\
    ((val_1 > val_2)%Z -> StronglySorted (flip str_le) r)).
  { intros l. destruct (Z.gtb_spec val_1 val_2) as [Hgt|Hle]; cbn zeta.
    - destruct (list_sort_reverse_spec (list_sort l)) as [Hp Hs].
      split; [by rewrite Hp, (proj1 (list_sort_spec l))|].
      split; [lia|done].
    - destruct (list_sort_spec l) as [Hp Hs]. split; [done|].
      split; [done|lia]. }
  assert (Huniq : forall a b, a ≡ₚ b ->
    ((val_1 <= val_2)%Z -> StronglySorted str_le a) ->
    ((val_1 > val_2)%Z -> StronglySorted (flip str_le) a) ->
    ((val_1 <= val_2)%Z -> StronglySorted str_le b) ->
    ((val_1 > val_2)%Z -> StronglySorted (flip str_le) b) ->
    a = b).
  { intros a b Hab Ha1 Ha2 Hb1 Hb2.
    destruct (Z.le_gt_cases val_1 val_2) as [Hle|Hgt].
    - apply (@StronglySorted_unique _ str_le str_le_antisym); auto.
    - apply (@StronglySorted_unique _ (flip str_le) str_ge_antisym);
        auto with lia. }
  destruct (Hspec paths) as (Hperm & Hasc & Hdesc).
  eexists. split; [apply Hrun|]. split; [done|]. split; [done|].
  split; [done|]. split.
  - intros other Ho Ho1 Ho2. apply Huniq; try done. by rewrite Ho, Hperm.
  - intros paths' Hp'. rewrite Hrun. f_equal.
    destruct (Hspec paths') as (Hperm' & Hasc' & Hdesc').
    apply Huniq; try done. by rewrite Hperm', Hp', Hperm.
Qed.

Lemma get_sorted_paths_order_witness :
  let paths := ["grid/hcn_10-9_1p0.dat"%string; "grid/hcn_9-8_1p0.dat"%string] in
  int_ref (first_field (split "-" "10-9")) = Ok 10%Z /\
  int_ref (first_field (split "-" "9-8")) = Ok 9%Z /\
  ratio_map.__get_sorted_paths int_ref "10-9" "9-8" paths
    = Ok ["grid/hcn_9-8_1p0.dat"%string; "grid/hcn_10-9_1p0.dat"%string] /\
  ratio_map.__get_sorted_paths int_ref "10-9" "9-8" (rev paths)
    = Ok ["grid/hcn_9-8_1p0.dat"%string; "grid/hcn_10-9_1p0.dat"%string].
Proof.
  intros paths.
  assert (H1 : int_ref (first_field (split "-" "10-9")) = Ok 10%Z)
    by reflexivity.
  assert (H2 : int_ref (first_field (split "-" "9-8")) = Ok 9%Z)
    by reflexivity.
  split; [exact H1|]. split; [exact H2|].
  destruct (get_sorted_paths_order int_ref "10-9" "9-8" paths 10 9 H1 H2)
    as (sorted & Hrun & _ & _ & _ & _ & Hany).
  assert (E : sorted = ["grid/hcn_9-8_1p0.dat"%string;
                        "grid/hcn_10-9_1p0.dat"%string]).
  { vm_compute in Hrun. congruence. }
  subst sorted. split; [exact Hrun|].
  apply Hany. symmetry. apply Permutation_rev.
Defined.

(** ** More on the mosaic assembler *)

Lemma grid_ext (a b : grid) :
  same_shape a b -> (forall y x, pix a y x = pix b y x) -> a = b.
Proof.
  intros Hs Hpix. apply list_eq. intros y.
  destruct (a !! y) as [ra|] eqn:Ha.
  - destruct (Forall2_lookup_l _ a b y ra Hs Ha) as (rb & Hb & Hlen).
    rewrite Hb. f_equal. apply list_eq. intros x.
    specialize (Hpix y x). unfold pix in Hpix. by rewrite Ha, Hb in Hpix.
  - symmetry. apply lookup_ge_None. apply lookup_ge_None in Ha.
    by rewrite <- (Forall2_length _ _ _ Hs).
Qed.

Lemma add_results_pix (global_map local_map : grid) :
  covers global_map local_map ->
  exists merged,
    ratio_map.__add_results_to_global_map global_map local_map = Ok merged /\
    same_shape merged global_map /\
    forall y x, pix merged y x =
      match pix local_map y x with
      | Some (fin q) => Some (fin q)
      | _ => pix global_map y x
      end.
Proof.
  intros Hcov. rewrite add_results_as_store_loop.
  destruct (store_loop_spec (fun i => Some (local_value local_map i))
              (where_notnan local_map) global_map)
    as (merged & Hrun & Hsh & Hpix).
  { intros y x [q Hq]%elem_of_where_notnan _. by apply (Hcov y x q). }
  exists merged. split; [done|]. split; [done|].
  intros y x. rewrite Hpix. case_decide as Hin.
  - apply elem_of_where_notnan in Hin as [q Hq].
    unfold local_value. simpl. by rewrite Hq.
  - destruct (pix local_map y x) as [[|q]|] eqn:E; try done.
    exfalso. apply Hin, elem_of_where_notnan. by exists q.
Qed.

Lemma covers_same_shape (a b local_map : grid) :
  same_shape a b -> covers b local_map -> covers a local_map.
Proof.
  intros Hs Hcov y x q Hq. apply (same_shape_pix b); [by apply same_shape_sym|].
  by apply (Hcov y x q).
Qed.

(** X8: merging two local maps one after the other gives, at each
    pixel, the value of the second map where it is a number, else the
    value of the first where it is a number, else the global value: on
    a pixel both maps hold, the map merged last wins. *)
Theorem add_results_twice_last_wins (global_map local_1 local_2 : grid) :
  covers global_map local_1 -> covers global_map local_2 ->
  exists merged_1 merged,
    ratio_map.__add_results_to_global_map global_map local_1 = Ok merged_1 /\
    ratio_map.__add_results_to_global_map merged_1 local_2 = Ok merged /\
    same_shape merged global_map /\
    forall y x, pix merged y x =
      match pix local_2 y x, pix local_1 y x with
      | Some (fin q2), _ => Some (fin q2)
      | _, Some (fin q1) => Some (fin q1)
      | _, _ => pix global_map y x
      end.
Proof.
  intros H1 H2.
  destruct (add_results_pix global_map local_1 H1) as (m1 & Hr1 & Hs1 & Hp1).
  destruct (add_results_pix m1 local_2) as (m & Hr2 & Hs2 & Hp2).
  { by apply (covers_same_shape m1 global_map). }
  exists m1, m. split; [done|]. split; [done|]. split.
  { by eapply same_shape_trans. }
  intros y x. rewrite Hp2, Hp1.
  by destruct (pix local_2 y x) as [[|q2]|], (pix local_1 y x) as [[|q1]|].
Qed.

Lemma add_results_twice_last_wins_witness :
  let g := [[nan; nan; fin 9]] in
  let l1 := [[fin 1; fin 2; nan]] in
  let l2 := [[nan; fin 5; nan]] in
  covers g l1 /\ covers g l2 /\
  exists m1,
    ratio_map.__add_results_to_global_map g l1 = Ok m1 /\
    ratio_map.__add_results_to_global_map m1 l2 = Ok [[fin 1; fin 5; fin 9]].
Proof.
  intros g l1 l2.
  assert (Hcov : forall l, same_shape g l -> covers g l).
  { intros l Hs y x q Hq. apply (same_shape_pix l); [by apply same_shape_sym|].
    by eexists. }
  assert (H1 : covers g l1) by (apply Hcov; repeat constructor).
  assert (H2 : covers g l2) by (apply Hcov; repeat constructor).
  split; [exact H1|]. split; [exact H2|].
  destruct (add_results_twice_last_wins g l1 l2 H1 H2)
    as (m1 & m & Hr1 & Hr2 & _).
  exists m1. split; [exact Hr1|]. rewrite Hr2.
  assert (E1 : m1 = [[fin 1; fin 2; fin 9]]) by (vm_compute in Hr1; congruence).
  subst m1. vm_compute in Hr2. exact (eq_sym Hr2).
Defined.

(** X9: local maps that share no pixel can be merged in either order:
    the global map that results is the same. *)
Theorem add_results_disjoint_commute (global_map local_1 local_2 : grid) :
  covers global_map local_1 -> covers global_map local_2 ->
  disjoint_maps local_1 local_2 ->
  exists merged_1 merged_2 merged,
    ratio_map.__add_results_to_global_map global_map local_1 = Ok merged_1 /\
    ratio_map.__add_results_to_global_map merged_1 local_2 = Ok merged /\
    ratio_map.__add_results_to_global_map global_map local_2 = Ok merged_2 /\
    ratio_map.__add_results_to_global_map merged_2 local_1 = Ok merged.
Proof.
  intros H1 H2 Hdis.
  destruct (add_results_pix global_map local_1 H1) as (m1 & Hr1 & Hs1 & Hp1).
  destruct (add_results_pix m1 local_2) as (m12 & Hr12 & Hs12 & Hp12).
  { by apply (covers_same_shape m1 global_map). }
  destruct (add_results_pix global_map local_2 H2) as (m2 & Hr2 & Hs2 & Hp2).
  destruct (add_results_pix m2 local_1) as (m21 & Hr21 & Hs21 & Hp21).
  { by apply (covers_same_shape m2 global_map). }
  exists m1, m2, m12. split; [done|]. split; [done|]. split; [done|].
  rewrite Hr21. f_equal. apply grid_ext.
  - eapply same_shape_trans; [done|].
    eapply same_shape_trans; [done|].
    apply same_shape_sym. by eapply same_shape_trans.
  - intros y x. rewrite Hp21, Hp12, Hp1, Hp2.
    destruct (pix local_1 y x) as [[|q1]|] eqn:E1,
             (pix local_2 y x) as [[|q2]|] eqn:E2; try done.
    destruct (Hdis y x q1 q2 E1 E2).
Qed.

Lemma add_results_disjoint_commute_witness :
  let g := [[nan; nan; fin 9]] in
  let l1 := [[fin 1; nan; nan]] in
  let l2 := [[nan; fin 5; nan]] in
  covers g l1 /\ covers g l2 /\ disjoint_maps l1 l2 /\
  exists m1 m2,
    ratio_map.__add_results_to_global_map g l1 = Ok m1 /\
    ratio_map.__add_results_to_global_map g l2 = Ok m2 /\
    ratio_map.__add_results_to_global_map m1 l2
    = ratio_map.__add_results_to_global_map m2 l1.
Proof.
  intros g l1 l2.
  assert (Hcov : forall l, same_shape g l -> covers g l).
  { intros l Hs y x q Hq. apply (same_shape_pix l); [by apply same_shape_sym|].
    by eexists. }
  assert (H1 : covers g l1) by (apply Hcov; repeat constructor).
  assert (H2 : covers g l2) by (apply Hcov; repeat constructor).
  assert (Hd : disjoint_maps l1 l2).
  { intros [|y] [|[|[|x]]] q1 q2 Ha Hb; try done;
      vm_compute in Ha; vm_compute in Hb; try done;
      destruct y; done. }
  split; [exact H1|]. split; [exact H2|]. split; [exact Hd|].
  destruct (add_results_disjoint_commute g l1 l2 H1 H2 Hd)
    as (m1 & m2 & m & Hr1 & Hr12 & Hr2 & Hr21).
  exists m1, m2. split; [exact Hr1|]. split; [exact Hr2|].
  by rewrite Hr12, Hr21.
Defined.

Lemma setitem2_raises (g : grid) (y x : nat) (v : pyfloat) (e : exn) :
  setitem2 g y x v = Raise e -> e = IndexError.
Proof.
  unfold setitem2. destruct (g !! y); [|congruence].
  case_decide; congruence.
Qed.

Lemma setitem2_Ok_pix (g g' : grid) (y x : nat) (v : pyfloat) :
  setitem2 g y x v = Ok g' -> is_Some (pix g y x).
Proof.
  intros (row & Hy & Hx & _)%setitem2_inv. unfold pix. rewrite Hy.
  by apply lookup_lt_is_Some.
Qed.

Lemma store_loop_out_of_range (F : nat * nat -> option pyfloat)
    (idx : list (nat * nat)) (g : grid) (y x : nat) (v : pyfloat) :
  (y, x) ∈ idx -> F (y, x) = Some v -> pix g y x = None ->
  store_loop F idx g = Raise IndexError.
Proof.
  unfold store_loop. revert g.
  induction idx as [|[y0 x0] rest IH]; intros g Hin HF Hnone.
  - by apply elem_of_nil in Hin.
  - cbn [for_each]. unfold store_pixel at 1. cbn [fst snd].
    destruct (F (y0, x0)) as [v0|] eqn:E0.
    + destruct (setitem2 g y0 x0 v0) as [g1|e] eqn:Eset.
      * assert (Hne : (y0, x0) <> (y, x)).
        { intros [= -> ->]. apply setitem2_Ok_pix in Eset as [w Hw].
          congruence. }
        apply IH; [|done|].
        -- apply elem_of_cons in Hin as [?|?]; [congruence|done].
        -- rewrite (pix_setitem2 _ _ _ _ _ y x Eset).
           by rewrite decide_False.
      * by rewrite (setitem2_raises _ _ _ _ _ Eset).
    + apply IH; [|done|done].
      apply elem_of_cons in Hin as [?|?]; [congruence|done].
Qed.

(** X10: a local map with a number at a place the global map has no
    pixel for cannot be merged: IndexError is raised. *)
Theorem add_results_outside_global (global_map local_map : grid)
    (y x : nat) (q : Q) :
  pix local_map y x = Some (fin q) -> pix global_map y x = None ->
  ratio_map.__add_results_to_global_map global_map local_map
    = Raise IndexError.
Proof.
  intros Hl Hg. rewrite add_results_as_store_loop.
  apply (store_loop_out_of_range _ _ _ y x (local_value local_map (y, x)));
    try done.
  apply elem_of_where_notnan. eauto.
Qed.

Lemma add_results_outside_global_witness :
  pix [[nan; fin 1]; [nan; fin 7]] 1 1 = Some (fin 7) /\
  pix [[fin 0; fin 0]] 1 1 = None /\
  ratio_map.__add_results_to_global_map [[fin 0; fin 0]]
    [[nan; fin 1]; [nan; fin 7]] = Raise IndexError.
Proof.
  split; [reflexivity|]. split; [reflexivity|].
  exact (add_results_outside_global [[fin 0; fin 0]]
           [[nan; fin 1]; [nan; fin 7]] 1 1 7 eq_refl eq_refl).
Defined.

(** ** The ratio map of one cell of the grid *)

Lemma mask_row_Ok {A : Type} (row : list A) (mask : list bool) (v : A) :
  length row = length mask ->
  exists r : list A, mask_row row mask v = Ok r /\ length r = length row /\
    forall (x : nat) (e : A) (b : bool),
      row !! x = Some e -> mask !! x = Some b ->
      r !! x = Some (if b then v else e).
Proof.
  revert mask. induction row as [|e0 row IH]; intros [|b0 mask] Hlen;
    try done.
  - exists []. by repeat split.
  - destruct (IH mask) as (r & Hrun & Hr & Hx); [by injection Hlen|].
    cbn [mask_row]. rewrite Hrun. cbn [mbind result_bind].
    eexists. split; [done|].
    split; [simpl; by rewrite Hr|].
    intros [|x] e b He Hb.
    + injection He as ->. injection Hb as ->. done.
    + by apply Hx.
Qed.

Lemma mask_assign_Ok {A : Type} (a : list (list A)) (mask : list (list bool))
    (v : A) :
  same_shape2 a mask ->
  exists a', mask_assign a mask v = Ok a' /\ same_shape2 a' a /\
    forall y x e b, at2 a y x = Some e -> at2 mask y x = Some b ->
                    at2 a' y x = Some (if b then v else e).
Proof.
  unfold same_shape2. induction 1 as [|row m a mask Hlen Hrest IH].
  - exists []. split; [done|]. split; [constructor|]. by intros y x e b.
  - destruct (mask_row_Ok row m v Hlen) as (r & Hr & Hrl & Hrx).
    destruct IH as (a' & Ha' & Hsh & Hpix).
    cbn [mask_assign]. rewrite Hr. cbn [mbind result_bind]. rewrite Ha'.
    cbn [mbind result_bind]. eexists. split; [done|]. split.
    + by constructor.
    + intros [|y] x e b; unfold at2; simpl; [apply Hrx|apply Hpix].
Qed.

Lemma same_shape2_map {A B C : Type} (f : A -> B) (a : list (list A))
    (b : list (list C)) :
  same_shape2 a b -> same_shape2 (map (map f) a) b.
Proof.
  unfold same_shape2. induction 1; simpl; constructor; [|done].
  by rewrite length_map.
Qed.

Lemma same_shape2_sym {A B : Type} (a : list (list A)) (b : list (list B)) :
  same_shape2 a b -> same_shape2 b a.
Proof. unfold same_shape2. induction 1; constructor; auto. Qed.

Lemma same_shape2_trans {A B C : Type} (a : list (list A))
    (b : list (list B)) (c : list (list C)) :
  same_shape2 a b -> same_shape2 b c -> same_shape2 a c.
Proof.
  unfold same_shape2. intros H. revert c.
  induction H; intros c Hc; inversion Hc; subst; constructor; eauto;
    congruence.
Qed.

Lemma same_shape2_at2 {A B : Type} (a : list (list A)) (b : list (list B))
    (y x : nat) :
  same_shape2 a b -> is_Some (at2 a y x) -> is_Some (at2 b y x).
Proof.
  unfold same_shape2, at2. intros H [v Hv].
  destruct (a !! y) as [ra|] eqn:Ha; [|done].
  destruct (Forall2_lookup_l _ a b y ra H Ha) as (rb & -> & Hlen).
  apply lookup_lt_is_Some. rewrite <- Hlen. by eapply lookup_lt_Some.
Qed.

Lemma at2_map {A B : Type} (f : A -> B) (a : list (list A)) (y x : nat) :
  at2 (map (map f) a) y x = f <$> at2 a y x.
Proof.
  unfold at2. change (map (map f) a) with (map f <$> a).
  rewrite list_lookup_fmap. destruct (a !! y) as [row|]; [|done].
  simpl. change (map f row) with (f <$> row). by rewrite list_lookup_fmap.
Qed.

Lemma same_shape2_replicate {A : Type} (g : grid) (v : A) :
  rect g -> same_shape2 (replicate (length g) (replicate (ncols g) v)) g.
Proof.
  intros Hr. unfold same_shape2. apply Forall2_same_length_lookup. split.
  - by rewrite length_replicate.
  - intros y r1 r2 [-> _]%lookup_replicate H2.
    rewrite length_replicate. symmetry. by apply (rect_row_length g y).
Qed.

Lemma at2_replicate {A : Type} (r c : nat) (v w : A) (y x : nat) :
  at2 (replicate r (replicate c v)) y x = Some w -> w = v.
Proof.
  unfold at2. destruct (replicate r (replicate c v) !! y) as [row|] eqn:E;
    [|done].
  apply lookup_replicate in E as [-> _]. by intros [-> _]%lookup_replicate.
Qed.

Lemma cell_ratio_copy_spec (self : ratio_map.instance)
    (img colDens_nearest Tkin_nearest : grid) (colDens Tkin : pyfloat) :
  ratio_map.astro_image self = Some img ->
  colDens_nearest <> [] -> rect colDens_nearest ->
  same_shape Tkin_nearest colDens_nearest ->
  same_shape img colDens_nearest ->
  exists copy,
    ratio_map.cell_ratio_copy self colDens_nearest Tkin_nearest colDens Tkin
      = Ok copy /\
    same_shape copy img /\
    forall y x v c t,
      pix img y x = Some v -> pix colDens_nearest y x = Some c ->
      pix Tkin_nearest y x = Some t ->
      pix copy y x
      = Some (if Float.eq c colDens && Float.eq t Tkin then v else nan).
Proof.
  intros Himg Hne Hrect Htn Hshape.
  unfold ratio_map.cell_ratio_copy, ratio_map.get_astro_image.
  rewrite len_row0_Ok by done. cbn [mbind result_bind].
  destruct (mask_assign_Ok
              (replicate (length colDens_nearest)
                 (replicate (ncols colDens_nearest) 0%Z))
              (map (map (fun v => Float.eq v colDens)) colDens_nearest) 1%Z)
    as (mask & -> & Hms & Hmask).
  { apply same_shape2_sym, same_shape2_map, same_shape2_sym.
    by apply same_shape2_replicate. }
  cbn [mbind result_bind].
  assert (Hmask_cn : same_shape2 mask colDens_nearest).
  { eapply same_shape2_trans; [exact Hms|]. by apply same_shape2_replicate. }
  destruct (mask_assign_Ok mask
              (map (map (fun v => negb (Float.eq v Tkin))) Tkin_nearest) 0%Z)
    as (mask_1 & -> & Hms1 & Hmask1).
  { apply same_shape2_sym, same_shape2_map.
    eapply same_shape2_trans; [exact Htn|]. by apply same_shape2_sym. }
  cbn [mbind result_bind]. rewrite Himg. cbn [mbind result_bind].
  assert (Hmask1_cn : same_shape2 mask_1 colDens_nearest).
  { by eapply same_shape2_trans. }
  destruct (mask_assign_Ok img (map (map (fun m => (m =? 0)%Z)) mask_1) nan)
    as (copy & -> & Hcs & Hcopy).
  { apply same_shape2_sym, same_shape2_map.
    eapply same_shape2_trans; [exact Hmask1_cn|].
    by apply same_shape2_sym. }
  exists copy. split; [done|]. split; [exact Hcs|].
  intros y x v c t Hv Hc Ht.
  destruct (same_shape2_at2 colDens_nearest _ y x
              (same_shape2_sym _ _ (same_shape2_replicate colDens_nearest 0%Z
                                      Hrect))) as [z Hz]; [by eexists|].
  pose proof (at2_replicate _ _ _ _ _ _ Hz) as ->.
  assert (Hm : at2 mask y x = Some (if Float.eq c colDens then 1%Z else 0%Z)).
  { apply (Hmask y x 0%Z (Float.eq c colDens) Hz).
    rewrite at2_map.
    change (at2 colDens_nearest y x) with (pix colDens_nearest y x).
    by rewrite Hc. }
  assert (Hm1 : at2 mask_1 y x
                = Some (if negb (Float.eq t Tkin) then 0%Z
                        else if Float.eq c colDens then 1%Z else 0%Z)).
  { apply (Hmask1 y x _ (negb (Float.eq t Tkin)) Hm).
    rewrite at2_map.
    change (at2 Tkin_nearest y x) with (pix Tkin_nearest y x).
    by rewrite Ht. }
  change (pix copy y x) with (at2 copy y x).
  rewrite (Hcopy y x v
             ((if negb (Float.eq t Tkin) then 0 else
               if Float.eq c colDens then 1 else 0) =? 0)%Z Hv).
  - by destruct (Float.eq c colDens), (Float.eq t Tkin).
  - by rewrite at2_map, Hm1.
Qed.

Lemma Float_eq_refl_fin (q : Q) : Float.eq (fin q) (fin q) = true.
Proof. simpl. apply Qeq_bool_iff. reflexivity. Qed.

(** X11: for maps of one shape, the copy of the ratio map made for the
    cell of a column density and a temperature keeps a pixel exactly
    when the nearest column density and the nearest temperature of the
    pixel equal those of the cell, and is NaN elsewhere.  So a pixel
    whose nearest column density or temperature is NaN is kept by no
    cell, and a pixel with numbers for both is kept by the cell of
    these two numbers. *)
Theorem cell_ratio_copy_keeps (self : ratio_map.instance)
    (img colDens_nearest Tkin_nearest : grid) (colDens Tkin : pyfloat) :
  ratio_map.astro_image self = Some img ->
  colDens_nearest <> [] -> rect colDens_nearest ->
  same_shape Tkin_nearest colDens_nearest ->
  same_shape img colDens_nearest ->
  exists copy,
    ratio_map.cell_ratio_copy self colDens_nearest Tkin_nearest colDens Tkin
      = Ok copy /\
    same_shape copy img /\
    forall y x v c t,
      pix img y x = Some v -> pix colDens_nearest y x = Some c ->
      pix Tkin_nearest y x = Some t ->
      pix copy y x
        = Some (if Float.eq c colDens && Float.eq t Tkin then v else nan) /\
      (c = nan \/ t = nan -> pix copy y x = Some nan) /\
      (forall qc qt, c = fin qc -> t = fin qt -> colDens = c -> Tkin = t ->
         pix copy y x = Some v).
Proof.
  intros Himg Hne Hrect Htn Hshape.
  destruct (cell_ratio_copy_spec self img colDens_nearest Tkin_nearest
              colDens Tkin Himg Hne Hrect Htn Hshape)
    as (copy & Hrun & Hcs & Hpix).
  exists copy. split; [done|]. split; [done|].
  intros y x v c t Hv Hc Ht. rewrite (Hpix y x v c t Hv Hc Ht).
  split; [done|]. split.
  - intros [-> | ->]; simpl; [done|]. by rewrite andb_false_r.
  - intros qc qt -> -> -> ->. by rewrite !Float_eq_refl_fin.
Qed.

Lemma cell_ratio_copy_keeps_witness :
  let img := [[fin 7; fin 8]; [fin 9; nan]] in
  let self := ratio_map.Astro_Image__init__ img None in
  let colDens_nearest := [[fin 1; fin 2]; [fin 1; fin 1]] in
  let Tkin_nearest := [[fin 10; fin 10]; [fin 20; nan]] in
  ratio_map.astro_image self = Some img /\
  colDens_nearest <> [] /\ rect colDens_nearest /\
  same_shape Tkin_nearest colDens_nearest /\
  same_shape img colDens_nearest /\
  ratio_map.cell_ratio_copy self colDens_nearest Tkin_nearest (fin 1) (fin 10)
    = Ok [[fin 7; nan]; [nan; nan]].
Proof.
  intros img self colDens_nearest Tkin_nearest.
  assert (H1 : ratio_map.astro_image self = Some img) by reflexivity.
  assert (H2 : colDens_nearest <> []) by done.
  assert (H3 : rect colDens_nearest) by (repeat constructor).
  assert (H4 : same_shape Tkin_nearest colDens_nearest)
    by (repeat constructor).
  assert (H5 : same_shape img colDens_nearest) by (repeat constructor).
  repeat (split; [assumption|]).
  destruct (cell_ratio_copy_keeps self img colDens_nearest Tkin_nearest
              (fin 1) (fin 10) H1 H2 H3 H4 H5) as (copy & Hrun & _).
  rewrite Hrun. vm_compute in Hrun. exact (eq_sym Hrun).
Defined.

(** ** More on the per-pixel inverter *)

Lemma same_shape_nan_grid (data : grid) :
  rect data -> same_shape (nan_grid (length data) (ncols data)) data.
Proof. intros Hr. by apply (same_shape2_replicate data nan). Qed.

Lemma calculate_density_shapes
    (brentq : (pyfloat -> pyfloat) -> pyfloat -> pyfloat -> result pyfloat)
    (get_poly_function_min_yval :
       Z -> pyfloat -> list pyfloat -> pyfloat -> pyfloat)
    (self_rat_unc : option grid) (data : grid)
    (x_beg x_end min_rat max_rat : pyfloat) (popt : list pyfloat)
    (maps : ratio_map.density_maps) :
  rect data ->
  ratio_map.__calculate_density brentq get_poly_function_min_yval
    self_rat_unc data x_beg x_end min_rat max_rat popt = Ok maps ->
  same_shape (ratio_map.vals maps) data /\
  same_shape (ratio_map.vals_err_low maps) data /\
  same_shape (ratio_map.vals_err_up maps) data.
Proof.
  intros Hrect Hrun. unfold ratio_map.__calculate_density in Hrun.
  destruct (len_row0 data) as [c|] eqn:Ec; [|discriminate Hrun].
  apply len_row0_inv in Ec as ->. cbn [mbind result_bind] in Hrun.
  apply density_loop_Ok in Hrun as (_ & Hv & Hu & Hl).
  cbn [ratio_map.vals ratio_map.vals_err_up ratio_map.vals_err_low] in *.
  apply store_loop_Ok_spec in Hv as [Hv _].
  apply store_loop_Ok_spec in Hu as [Hu _].
  apply store_loop_Ok_spec in Hl as [Hl _].
  pose proof (same_shape_nan_grid data Hrect) as Hb.
  repeat split; by eapply same_shape_trans.
Qed.

Lemma flat_map_length_bounds {A B : Type} (f : A -> list B) (l : list A)
    (lo hi : nat) :
  (forall a, a ∈ l -> (lo <= length (f a) <= hi)%nat) ->
  (lo * length l <= length (flat_map f l) <= hi * length l)%nat.
Proof.
  induction l as [|a rest IH]; intros H; simpl; [lia|].
  rewrite length_app. destruct (H a) as [? ?]; [left|].
  destruct IH as [? ?]; [intros b Hb; apply H; by right|]. lia.
Qed.

Lemma pixel_calls_length (self_rat_unc : option grid) (data : grid)
    (min_rat max_rat : pyfloat) (i : nat * nat) :
  i ∈ where_notnan data ->
  (1 <= length (pixel_calls self_rat_unc data min_rat max_rat i) <= 3)%nat /\
  (self_rat_unc = None ->
   length (pixel_calls self_rat_unc data min_rat max_rat i) = 1%nat).
Proof.
  destruct i as [y x]. intros [q Hq]%elem_of_where_notnan.
  unfold pixel_calls. cbn [fst snd]. rewrite Hq.
  destruct self_rat_unc as [unc|]; [|simpl; split; [lia|done]].
  split; [|done]. destruct (pix unc y x) as [u|]; [|simpl; lia].
  destruct (Float.lt _ _), (Float.gt _ _); simpl; lia.
Qed.

(** X12: when [__calculate_density] returns, its three maps have the
    shape of the data, and the root-finder has been called at least once
    and at most three times for each pixel that is not NaN.  Without an
    uncertainty grid it has been called exactly once for each such
    pixel, and both error maps are NaN everywhere. *)
Theorem calculate_density_cost
    (brentq : (pyfloat -> pyfloat) -> pyfloat -> pyfloat -> result pyfloat)
    (get_poly_function_min_yval :
       Z -> pyfloat -> list pyfloat -> pyfloat -> pyfloat)
    (self_rat_unc : option grid) (data : grid)
    (x_beg x_end min_rat max_rat : pyfloat) (popt : list pyfloat)
    (maps : ratio_map.density_maps) :
  rect data ->
  ratio_map.__calculate_density brentq get_poly_function_min_yval
    self_rat_unc data x_beg x_end min_rat max_rat popt = Ok maps ->
  let pixels := length (where_notnan data) in
  same_shape (ratio_map.vals maps) data /\
  same_shape (ratio_map.vals_err_low maps) data /\
  same_shape (ratio_map.vals_err_up maps) data /\
  (pixels <= length (ratio_map.calls maps) <= 3 * pixels)%nat /\
  (self_rat_unc = None ->
   length (ratio_map.calls maps) = pixels /\
   forall y x, is_Some (pix data y x) ->
     pix (ratio_map.vals_err_low maps) y x = Some nan /\
     pix (ratio_map.vals_err_up maps) y x = Some nan).
Proof.
  intros Hrect Hrun pixels.
  destruct (calculate_density_shapes _ _ _ _ _ _ _ _ _ maps Hrect Hrun)
    as (Hs1 & Hs2 & Hs3).
  destruct (calculate_density_Ok_spec _ _ _ _ _ _ _ _ _ maps Hrect Hrun)
    as [Hcalls Hpix].
  split; [done|]. split; [done|]. split; [done|]. split.
  - rewrite Hcalls.
    pose proof (flat_map_length_bounds
                  (pixel_calls self_rat_unc data min_rat max_rat)
                  (where_notnan data) 1 3) as Hb.
    unfold pixels. destruct Hb as [? ?]; [|lia].
    intros i Hi. by apply pixel_calls_length.
  - intros ->. split.
    + rewrite Hcalls.
      pose proof (flat_map_length_bounds
                    (pixel_calls None data min_rat max_rat)
                    (where_notnan data) 1 1) as Hb.
      unfold pixels. destruct Hb as [? ?]; [|lia].
      intros i Hi. destruct (pixel_calls_length None data min_rat max_rat i Hi)
        as [_ Hone]. rewrite Hone by done. lia.
    + intros y x [v Hv]. destruct (Hpix y x v Hv) as (_ & Hup & Hlow).
      rewrite Hup, Hlow. by destruct v.
Qed.

Lemma calculate_density_cost_witness :
  let data := [[fin 2; nan]; [fin 3; fin 4]] in
  exists maps,
    rect data /\
    ratio_map.__calculate_density brentq_ref poly_min_yval_ref None data
      (fin 0) (fin 4) (fin 1) (fin 5) [fin 1; fin 1] = Ok maps /\
    length (ratio_map.calls maps) = 3%nat /\
    pix (ratio_map.vals_err_up maps) 1 1 = Some nan.
Proof.
  intros data.
  assert (Hrect : rect data) by (repeat constructor).
  destruct (ratio_map.__calculate_density brentq_ref poly_min_yval_ref
              None data (fin 0) (fin 4) (fin 1) (fin 5) [fin 1; fin 1])
    as [maps|e] eqn:Hrun; [|vm_compute in Hrun; discriminate Hrun].
  exists maps. split; [exact Hrect|]. split; [reflexivity|].
  destruct (calculate_density_cost brentq_ref poly_min_yval_ref None data
              (fin 0) (fin 4) (fin 1) (fin 5) [fin 1; fin 1] maps Hrect Hrun)
    as (_ & _ & _ & _ & Hnone).
  destruct (Hnone eq_refl) as [Hlen Hnan].
  split; [exact Hlen|]. apply Hnan. by eexists.
Defined.

Lemma where_notnan_all_nan (data : grid) :
  (forall y x v, pix data y x = Some v -> v = nan) -> where_notnan data = [].
Proof.
  intros Hall. destruct (where_notnan data) as [|[y x] rest] eqn:E; [done|].
  assert (Hin : (y, x) ∈ where_notnan data) by (rewrite E; left).
  apply elem_of_where_notnan in Hin as [q Hq].
  by specialize (Hall y x (fin q) Hq).
Qed.

(** X13: a map whose pixels are all NaN is inverted without a call of
    the root-finder, whatever the root-finder and the bracket: the three
    maps returned are NaN everywhere.  A map without rows is refused
    with IndexError. *)
Theorem calculate_density_nothing_to_invert
    (brentq : (pyfloat -> pyfloat) -> pyfloat -> pyfloat -> result pyfloat)
    (get_poly_function_min_yval :
       Z -> pyfloat -> list pyfloat -> pyfloat -> pyfloat)
    (self_rat_unc : option grid) (data : grid)
    (x_beg x_end min_rat max_rat : pyfloat) (popt : list pyfloat) :
  (forall y x v, pix data y x = Some v -> v = nan) ->
  ratio_map.__calculate_density brentq get_poly_function_min_yval
    self_rat_unc data x_beg x_end min_rat max_rat popt
  = match data with
    | [] => Raise IndexError
    | row :: _ =>
        let blank := nan_grid (length data) (length row) in
        Ok {| ratio_map.vals := blank; ratio_map.vals_err_low := blank;
              ratio_map.vals_err_up := blank; ratio_map.calls := [] |}
    end.
Proof.
  intros Hall. unfold ratio_map.__calculate_density.
  rewrite (where_notnan_all_nan data Hall). by destruct data.
Qed.

Lemma calculate_density_nothing_to_invert_witness :
  let data := [[nan; nan]] in
  (forall y x v, pix data y x = Some v -> v = nan) /\
  ratio_map.__calculate_density (fun _ _ _ => Raise ValueError)
    poly_min_yval_ref None data (fin 0) (fin 4) (fin 1) (fin 5) [fin 1; fin 1]
  = Ok {| ratio_map.vals := [[nan; nan]];
          ratio_map.vals_err_low := [[nan; nan]];
          ratio_map.vals_err_up := [[nan; nan]]; ratio_map.calls := [] |}.
Proof.
  intros data.
  assert (Hall : forall y x v, pix data y x = Some v -> v = nan).
  { intros [|y] [|[|x]] v Hv; vm_compute in Hv; try done;
      try congruence; destruct y; done. }
  split; [exact Hall|].
  exact (calculate_density_nothing_to_invert (fun _ _ _ => Raise ValueError)
           poly_min_yval_ref None data (fin 0) (fin 4) (fin 1) (fin 5)
           [fin 1; fin 1] Hall).
Defined.

(** X14: when the uncertainty grid has no pixel where the data has a
    number (a grid of another shape), the inversion returns no maps:
    reading the uncertainty raises IndexError unless a root-find has
    raised before. *)
Theorem calculate_density_uncertainty_out_of_range
    (brentq : (pyfloat -> pyfloat) -> pyfloat -> pyfloat -> result pyfloat)
    (get_poly_function_min_yval :
       Z -> pyfloat -> list pyfloat -> pyfloat -> pyfloat)
    (unc data : grid) (x_beg x_end min_rat max_rat : pyfloat)
    (popt : list pyfloat) (y x : nat) (q : Q) :
  pix data y x = Some (fin q) -> pix unc y x = None ->
  exists e,
    ratio_map.__calculate_density brentq get_poly_function_min_yval
      (Some unc) data x_beg x_end min_rat max_rat popt = Raise e.
Proof.
  intros Hd Hu. unfold ratio_map.__calculate_density.
  destruct (len_row0 data) as [c|] eqn:Ec; cbn [mbind result_bind]; [|eauto].
  apply (for_each_raise _ _ (y, x)).
  - apply elem_of_where_notnan. eauto.
  - intros st. unfold ratio_map.density_pixel, getitem2. rewrite Hd, Hu.
    cbn [mbind result_bind].
    destruct (ratio_map.solve _ _ _ _ _ _) as [n|e]; cbn [mbind result_bind];
      [|eauto].
    destruct (setitem2 _ _ _ _) as [g|e]; cbn [mbind result_bind]; eauto.
Qed.

Lemma calculate_density_uncertainty_out_of_range_witness :
  pix [[fin 2; fin 3]] 0 1 = Some (fin 3) /\ pix [[fin 1]] 0 1 = None /\
  exists e,
    ratio_map.__calculate_density brentq_ref poly_min_yval_ref
      (Some [[fin 1]]) [[fin 2; fin 3]] (fin 0) (fin 4) (fin 1) (fin 5)
      [fin 1; fin 1] = Raise e.
Proof.
  split; [reflexivity|]. split; [reflexivity|].
  exact (calculate_density_uncertainty_out_of_range brentq_ref
           poly_min_yval_ref [[fin 1]] [[fin 2; fin 3]] (fin 0) (fin 4)
           (fin 1) (fin 5) [fin 1; fin 1] 0 1 3 eq_refl eq_refl).
Defined.

(** ** The cells of the grid do not overlap *)

Lemma density_number_from_data
    (brentq : (pyfloat -> pyfloat) -> pyfloat -> pyfloat -> result pyfloat)
    (get_poly_function_min_yval :
       Z -> pyfloat -> list pyfloat -> pyfloat -> pyfloat)
    (self_rat_unc : option grid) (data : grid)
    (x_beg x_end min_rat max_rat : pyfloat) (popt : list pyfloat)
    (maps : ratio_map.density_maps) (y x : nat) (q : Q) :
  rect data ->
  ratio_map.__calculate_density brentq get_poly_function_min_yval
    self_rat_unc data x_beg x_end min_rat max_rat popt = Ok maps ->
  pix (ratio_map.vals maps) y x = Some (fin q) \/
  pix (ratio_map.vals_err_low maps) y x = Some (fin q) \/
  pix (ratio_map.vals_err_up maps) y x = Some (fin q) ->
  exists d, pix data y x = Some (fin d).
Proof.
  intros Hrect Hrun Hq.
  destruct (calculate_density_shapes _ _ _ _ _ _ _ _ _ maps Hrect Hrun)
    as (Hs1 & Hs2 & Hs3).
  destruct (calculate_density_Ok_spec _ _ _ _ _ _ _ _ _ maps Hrect Hrun)
    as [_ Hpix].
  assert (Hd : is_Some (pix data y x)).
  { destruct Hq as [Hq|[Hq|Hq]];
      [apply (same_shape_pix _ _ _ _ Hs1)|apply (same_shape_pix _ _ _ _ Hs2)
      |apply (same_shape_pix _ _ _ _ Hs3)]; by eexists. }
  destruct Hd as [[|d] Hd]; [|eauto].
  destruct (Hpix y x nan Hd) as (Hv & Hu & Hl). cbn in Hv, Hu, Hl.
  destruct Hq as [Hq|[Hq|Hq]]; congruence.
Qed.

Lemma cell_pixel_kept (self : ratio_map.instance)
    (img colDens_nearest Tkin_nearest copy : grid)
    (colDens Tkin min_rat max_rat : pyfloat) (y x : nat) (d : Q) :
  ratio_map.astro_image self = Some img ->
  colDens_nearest <> [] -> rect colDens_nearest ->
  same_shape Tkin_nearest colDens_nearest ->
  same_shape img colDens_nearest ->
  ratio_map.cell_ratio_copy self colDens_nearest Tkin_nearest colDens Tkin
    = Ok copy ->
  pix (ratio_map.__get_ratio_map_copy_range_cut min_rat max_rat copy) y x
    = Some (fin d) ->
  exists c t,
    pix colDens_nearest y x = Some c /\ pix Tkin_nearest y x = Some t /\
    Float.eq c colDens = true /\ Float.eq t Tkin = true /\
    pix img y x = Some (fin d) /\
    Float.lt (fin d) min_rat = false /\ Float.gt (fin d) max_rat = false.
Proof.
  intros Himg Hne Hrect Htn Hshape Hcopy Hd.
  destruct (cell_ratio_copy_spec self img colDens_nearest Tkin_nearest
              colDens Tkin Himg Hne Hrect Htn Hshape)
    as (copy' & Hrun & Hcs & Hpix).
  rewrite Hcopy in Hrun. injection Hrun as <-.
  assert (Hw : is_Some (pix copy y x)).
  { apply (same_shape_pix
             (ratio_map.__get_ratio_map_copy_range_cut min_rat max_rat copy));
      [|by eexists].
    unfold ratio_map.__get_ratio_map_copy_range_cut.
    eapply same_shape_trans; apply same_shape_map. }
  destruct Hw as [w Hw].
  rewrite (pix_range_cut min_rat max_rat copy y x w Hw) in Hd.
  destruct (Float.lt w min_rat) eqn:Elt; [done|].
  destruct (Float.gt w max_rat) eqn:Egt; [done|].
  simpl in Hd. injection Hd as ->.
  destruct (same_shape_pix copy img y x Hcs) as [v Hv]; [by eexists|].
  destruct (same_shape_pix img colDens_nearest y x Hshape) as [c Hc];
    [by eexists|].
  destruct (same_shape_pix colDens_nearest Tkin_nearest y x) as [t Ht];
    [by apply same_shape_sym|by eexists|].
  rewrite (Hpix y x v c t Hv Hc Ht) in Hw.
  exists c, t. split; [done|]. split; [done|].
  destruct (Float.eq c colDens); [|done].
  destruct (Float.eq t Tkin); [|done].
  simpl in Hw. injection Hw as ->. done.
Qed.

(** X15: the density maps computed for two different cells of the grid
    (two pairs of a column density and a temperature that differ in one
    of the two) hold numbers on disjoint sets of pixels, whatever the
    fitted curves of the two cells: no pixel of the global maps is
    written for two cells, and the order of the cells in the loops does
    not matter. *)
Theorem cells_density_maps_disjoint
    (brentq : (pyfloat -> pyfloat) -> pyfloat -> pyfloat -> result pyfloat)
    (get_poly_function_min_yval :
       Z -> pyfloat -> list pyfloat -> pyfloat -> pyfloat)
    (self : ratio_map.instance) (img colDens_nearest Tkin_nearest : grid)
    (colDens_1 Tkin_1 colDens_2 Tkin_2 : pyfloat) (copy_1 copy_2 : grid)
    (x_beg_1 x_end_1 min_rat_1 max_rat_1 : pyfloat) (popt_1 : list pyfloat)
    (x_beg_2 x_end_2 min_rat_2 max_rat_2 : pyfloat) (popt_2 : list pyfloat)
    (maps_1 maps_2 : ratio_map.density_maps) :
  ratio_map.astro_image self = Some img ->
  colDens_nearest <> [] -> rect colDens_nearest ->
  same_shape Tkin_nearest colDens_nearest ->
  same_shape img colDens_nearest ->
  Float.eq colDens_1 colDens_2 = false \/ Float.eq Tkin_1 Tkin_2 = false ->
  ratio_map.cell_ratio_copy self colDens_nearest Tkin_nearest
    colDens_1 Tkin_1 = Ok copy_1 ->
  ratio_map.cell_ratio_copy self colDens_nearest Tkin_nearest
    colDens_2 Tkin_2 = Ok copy_2 ->
  ratio_map.__calculate_density brentq get_poly_function_min_yval
    (ratio_map.rat_unc self)
    (ratio_map.__get_ratio_map_copy_range_cut min_rat_1 max_rat_1 copy_1)
    x_beg_1 x_end_1 min_rat_1 max_rat_1 popt_1 = Ok maps_1 ->
  ratio_map.__calculate_density brentq get_poly_function_min_yval
    (ratio_map.rat_unc self)
    (ratio_map.__get_ratio_map_copy_range_cut min_rat_2 max_rat_2 copy_2)
    x_beg_2 x_end_2 min_rat_2 max_rat_2 popt_2 = Ok maps_2 ->
  disjoint_maps (ratio_map.vals maps_1) (ratio_map.vals maps_2) /\
  disjoint_maps (ratio_map.vals_err_low maps_1)
    (ratio_map.vals_err_low maps_2) /\
  disjoint_maps (ratio_map.vals_err_up maps_1)
    (ratio_map.vals_err_up maps_2).
Proof.
  intros Himg Hne Hrect Htn Hshape Hdiff Hc1 Hc2 Hrun1 Hrun2.
  assert (Hrect_cut : forall lo hi copy c t,
    ratio_map.cell_ratio_copy self colDens_nearest Tkin_nearest c t = Ok copy ->
    rect (ratio_map.__get_ratio_map_copy_range_cut lo hi copy)).
  { intros lo hi copy c t Hcopy.
    destruct (cell_ratio_copy_spec self img colDens_nearest Tkin_nearest
                c t Himg Hne Hrect Htn Hshape) as (copy' & Hrun & Hcs & _).
    rewrite Hcopy in Hrun. injection Hrun as <-.
    apply (same_shape_rect _ colDens_nearest); [|done].
    unfold ratio_map.__get_ratio_map_copy_range_cut.
    eapply same_shape_trans; [apply same_shape_map|].
    eapply same_shape_trans; [apply same_shape_map|].
    by eapply same_shape_trans. }
  assert (Hno : forall y x q1 q2,
    (pix (ratio_map.vals maps_1) y x = Some (fin q1) \/
     pix (ratio_map.vals_err_low maps_1) y x = Some (fin q1) \/
     pix (ratio_map.vals_err_up maps_1) y x = Some (fin q1)) ->
    (pix (ratio_map.vals maps_2) y x = Some (fin q2) \/
     pix (ratio_map.vals_err_low maps_2) y x = Some (fin q2) \/
     pix (ratio_map.vals_err_up maps_2) y x = Some (fin q2)) -> False).
  { intros y x q1 q2 H1 H2.
    destruct (density_number_from_data _ _ _ _ _ _ _ _ _ maps_1 y x q1
                (Hrect_cut _ _ _ _ _ Hc1) Hrun1 H1) as [d1 Hd1].
    destruct (density_number_from_data _ _ _ _ _ _ _ _ _ maps_2 y x q2
                (Hrect_cut _ _ _ _ _ Hc2) Hrun2 H2) as [d2 Hd2].
    destruct (cell_pixel_kept self img colDens_nearest Tkin_nearest copy_1
                colDens_1 Tkin_1 min_rat_1 max_rat_1 y x d1
                Himg Hne Hrect Htn Hshape Hc1 Hd1)
      as (c & t & Hc & Ht & Ec1 & Et1 & _).
    destruct (cell_pixel_kept self img colDens_nearest Tkin_nearest copy_2
                colDens_2 Tkin_2 min_rat_2 max_rat_2 y x d2
                Himg Hne Hrect Htn Hshape Hc2 Hd2)
      as (c' & t' & Hc' & Ht' & Ec2 & Et2 & _).
    rewrite Hc in Hc'. injection Hc' as <-.
    rewrite Ht in Ht'. injection Ht' as <-.
    rewrite Float_eq_sym in Ec1. rewrite Float_eq_sym in Et1.
    pose proof (Float_eq_trans _ _ _ Ec1 Ec2) as Ec.
    pose proof (Float_eq_trans _ _ _ Et1 Et2) as Et.
    destruct Hdiff; congruence. }
  repeat split; intros y x q1 q2 H1 H2; apply (Hno y x q1 q2); auto.
Qed.

Lemma cells_density_maps_disjoint_witness :
  let self := {| ratio_map.astro_image := Some [[fin 2; fin 3]];
                 ratio_map.header := None; ratio_map.rat_unc := None |} in
  let cn := [[fin 10; fin 20]] in
  let tn := [[fin 15; fin 15]] in
  exists copy_1 copy_2 maps_1 maps_2,
    ratio_map.cell_ratio_copy self cn tn (fin 10) (fin 15) = Ok copy_1 /\
    ratio_map.cell_ratio_copy self cn tn (fin 20) (fin 15) = Ok copy_2 /\
    ratio_map.__calculate_density brentq_ref poly_min_yval_ref None
      (ratio_map.__get_ratio_map_copy_range_cut (fin 1) (fin 5) copy_1)
      (fin 0) (fin 4) (fin 1) (fin 5) [fin 1; fin 1] = Ok maps_1 /\
    ratio_map.__calculate_density brentq_ref poly_min_yval_ref None
      (ratio_map.__get_ratio_map_copy_range_cut (fin 1) (fin 5) copy_2)
      (fin 0) (fin 4) (fin 1) (fin 5) [fin 1; fin 1] = Ok maps_2 /\
    disjoint_maps (ratio_map.vals maps_1) (ratio_map.vals maps_2).
Proof.
  intros self cn tn.
  destruct (ratio_map.cell_ratio_copy self cn tn (fin 10) (fin 15))
    as [copy_1|] eqn:Hc1; [|vm_compute in Hc1; discriminate Hc1].
  destruct (ratio_map.cell_ratio_copy self cn tn (fin 20) (fin 15))
    as [copy_2|] eqn:Hc2; [|vm_compute in Hc2; discriminate Hc2].
  destruct (ratio_map.__calculate_density brentq_ref poly_min_yval_ref None
      (ratio_map.__get_ratio_map_copy_range_cut (fin 1) (fin 5) copy_1)
      (fin 0) (fin 4) (fin 1) (fin 5) [fin 1; fin 1]) as [maps_1|] eqn:Hr1.
  2:{ vm_compute in Hc1. injection Hc1 as <-. vm_compute in Hr1.
      discriminate Hr1. }
  destruct (ratio_map.__calculate_density brentq_ref poly_min_yval_ref None
      (ratio_map.__get_ratio_map_copy_range_cut (fin 1) (fin 5) copy_2)
      (fin 0) (fin 4) (fin 1) (fin 5) [fin 1; fin 1]) as [maps_2|] eqn:Hr2.
  2:{ vm_compute in Hc2. injection Hc2 as <-. vm_compute in Hr2.
      discriminate Hr2. }
  exists copy_1, copy_2, maps_1, maps_2.
  split; [reflexivity|]. split; [reflexivity|].
  split; [exact Hr1|]. split; [exact Hr2|].
  assert (Hrect : rect cn) by (repeat constructor).
  assert (Htn : same_shape tn cn) by (repeat constructor).
  assert (Himg : same_shape [[fin 2; fin 3]] cn) by (repeat constructor).
  exact (proj1 (cells_density_maps_disjoint brentq_ref poly_min_yval_ref
           self [[fin 2; fin 3]] cn tn (fin 10) (fin 15) (fin 20) (fin 15)
           copy_1 copy_2 (fin 0) (fin 4) (fin 1) (fin 5) [fin 1; fin 1]
           (fin 0) (fin 4) (fin 1) (fin 5) [fin 1; fin 1] maps_1 maps_2
           eq_refl ltac:(discriminate) Hrect Htn Himg
           (or_introl eq_refl) Hc1 Hc2 Hr1 Hr2)).
Defined.

(** ** The window of ratios a fitted curve can invert *)

Lemma pix_range_cut_fmap (min_rat max_rat : pyfloat) (ratio_copy : grid)
    (y x : nat) :
  pix (ratio_map.__get_ratio_map_copy_range_cut min_rat max_rat ratio_copy) y x
  = (fun v => if Float.lt v min_rat || Float.gt v max_rat then nan else v)
      <$> pix ratio_copy y x.
Proof.
  destruct (pix ratio_copy y x) as [v|] eqn:Hv.
  - by rewrite (pix_range_cut _ _ _ _ _ v Hv).
  - unfold ratio_map.__get_ratio_map_copy_range_cut.
    by rewrite !pix_map, Hv.
Qed.

Lemma same_shape_range_cut (min_rat max_rat : pyfloat) (ratio_copy : grid) :
  same_shape
    (ratio_map.__get_ratio_map_copy_range_cut min_rat max_rat ratio_copy)
    ratio_copy.
Proof.
  unfold ratio_map.__get_ratio_map_copy_range_cut.
  eapply same_shape_trans; apply same_shape_map.
Qed.

Lemma Float_gt_nan_l (a : pyfloat) : Float.gt nan a = false.
Proof. by destruct a. Qed.

(** X16: cutting a ratio map to the range of a curve keeps the shape;
    a pixel of the result is a number exactly when it was that number
    before and the number is neither below the minimum nor above the
    maximum (both ends of the range are kept), so between finite bounds
    every number left lies in the closed range; cutting a second time
    changes nothing; and when both bounds are NaN nothing is cut. *)
Theorem range_cut_window (min_rat max_rat : pyfloat) (ratio_copy : grid) :
  let cut := ratio_map.__get_ratio_map_copy_range_cut in
  same_shape (cut min_rat max_rat ratio_copy) ratio_copy /\
  (forall y x q,
     pix (cut min_rat max_rat ratio_copy) y x = Some (fin q) <->
     pix ratio_copy y x = Some (fin q) /\
     Float.lt (fin q) min_rat = false /\ Float.gt (fin q) max_rat = false) /\
  (forall lo hi y x q,
     pix (cut (fin lo) (fin hi) ratio_copy) y x = Some (fin q) ->
     lo <= q <= hi) /\
  cut min_rat max_rat (cut min_rat max_rat ratio_copy)
    = cut min_rat max_rat ratio_copy /\
  cut nan nan ratio_copy = ratio_copy.
Proof.
  intros cut. unfold cut.
  assert (Hiff : forall lo hi y x q,
    pix (ratio_map.__get_ratio_map_copy_range_cut lo hi ratio_copy) y x
      = Some (fin q) <->
    pix ratio_copy y x = Some (fin q) /\
    Float.lt (fin q) lo = false /\ Float.gt (fin q) hi = false).
  { intros lo hi y x q. rewrite pix_range_cut_fmap.
    destruct (pix ratio_copy y x) as [v|];
      cbn [fmap option_fmap option_map]; [|split; [done|by intros [? _]]].
    split.
    - destruct (Float.lt v lo) eqn:E1; [done|].
      destruct (Float.gt v hi) eqn:E2; [done|].
      cbn [orb]. by intros [= ->].
    - intros ([= ->] & -> & ->). done. }
  split; [apply same_shape_range_cut|]. split; [apply Hiff|]. split.
  { intros lo hi y x q (_ & Hlo & Hhi)%Hiff.
    unfold Float.gt in Hhi. simpl in Hlo, Hhi.
    apply Qlt_bool_false in Hlo. apply Qlt_bool_false in Hhi. done. }
  split.
  - apply grid_ext; [apply same_shape_range_cut|]. intros y x.
    rewrite (pix_range_cut_fmap _ _ (ratio_map.__get_ratio_map_copy_range_cut
                                       min_rat max_rat ratio_copy)).
    rewrite pix_range_cut_fmap.
    destruct (pix ratio_copy y x) as [v|]; [|done]. simpl. f_equal.
    destruct (Float.lt v min_rat || Float.gt v max_rat) eqn:E.
    + by rewrite Float_gt_nan_l.
    + by rewrite E.
  - apply grid_ext; [apply same_shape_range_cut|]. intros y x.
    rewrite pix_range_cut_fmap.
    destruct (pix ratio_copy y x) as [[|q]|]; done.
Qed.

(** ** The bracket of the root-finder *)

Lemma elem_of_where_eq_from (a : list pyfloat) (v : pyfloat) (k i : nat) :
  i ∈ where_eq_from k a v <->
  exists j w, i = (k + j)%nat /\ a !! j = Some w /\ Float.eq w v = true.
Proof.
  revert k. induction a as [|e rest IH]; intros k; cbn [where_eq_from].
  - split; [by intros ?%elem_of_nil|]. by intros (j & w & _ & ? & _).
  - assert (Hrest : i ∈ where_eq_from (S k) rest v <->
      exists j w, i = (k + S j)%nat /\ rest !! j = Some w /\
                  Float.eq w v = true).
    { rewrite IH. split; intros (j & w & -> & Hj & Hw); exists j, w;
        (split; [lia|done]). }
    destruct (Float.eq e v) eqn:E.
    + rewrite elem_of_cons, Hrest. split.
      * intros [->|(j & w & -> & Hj & Hw)].
        -- exists 0%nat, e. split; [lia|done].
        -- exists (S j), w. done.
      * intros ([|j] & w & -> & Hj & Hw).
        -- left. lia.
        -- right. exists j, w. done.
    + rewrite Hrest. split.
      * intros (j & w & -> & Hj & Hw). exists (S j), w. done.
      * intros ([|j] & w & -> & Hj & Hw).
        -- simpl in Hj. congruence.
        -- exists j, w. done.
Qed.

Lemma elem_of_where_eq (a : list pyfloat) (v : pyfloat) (i : nat) :
  i ∈ where_eq a v <-> exists w, a !! i = Some w /\ Float.eq w v = true.
Proof.
  unfold where_eq. rewrite elem_of_where_eq_from. split.
  - intros (j & w & -> & Hj & Hw). eauto.
  - intros (w & Hi & Hw). exists i, w. done.
Qed.

Lemma take_indices_spec (a : list pyfloat) (indices : list nat) :
  (forall i, i ∈ indices -> (i < length a)%nat) ->
  exists l, take_indices a indices = Ok l /\ length l = length indices /\
    forall e, e ∈ l <-> exists i, i ∈ indices /\ a !! i = Some e.
Proof.
  induction indices as [|i rest IH]; intros Hin; cbn [take_indices].
  - exists []. split; [done|]. split; [done|]. intros e. split.
    + by intros ?%elem_of_nil.
    + by intros (i & ?%elem_of_nil & _).
  - destruct (lookup_lt_is_Some_2 a i) as [e0 He0]; [apply Hin; left|].
    destruct IH as (l & -> & Hlen & Hl); [intros j Hj; apply Hin; by right|].
    rewrite He0. cbn [mbind result_bind]. exists (e0 :: l).
    split; [done|]. split; [simpl; by rewrite Hlen|].
    intros e. rewrite elem_of_cons, Hl. split.
    + intros [->|(j & Hj & He)]; [exists i; split; [left|done]|].
      exists j. split; [by right|done].
    + intros (j & [->|Hj]%elem_of_cons & He); [left; congruence|].
      right. eauto.
Qed.

Lemma get_curve_vals_Ok
    (get_poly_function : Z -> pyfloat -> list pyfloat -> pyfloat)
    (df : DataFrame) (popt : list pyfloat) :
  df <> [] ->
  exists x_curve,
    ratio_map.get_curve_vals get_poly_function df popt
      = Ok (x_curve, ratio_map.get_ratio_curve get_poly_function x_curve popt)
    /\ length x_curve = length df.
Proof.
  intros Hne.
  destruct df as [|r0 rest] eqn:Edf; [done|]. rewrite <- Edf in *.
  assert (Hlen : (0 < length df)%nat) by (rewrite Edf; simpl; lia).
  destruct (lookup_lt_is_Some_2 df (length df - 1)) as [rl Hrl]; [lia|].
  assert (H0 : df !! 0%nat = Some r0) by by rewrite Edf.
  exists (linspace (nH2 r0) (nH2 rl) (length df)).
  split; [|apply linspace_length].
  unfold ratio_map.get_curve_vals.
  rewrite (df_at_Ok df nH2 0 r0 H0 : df_at df nH2 0%Z = _).
  replace (Z.of_nat (length df) - 1)%Z with (Z.of_nat (length df - 1))
    by lia.
  by rewrite (df_at_Ok df nH2 _ rl Hrl).
Qed.

Lemma Float_eq_true (a b : pyfloat) :
  Float.eq a b = true -> exists x y, a = fin x /\ b = fin y /\ x == y.
Proof.
  destruct a as [|x], b as [|y]; simpl; try done.
  intros H%Qeq_bool_iff. eauto.
Qed.

Section bracket.

Variable get_poly_function : Z -> pyfloat -> list pyfloat -> pyfloat.
Variable df : DataFrame.
Variable popt : list pyfloat.
Hypothesis df_rows : df <> [].

Let curve (x : pyfloat) : pyfloat :=
  get_poly_function (Z.of_nat (length popt) - 1)%Z x popt.

Lemma curve_bracket_spec :
  exists min_rat max_rat n_beg n_end,
    ratio_map.curve_bracket get_poly_function df popt
      = Ok (min_rat, max_rat, n_beg, n_end) /\
    (min_rat = nan /\ max_rat = nan /\ n_beg = [] /\ n_end = [] \/
     exists lo hi, min_rat = fin lo /\ max_rat = fin hi /\ lo <= hi /\
       n_beg <> [] /\ n_end <> []) /\
    (forall b, b ∈ n_beg -> Float.eq (curve b) min_rat = true) /\
    (forall e, e ∈ n_end -> Float.eq (curve e) max_rat = true).
Proof.
  destruct (get_curve_vals_Ok get_poly_function df popt df_rows)
    as (x_curve & Hrun & Hxlen).
  set (curve_vals := ratio_map.get_ratio_curve get_poly_function x_curve popt)
    in *.
  assert (Hclen : length curve_vals = length x_curve).
  { unfold curve_vals, ratio_map.get_ratio_curve. by rewrite length_map. }
  assert (Hcne : curve_vals <> []).
  { intros E. apply (f_equal length) in E. rewrite Hclen, Hxlen in E.
    destruct df; [done|]. simpl in E. lia. }
  assert (Hcurve : forall i w, curve_vals !! i = Some w ->
    exists x, x_curve !! i = Some x /\ w = curve x).
  { intros i w. unfold curve_vals, ratio_map.get_ratio_curve.
    change (map ?f ?l) with (f <$> l). rewrite list_lookup_fmap.
    destruct (x_curve !! i) as [x|]; [|done]. intros [= <-]. eauto. }
  destruct (min_max_spec curve_vals Hcne)
    as (min_rat & max_rat & Hmm & Hmin & Hmax & Hbounds).
  assert (Htake : forall v, exists l,
    take_indices x_curve (where_eq curve_vals v) = Ok l /\
    length l = length (where_eq curve_vals v) /\
    forall e, e ∈ l -> Float.eq (curve e) v = true).
  { intros v.
    destruct (take_indices_spec x_curve (where_eq curve_vals v))
      as (l & Hl & Hlen & Hmem).
    { intros i (w & Hi & _)%elem_of_where_eq. rewrite <- Hclen.
      by eapply lookup_lt_Some. }
    exists l. split; [done|]. split; [done|].
    intros e (i & (w & Hw & Hwv)%elem_of_where_eq & Hi)%Hmem.
    destruct (Hcurve i w Hw) as (x & Hx & ->). congruence. }
  destruct (Htake min_rat) as (n_beg & Hbeg & Hblen & Hbmem).
  destruct (Htake max_rat) as (n_end & Hend & Helen & Hemem).
  exists min_rat, max_rat, n_beg, n_end. split.
  { unfold ratio_map.curve_bracket. rewrite Hrun. cbn [mbind result_bind].
    fold curve_vals. rewrite Hmm. cbn [mbind result_bind].
    rewrite Hbeg. cbn [mbind result_bind]. rewrite Hend. done. }
  split; [|done].
  assert (Hempty : forall l : list pyfloat,
    length l = length (where_eq curve_vals nan) -> l = []).
  { intros l Hl. destruct (where_eq curve_vals nan) as [|i rest] eqn:E.
    - by destruct l.
    - assert (Hi : i ∈ where_eq curve_vals nan) by (rewrite E; left).
      apply elem_of_where_eq in Hi as (w & _ & Hw). by destruct w. }
  assert (Hfull : forall (l : list pyfloat) q, fin q ∈ curve_vals ->
    length l = length (where_eq curve_vals (fin q)) -> l <> []).
  { intros l q (i & Hi)%list_elem_of_lookup Hl ->.
    assert (Hin : i ∈ where_eq curve_vals (fin q)).
    { apply elem_of_where_eq. exists (fin q). split; [done|].
      apply Float_eq_refl_fin. }
    destruct (where_eq curve_vals (fin q)); [by apply elem_of_nil in Hin|].
    done. }
  destruct min_rat as [|lo].
  - left. destruct max_rat as [|hi].
    + repeat split; try done; by apply Hempty.
    + destruct (Hbounds hi Hmax) as (? & ? & ? & _). done.
  - right. destruct (Hbounds lo Hmin) as (lo' & hi & [= <-] & -> & Hle).
    exists lo, hi. split; [done|]. split; [done|].
    split; [lra|].
    split; [exact (Hfull n_beg lo Hmin Hblen)|exact (Hfull n_end hi Hmax Helen)].
Qed.

End bracket.

(** X17: for a table with at least one row, the bracket of the
    root-finder is made of points of the axis where the fitted curve
    takes its minimum ([n_beg]) and its maximum ([n_end]), and both
    arrays have an entry unless the curve is NaN at every point, in
    which case both are empty.  When the function handed to the
    root-finder is the curve minus the ratio, it is not positive at
    every entry of [n_beg] and not negative at every entry of [n_end]
    for each ratio the range cut leaves in the map: the bracket
    satisfies the sign condition of the root-finder. *)
Theorem curve_bracket_sign_condition
    (get_poly_function : Z -> pyfloat -> list pyfloat -> pyfloat)
    (get_poly_function_min_yval :
       Z -> pyfloat -> list pyfloat -> pyfloat -> pyfloat)
    (df : DataFrame) (popt : list pyfloat) :
  (forall n x p yval, get_poly_function_min_yval n x p yval
                      = Float.sub (get_poly_function n x p) yval) ->
  df <> [] ->
  exists min_rat max_rat n_beg n_end,
    ratio_map.curve_bracket get_poly_function df popt
      = Ok (min_rat, max_rat, n_beg, n_end) /\
    (min_rat = nan /\ max_rat = nan /\ n_beg = [] /\ n_end = [] \/
     exists lo hi, min_rat = fin lo /\ max_rat = fin hi /\ lo <= hi /\
       n_beg <> [] /\ n_end <> []) /\
    forall ratio_copy y x r b e,
      pix (ratio_map.__get_ratio_map_copy_range_cut min_rat max_rat
             ratio_copy) y x = Some (fin r) ->
      b ∈ n_beg -> e ∈ n_end ->
      exists fb fe,
        get_poly_function_min_yval (Z.of_nat (length popt) - 1)%Z b popt
          (fin r) = fin fb /\
        get_poly_function_min_yval (Z.of_nat (length popt) - 1)%Z e popt
          (fin r) = fin fe /\
        fb <= 0 /\ 0 <= fe.
Proof.
  intros Hsub Hne.
  destruct (curve_bracket_spec get_poly_function df popt Hne)
    as (min_rat & max_rat & n_beg & n_end & Hrun & Hcases & Hb & He).
  exists min_rat, max_rat, n_beg, n_end. split; [done|]. split; [done|].
  intros ratio_copy y x r b e Hr Hbin Hein.
  destruct (Float_eq_true _ _ (Hb b Hbin)) as (pb & lo & Epb & -> & Hlo).
  destruct (Float_eq_true _ _ (He e Hein)) as (pe & hi & Epe & -> & Hhi).
  rewrite pix_range_cut_fmap in Hr.
  destruct (pix ratio_copy y x) as [v|]; [|done].
  cbn [fmap option_fmap option_map] in Hr.
  destruct (Float.lt v (fin lo)) eqn:E1; [done|].
  destruct (Float.gt v (fin hi)) eqn:E2; [done|].
  cbn [orb] in Hr. injection Hr as ->.
  unfold Float.gt in E2. simpl in E1, E2.
  apply Qlt_bool_false in E1. apply Qlt_bool_false in E2.
  exists (pb - r), (pe - r). rewrite !Hsub, Epb, Epe.
  split; [done|]. split; [done|]. split; lra.
Qed.

Lemma curve_bracket_sign_condition_witness :
  let df := [ {| T_ratio := fin 1; nH2 := fin 0; Tkin := fin 10 |};
              {| T_ratio := fin 2; nH2 := fin 2; Tkin := fin 10 |};
              {| T_ratio := fin 5; nH2 := fin 4; Tkin := fin 10 |} ] in
  (forall n x p yval, poly_min_yval_ref n x p yval
                      = Float.sub (poly_ref n x p) yval) /\
  df <> [] /\
  exists min_rat max_rat n_beg n_end,
    ratio_map.curve_bracket poly_ref df [fin 1; fin 1]
      = Ok (min_rat, max_rat, n_beg, n_end) /\
    (min_rat = nan /\ max_rat = nan /\ n_beg = [] /\ n_end = [] \/
     exists lo hi, min_rat = fin lo /\ max_rat = fin hi /\ lo <= hi /\
       n_beg <> [] /\ n_end <> []).
Proof.
  intros df.
  assert (Hsub : forall n x p yval, poly_min_yval_ref n x p yval
                                    = Float.sub (poly_ref n x p) yval)
    by reflexivity.
  assert (Hne : df <> []) by done.
  split; [exact Hsub|]. split; [exact Hne|].
  destruct (curve_bracket_sign_condition poly_ref poly_min_yval_ref df
              [fin 1; fin 1] Hsub Hne)
    as (min_rat & max_rat & n_beg & n_end & Hrun & Hcases & _).
  exists min_rat, max_rat, n_beg, n_end. split; [exact Hrun|exact Hcases].
Defined.

(** ** More on the construction *)



Lemma shape_eqb_true (s t : nat * nat) :
  ratio_map.shape_eqb s t = true <-> s = t.
Proof.
  destruct s as [r c], t as [r' c']. unfold ratio_map.shape_eqb.
  cbn [fst snd]. rewrite andb_true_iff, !Nat.eqb_eq. split.
  - by intros [-> ->].
  - by intros [= -> ->].
Qed.

Lemma init_ratio (data1 data2 : grid) :
  rect data1 -> same_shape data1 data2 ->
  exists ratio,
    broadcast2 Float.div data1 data2 = Ok ratio /\
    same_shape ratio data1 /\ rect ratio /\
    forall y x a b, pix data1 y x = Some a -> pix data2 y x = Some b ->
                    pix ratio y x = Some (Float.div a b).
Proof.
  intros Hrect Hs.
  destruct (broadcast2_same_shape Float.div data1 data2 Hrect Hs)
    as (ratio & Hdiv & Hshape & Hpix).
  exists ratio. split; [done|]. split; [done|]. split; [|done].
  by eapply same_shape_rect.
Qed.



(** X19: uncertainties the constructor does not accept never make it
    raise when the two maps have one shape: the ratio map is built as
    without them, no uncertainty is stored, and a message says so.  A
    list that has not two entries gives the message on the number of
    uncertainties; two entries that are neither two floats nor two
    arrays give the message that the uncertainty was not initialized;
    two arrays of which the first has not the shape of the ratio map
    give the message on the input, then that one. *)
Theorem init_refused_uncertainty (np_sqrt : Q -> Q) (data1 data2 : grid)
    (hdr : option header_t) (uncs : list pyobj) (out : stdout) :
  rect data1 -> same_shape data1 data2 ->
  length uncs <> 2%nat /\ out = [ratio_map.msg_number_of_uncertainties] \/
  (exists r0 r1, uncs = [r0; r1] /\
     (forall v0 v1, (r0, r1) <> (PyFloat v0, PyFloat v1)) /\
     (forall a0 a1, (r0, r1) <> (PyArray a0, PyArray a1)) /\
     out = [ratio_map.msg_no_uncertainty]) \/
  (exists a0 a1, uncs = [PyArray a0; PyArray a1] /\
     shape a0 <> shape data1 /\
     out = [ratio_map.msg_uncertainty_input; ratio_map.msg_no_uncertainty]) ->
  exists self ratio,
    ratio_map.__init__ np_sqrt data1 data2 hdr (Some uncs) = (out, Ok self) /\
    ratio_map.__init__ np_sqrt data1 data2 hdr None = ([], Ok self) /\
    ratio_map.astro_image self = Some ratio /\
    same_shape ratio data1 /\
    ratio_map.rat_unc self = None.
Proof.
  intros Hrect Hs Hcase.
  destruct (init_ratio data1 data2 Hrect Hs)
    as (ratio & Hdiv & Hshape & Hrr & Hpix).
  exists (ratio_map.Astro_Image__init__ ratio hdr), ratio.
  unfold ratio_map.__init__. rewrite Hdiv.
  split; [|done].
  destruct Hcase as [[Hlen ->]|[(r0 & r1 & -> & Hf & Ha & ->)
                               |(a0 & a1 & -> & Hsh & ->)]].
  - apply Nat.eqb_neq in Hlen. by rewrite Hlen.
  - cbn. destruct r0 as [v0|a0|], r1 as [v1|a1|]; try done.
    + by destruct (Hf v0 v1).
    + by destruct (Ha a0 a1).
  - cbn. destruct (ratio_map.shape_eqb (shape a0) (shape ratio)) eqn:E;
      [|done].
    apply shape_eqb_true in E. destruct Hsh. rewrite E.
    destruct (same_shape_dims ratio data1 Hshape) as [Hr Hc].
    unfold shape. by rewrite Hr, Hc.
Qed.

Lemma init_refused_uncertainty_witness :
  let data1 := [[fin 6; fin 1]] in
  let data2 := [[fin 3; fin 2]] in
  let uncs := [PyArray [[fin (1 # 10)]]; PyArray [[fin (1 # 10)]]] in
  rect data1 /\ same_shape data1 data2 /\
  shape [[fin (1 # 10)]] <> shape data1 /\
  exists self,
    ratio_map.__init__ sqrt_ref data1 data2 None (Some uncs)
      = ([ratio_map.msg_uncertainty_input; ratio_map.msg_no_uncertainty],
         Ok self) /\
    ratio_map.rat_unc self = None.
Proof.
  intros data1 data2 uncs.
  assert (Hrect : rect data1) by (repeat constructor).
  assert (Hs : same_shape data1 data2) by (repeat constructor).
  assert (Hsh : shape [[fin (1 # 10)]] <> shape data1) by discriminate.
  split; [exact Hrect|]. split; [exact Hs|]. split; [exact Hsh|].
  destruct (init_refused_uncertainty sqrt_ref data1 data2 None uncs
              [ratio_map.msg_uncertainty_input; ratio_map.msg_no_uncertainty]
              Hrect Hs)
    as (self & ratio & Hrun & _ & _ & _ & Hunc).
  { right. right. exists [[fin (1 # 10)]], [[fin (1 # 10)]].
    split; [reflexivity|]. split; [exact Hsh|reflexivity]. }
  exists self. split; [exact Hrun|exact Hunc].
Defined.

(** ** From a cell of the grid to the global maps *)

Lemma cell_data_shape (self : ratio_map.instance)
    (img colDens_nearest Tkin_nearest copy : grid)
    (colDens Tkin min_rat max_rat : pyfloat) :
  ratio_map.astro_image self = Some img ->
  colDens_nearest <> [] -> rect colDens_nearest ->
  same_shape Tkin_nearest colDens_nearest ->
  same_shape img colDens_nearest ->
  ratio_map.cell_ratio_copy self colDens_nearest Tkin_nearest colDens Tkin
    = Ok copy ->
  let data := ratio_map.__get_ratio_map_copy_range_cut min_rat max_rat copy in
  same_shape data img /\ rect data.
Proof.
  intros Himg Hne Hrect Htn Hshape Hcopy data.
  destruct (cell_ratio_copy_spec self img colDens_nearest Tkin_nearest
              colDens Tkin Himg Hne Hrect Htn Hshape)
    as (copy' & Hrun & Hcs & _).
  rewrite Hcopy in Hrun. injection Hrun as <-.
  assert (Hd : same_shape data img).
  { eapply same_shape_trans; [apply same_shape_range_cut|done]. }
  split; [done|]. apply (same_shape_rect _ colDens_nearest); [|done].
  by eapply same_shape_trans.
Qed.

(** X20: the three density maps computed for a cell of the grid have
    the shape of the ratio map, so merging each of them into a global
    map of that shape (as the maps of NaN the driver starts from) never
    leaves the global map: the merge returns a map of the same shape
    that holds the cell's density where the cell has one and the former
    global value elsewhere. *)
Theorem cell_results_fit_global_map
    (brentq : (pyfloat -> pyfloat) -> pyfloat -> pyfloat -> result pyfloat)
    (get_poly_function_min_yval :
       Z -> pyfloat -> list pyfloat -> pyfloat -> pyfloat)
    (self : ratio_map.instance) (img colDens_nearest Tkin_nearest : grid)
    (colDens Tkin : pyfloat) (copy : grid)
    (x_beg x_end min_rat max_rat : pyfloat) (popt : list pyfloat)
    (maps : ratio_map.density_maps) (global_map local_map : grid) :
  ratio_map.astro_image self = Some img ->
  colDens_nearest <> [] -> rect colDens_nearest ->
  same_shape Tkin_nearest colDens_nearest ->
  same_shape img colDens_nearest ->
  ratio_map.cell_ratio_copy self colDens_nearest Tkin_nearest colDens Tkin
    = Ok copy ->
  ratio_map.__calculate_density brentq get_poly_function_min_yval
    (ratio_map.rat_unc self)
    (ratio_map.__get_ratio_map_copy_range_cut min_rat max_rat copy)
    x_beg x_end min_rat max_rat popt = Ok maps ->
  same_shape global_map img ->
  local_map = ratio_map.vals maps \/
  local_map = ratio_map.vals_err_low maps \/
  local_map = ratio_map.vals_err_up maps ->
  same_shape (nan_grid (length img) (ncols img)) img /\
  same_shape local_map img /\
  exists merged,
    ratio_map.__add_results_to_global_map global_map local_map = Ok merged /\
    same_shape merged img /\
    forall y x, pix merged y x =
      match pix local_map y x with
      | Some (fin q) => Some (fin q)
      | _ => pix global_map y x
      end.
Proof.
  intros Himg Hne Hrect Htn Hshape Hcopy Hrun Hglobal Hlocal.
  destruct (cell_data_shape self img colDens_nearest Tkin_nearest copy
              colDens Tkin min_rat max_rat Himg Hne Hrect Htn Hshape Hcopy)
    as [Hdata Hdrect].
  destruct (calculate_density_shapes _ _ _ _ _ _ _ _ _ maps Hdrect Hrun)
    as (Hs1 & Hs2 & Hs3).
  assert (Hloc : same_shape local_map img).
  { destruct Hlocal as [->|[->| ->]]; by eapply same_shape_trans. }
  split.
  { apply same_shape_nan_grid. by apply (same_shape_rect _ colDens_nearest). }
  split; [done|].
  destruct (add_results_pix global_map local_map) as (merged & Hm & Hms & Hp).
  { intros y x q Hq. apply (same_shape_pix img); [by apply same_shape_sym|].
    apply (same_shape_pix local_map); [done|by eexists]. }
  exists merged. split; [done|]. split; [|done].
  by eapply same_shape_trans.
Qed.

Lemma cell_results_fit_global_map_witness :
  let img := [[fin 2; fin 3]] in
  let self := {| ratio_map.astro_image := Some img;
                 ratio_map.header := None; ratio_map.rat_unc := None |} in
  let cn := [[fin 10; fin 20]] in
  let tn := [[fin 15; fin 15]] in
  exists copy maps merged,
    ratio_map.cell_ratio_copy self cn tn (fin 10) (fin 15) = Ok copy /\
    ratio_map.__calculate_density brentq_ref poly_min_yval_ref None
      (ratio_map.__get_ratio_map_copy_range_cut (fin 1) (fin 5) copy)
      (fin 0) (fin 4) (fin 1) (fin 5) [fin 1; fin 1] = Ok maps /\
    ratio_map.__add_results_to_global_map (nan_grid 1 2) (ratio_map.vals maps)
      = Ok merged /\
    same_shape merged img.
Proof.
  intros img self cn tn.
  destruct (ratio_map.cell_ratio_copy self cn tn (fin 10) (fin 15))
    as [copy|] eqn:Hc; [|vm_compute in Hc; discriminate Hc].
  destruct (ratio_map.__calculate_density brentq_ref poly_min_yval_ref None
      (ratio_map.__get_ratio_map_copy_range_cut (fin 1) (fin 5) copy)
      (fin 0) (fin 4) (fin 1) (fin 5) [fin 1; fin 1]) as [maps|] eqn:Hr.
  2:{ vm_compute in Hc. injection Hc as <-. vm_compute in Hr.
      discriminate Hr. }
  assert (Hrect : rect cn) by (repeat constructor).
  assert (Htn : same_shape tn cn) by (repeat constructor).
  assert (Himg : same_shape img cn) by (repeat constructor).
  assert (Hg : same_shape (nan_grid 1 2) img) by (repeat constructor).
  destruct (cell_results_fit_global_map brentq_ref poly_min_yval_ref
              self img cn tn (fin 10) (fin 15) copy (fin 0) (fin 4)
              (fin 1) (fin 5) [fin 1; fin 1] maps (nan_grid 1 2)
              (ratio_map.vals maps)
              eq_refl ltac:(discriminate) Hrect Htn Himg Hc Hr Hg
              (or_introl eq_refl))
    as (_ & _ & merged & Hm & Hms & _).
  exists copy, maps, merged.
  split; [reflexivity|]. split; [exact Hr|]. split; [exact Hm|exact Hms].
Defined.

(** ** Nearest-value matcher without candidates *)

Lemma nearest_loop_no_options (real_map : grid) (idx : list (nat * nat))
    (g : grid) :
  (forall y x, (y, x) ∈ idx -> is_Some (pix real_map y x)) ->
  ((exists y x q, (y, x) ∈ idx /\ pix real_map y x = Some (fin q)) ->
   for_each (ratio_map.nearest_pixel real_map []) idx g = Raise ValueError) /\
  ((forall y x, (y, x) ∈ idx -> pix real_map y x = Some nan) ->
   for_each (ratio_map.nearest_pixel real_map []) idx g = Ok g).
Proof.
  induction idx as [|[y x] rest IH]; intros Hin; cbn [for_each].
  - split; [|done]. by intros (y & x & q & ?%elem_of_nil & _).
  - destruct IH as [IH1 IH2]; [intros y' x' H'; apply Hin; by right|].
    destruct (Hin y x) as [v Hv]; [left|].
    unfold ratio_map.nearest_pixel at 1 3, getitem2. rewrite Hv.
    cbn [mbind result_bind]. split.
    + intros (y' & x' & q & [[= -> ->]|Hi]%elem_of_cons & Hq).
      * rewrite Hv in Hq. injection Hq as ->. done.
      * destruct v as [|q0]; [|done]. cbn. apply IH1. eauto.
    + intros Hall. rewrite (Hall y x) in Hv by left. injection Hv as <-.
      cbn. apply IH2. intros y' x' H'. apply Hall. by right.
Qed.

(** X21: with an empty list of candidates the nearest-value matcher
    raises ValueError as soon as the map holds a number, and returns
    the map unchanged, with itself as the map of deviations, when every
    pixel is NaN. *)
Theorem get_nearest_map_no_candidates (real_map : grid) :
  rect real_map -> real_map <> [] ->
  ((exists y x q, pix real_map y x = Some (fin q)) ->
   ratio_map.__get_nearest_map real_map [] = Raise ValueError) /\
  ((forall y x v, pix real_map y x = Some v -> v = nan) ->
   ratio_map.__get_nearest_map real_map [] = Ok (real_map, real_map)).
Proof.
  intros Hrect Hne. unfold ratio_map.__get_nearest_map.
  rewrite len_row0_Ok by done. cbn [mbind result_bind].
  set (idx := columns_then_rows (length real_map) (ncols real_map)).
  assert (Hidx : forall y x, (y, x) ∈ idx <-> is_Some (pix real_map y x)).
  { intros y x. unfold idx. rewrite elem_of_columns_then_rows.
    symmetry. by apply pix_is_Some_rect. }
  destruct (nearest_loop_no_options real_map idx real_map) as [Hraise Hok];
    [intros y x Hi; by apply Hidx|].
  split.
  - intros (y & x & q & Hq). rewrite Hraise; [done|].
    exists y, x, q. split; [|done]. apply Hidx. by eexists.
  - intros Hnan. rewrite Hok.
    2:{ intros y x [v Hv]%Hidx. by rewrite Hv, (Hnan y x v Hv). }
    cbn [mbind result_bind].
    destruct (broadcast2_same_shape Float.sub real_map real_map Hrect
                (same_shape_refl real_map)) as (diff & -> & Hds & Hdp).
    cbn [mbind result_bind]. do 2 f_equal.
    apply grid_ext; [done|]. intros y x.
    destruct (pix real_map y x) as [v|] eqn:Hv.
    + rewrite (Hdp y x v v Hv Hv). by rewrite (Hnan y x v Hv).
    + destruct (pix diff y x) as [w|] eqn:Hw; [|done].
      destruct (same_shape_pix diff real_map y x Hds) as [v' Hv'];
        [by eexists|congruence].
Qed.

Lemma get_nearest_map_no_candidates_witness :
  rect [[nan; fin 1]] /\ [[nan; fin 1]] <> [] /\
  ratio_map.__get_nearest_map [[nan; fin 1]] [] = Raise ValueError.
Proof.
  assert (Hrect : rect [[nan; fin 1]]) by (repeat constructor).
  split; [exact Hrect|]. split; [discriminate|].
  apply (proj1 (get_nearest_map_no_candidates [[nan; fin 1]] Hrect
                  ltac:(discriminate))).
  exists 0%nat, 1%nat, 1. reflexivity.
Defined.

(** ** Every pixel belongs to one cell of the grid *)




